(** * Vibe-coded apps database: ingestion, deduplication, merge and pagination

    A shallow embedding of the SQLite-backed upsert routines
    (tools/process_data.py, tools/data_integration.py), of the platform
    merge script (tools/cleanup_platform_duplicates.py) and of the
    pagination loops and record normalizers of the scrapers, followed by
    the properties proved about them.

    Python dictionaries decoded from JSON are association lists, SQL tables
    are lists of rows in rowid order, exceptions are an explicit result
    type, and the HTTP peer is the sequence of responses it gives. *)

From Stdlib Require Import List ZArith String Ascii Bool Lia Arith DecimalString.
From Stdlib Require Import Floats.SpecFloat.
Import ListNotations.
Open Scope string_scope.
Open Scope Z_scope.

Set Warnings "-register-all".

(** ** Python values *)

(** A Python [float]: the IEEE 754 double it is, and with it the text
    SQLite writes for it when it meets a column of TEXT affinity. That
    text is a function of the double; the rendering itself is not
    embedded, a float carries its text. *)
Record float : Type := {
  value : spec_float;
  sql_text : string
}.

(** What [json.load] returns. An [int] is unbounded; a [float] may be NaN
    or an infinity, which [json.load] accepts. A [str] is held as its
    UTF-8 bytes; a lone surrogate, which [json.load] accepts from an
    escape and UTF-8 has no encoding for, is held as the three bytes the
    [surrogatepass] handler writes for it (ED A0 80 to ED BF BF). *)
Inductive json : Type :=
| JNull
| JBool (b : bool)
| JNum (n : Z)
| JFloat (f : float)
| JStr (s : string)
| JList (l : list json)
| JObj (o : list (string * json)).

Definition dict := list (string * json).

Fixpoint lookup (k : string) (d : dict) : option json :=
  match d with
  | [] => None
  | (k', v) :: d' => if String.eqb k k' then Some v else lookup k d'
  end.

(** [d.get(k, default)] *)
Definition get (d : dict) (k : string) (default : json) : json :=
  match lookup k d with
  | Some v => v
  | None => default
  end.

(** [d.get(k)] *)
Definition get1 (d : dict) (k : string) : json := get d k JNull.

(** Truth value of an object, as [if v:] and [not v] test it. *)
Definition truthy (v : json) : bool :=
  match v with
  | JNull => false
  | JBool b => b
  | JNum n => negb (n =? 0)
  | JFloat f => match value f with S754_zero _ => false | _ => true end
  | JStr s => negb (String.eqb s "")
  | JList l => match l with [] => false | _ :: _ => true end
  | JObj o => match o with [] => false | _ :: _ => true end
  end.

(** The text starts with the bytes of a surrogate. *)
Definition surrogate_at (s : string) : bool :=
  match s with
  | String a s' =>
      if (nat_of_ascii a =? 237)%nat then
        match s' with
        | String b _ => ((160 <=? nat_of_ascii b) && (nat_of_ascii b <=? 191))%nat
        | EmptyString => false
        end
      else false
  | EmptyString => false
  end.

(** The [str] holds a surrogate, so that it cannot be encoded as UTF-8. *)
Fixpoint has_surrogate (s : string) : bool :=
  match s with
  | EmptyString => false
  | String _ s' => surrogate_at s || has_surrogate s'
  end.

Inductive exn : Type :=
| AttributeError
| TypeError
| ProgrammingError
| OperationalError
| OverflowError
| UnicodeEncodeError.

Inductive result (A : Type) : Type :=
| Ok (a : A)
| Raise (e : exn).
Arguments Ok {A} a.
Arguments Raise {A} e.

(** ** SQLite values *)

Inductive sqlval : Type :=
| SNull
| SInt (n : Z)
| SReal (f : float)
| SText (s : string).

(** Binding a Python value to a [?] placeholder; [None] when [execute]
    raises. [None] is bound as NULL, an [int] (and a [bool], a subclass of
    [int]) as a 64-bit integer, a [float] as a double, which SQLite turns
    into NULL when it is NaN, a [str] as its UTF-8 text. An [int] outside
    64 bits, a [str] with a surrogate, a list and a dict make [execute]
    raise. *)
Definition bind (v : json) : option sqlval :=
  match v with
  | JNull => Some SNull
  | JBool b => Some (SInt (if b then 1 else 0))
  | JNum n =>
      if (-9223372036854775808 <=? n) && (n <=? 9223372036854775807)
      then Some (SInt n) else None
  | JFloat f =>
      match value f with
      | S754_nan => Some SNull
      | _ => Some (SReal f)
      end
  | JStr s => if has_surrogate s then None else Some (SText s)
  | JList _ => None
  | JObj _ => None
  end.

(** The exception [execute] raises on a value that cannot be bound. *)
Definition binding_error (v : json) : exn :=
  match v with
  | JNum _ => OverflowError
  | JStr _ => UnicodeEncodeError
  | _ => ProgrammingError
  end.

(** The exception of the first of the values that cannot be bound. *)
Definition first_error (parameters : list json) : exn :=
  match find (fun v => match bind v with Some _ => false | None => true end) parameters with
  | Some v => binding_error v
  | None => ProgrammingError
  end.

(** The integer a double is, when it is one. *)
Definition integer_of (f : spec_float) : option Z :=
  match f with
  | S754_zero _ => Some 0
  | S754_finite s m e =>
      let sign := if s then -1 else 1 in
      if 0 <=? e then Some (sign * (Z.pos m * 2 ^ e))
      else if Z.pos m mod 2 ^ (- e) =? 0 then Some (sign * (Z.pos m / 2 ^ (- e)))
      else None
  | _ => None
  end.

(** Equality of two doubles other than NaN; the two zeros are equal. *)
Definition real_eqb (f g : spec_float) : bool :=
  match f, g with
  | S754_zero _, S754_zero _ => true
  | S754_infinity s, S754_infinity s' => Bool.eqb s s'
  | S754_finite s m e, S754_finite s' m' e' => Bool.eqb s s' && Pos.eqb m m' && (e =? e')
  | _, _ => false
  end.

(** SQL [=] on stored values: [NULL] is equal to nothing, numbers are
    compared by value, a text is equal to the same text only. *)
Definition sql_eq (a b : sqlval) : bool :=
  match a, b with
  | SInt x, SInt y => x =? y
  | SReal f, SReal g => real_eqb (value f) (value g)
  | SInt x, SReal f | SReal f, SInt x =>
      match integer_of (value f) with
      | Some y => x =? y
      | None => false
      end
  | SText x, SText y => String.eqb x y
  | _, _ => false
  end.

Definition text_of_Z (n : Z) : string := NilZero.string_of_int (Z.to_int n).

(** Storing into, or comparing with, a column of TEXT affinity: a number
    becomes its text. *)
Definition text_affinity (v : sqlval) : sqlval :=
  match v with
  | SInt n => SText (text_of_Z n)
  | SReal f => SText (sql_text f)
  | _ => v
  end.

(** ** tools/process_data.py *)

Module ProcessData.

(** Modelled from the spec: database_schema.sql, which declares the tables
    of vibe_coded_apps.db, is not among the sources. A platform has an
    identifier, a name, a base URL and a description; the columns are named
    as the statements of the scripts name them. *)
Record platform : Type := {
  p_id : Z;
  p_name : string;
  p_url : sqlval;
  p_description : sqlval
}.

(** Modelled from the spec: database_schema.sql is not among the sources.
    An application has a name, a description, a URL, an external
    identifier, the platform that owns it and creation and update
    timestamps; the columns are named as the statements below name them,
    and the table carries no constraint beyond its primary key [id]. *)
Record application : Type := {
  a_id : Z;
  a_platform_id : Z;
  a_external_id : option string;
  a_name : sqlval;
  a_url : sqlval;
  a_description : sqlval;
  a_created_at : sqlval;
  a_updated_at : sqlval
}.

Record database : Type := {
  platforms : list platform;
  applications : list application
}.

Definition with_applications (db : database) (t : list application) : database :=
  {| platforms := platforms db; applications := t |}.

(** The dictionary [app_data] both processors build. *)
Record app_data : Type := {
  ad_platform_id : Z;
  ad_external_id : string;
  ad_name : json;
  ad_url : json;
  ad_description : json
}.

(** Modelled from the spec: database_schema.sql is not among the sources.
    The id of a new row is SQLite's rowid for an INTEGER PRIMARY KEY: one
    more than the largest id in the table, 1 in an empty table. *)
Definition next_rowid (t : list application) : Z :=
  match map a_id t with
  | [] => 1
  | i :: l => fold_right Z.max i l + 1
  end.

(** [WHERE platform_id = ? AND external_id = ?] *)
Definition key_matches (platform_id : Z) (external_id : string) (r : application) : bool :=
  (a_platform_id r =? platform_id) &&
  match a_external_id r with
  | Some e => String.eqb e external_id
  | None => false
  end.

(** [SET name = ?, url = ?, description = ?, updated_at = CURRENT_TIMESTAMP] *)
Definition set_fields (now : string) (n u d : sqlval) (r : application) : application :=
  {| a_id := a_id r;
     a_platform_id := a_platform_id r;
     a_external_id := a_external_id r;
     a_name := n;
     a_url := u;
     a_description := d;
     a_created_at := a_created_at r;
     a_updated_at := SText now |}.

(** The values of [app_data] that the statements of the upsert bind, in
    the order in which they meet them: [external_id] in the SELECT, then
    [name], [url] and [description] in the UPDATE or the INSERT.
    [platform_id], which the callers read from the table [platforms], is
    a 64-bit integer and can always be bound. *)
Definition parameters (app_data : app_data) : list json :=
  [JStr (ad_external_id app_data); ad_name app_data; ad_url app_data;
   ad_description app_data].

(** What is stored of them as [(name, url, description)]; [None] when one
    of the four cannot be bound, which makes [execute] raise. *)
Definition bind_fields (app_data : app_data) : option (sqlval * sqlval * sqlval) :=
  match bind (JStr (ad_external_id app_data)),
        bind (ad_name app_data), bind (ad_url app_data), bind (ad_description app_data) with
  | Some _, Some n, Some u, Some d => Some (n, u, d)
  | _, _, _, _ => None
  end.

(** The exception [execute] raises then. *)
Definition fields_error (app_data : app_data) : exn := first_error (parameters app_data).

(** [INSERT INTO applications (platform_id, external_id, name, url,
    description)]; the two timestamps, which the statement leaves to the
    schema, are taken to default to the current time. *)
Definition new_row (now : string) (app_data : app_data) (app_id : Z) (n u d : sqlval) : application :=
  {| a_id := app_id;
     a_platform_id := ad_platform_id app_data;
     a_external_id := Some (ad_external_id app_data);
     a_name := n;
     a_url := u;
     a_description := d;
     a_created_at := SText now;
     a_updated_at := SText now |}.

(** [VibeCodedAppsDB.get_platform_id] *)
Definition get_platform_id (db : database) (platform_name : string) : option Z :=
  match find (fun p => String.eqb (p_name p) platform_name) (platforms db) with
  | Some result => Some (p_id result)
  | None => None
  end.

Module GitHubDataProcessor.

Definition _insert_or_update_application
  (now : string) (app_data : app_data) (db : database) : result Z * database :=
  (* Check if exists *)
  match bind (JStr (ad_external_id app_data)) with
  | None => (Raise UnicodeEncodeError, db)
  | Some _ =>
      match find (key_matches (ad_platform_id app_data) (ad_external_id app_data))
                 (applications db) with
      | Some result =>
          (* Update existing *)
          let app_id := a_id result in
          match bind_fields app_data with
          | Some (n, u, d) =>
              (Ok app_id,
               with_applications db
                 (map (fun r => if a_id r =? app_id then set_fields now n u d r else r)
                      (applications db)))
          | None => (Raise (fields_error app_data), db)
          end
      | None =>
          (* Insert new *)
          match bind_fields app_data with
          | Some (n, u, d) =>
              let app_id := next_rowid (applications db) in
              (Ok app_id,
               with_applications db (applications db ++ [new_row now app_data app_id n u d]))
          | None => (Raise (fields_error app_data), db)
          end
      end
  end.

Section WithStr.

(** Python's built-in [str] on a decoded JSON value. *)
Variable str : json -> string.

(** The first half of the loop body of [process_github_search_results]:
    [Ok None] is the [skipped_count += 1; continue] branch, [Raise] an
    exception caught by the loop's [except]. *)
Definition application_of_item (platform_id : Z) (item : json) : result (option app_data) :=
  match item with
  | JObj item =>
      match get item "repository" (JObj []) with
      | JObj repo_info =>
          let repo_id := get1 repo_info "id" in
          if negb (truthy repo_id) then Ok None
          else Ok (Some {| ad_platform_id := platform_id;
                           ad_external_id := str repo_id;
                           ad_name := get repo_info "full_name" (JStr "");
                           ad_url := get repo_info "html_url" (JStr "");
                           ad_description := get repo_info "description" (JStr "") |})
      | _ => Raise AttributeError
      end
  | _ => Raise AttributeError
  end.

(** One iteration, as far as the [applications] table goes: the statements
    after the upsert write github_repositories, repository_files, ai_tools
    and application_ai_tools, each under its own commit, and an exception
    there is caught after the application row is committed. *)
Definition process_item (now : string) (platform_id : Z) (db : database) (item : json) : database :=
  match application_of_item platform_id item with
  | Ok (Some app_data) => snd (_insert_or_update_application now app_data db)
  | Ok None => db
  | Raise _ => db
  end.

(** [process_github_search_results], as far as the database goes. When
    ['items'] is not a list nothing is written: iterating a string or a
    dictionary yields strings, on which [.get] raises inside the loop's
    [try], and [len] of anything else raises before the loop. *)
Definition process_github_search_results
  (now : string) (data : dict) (platform_name : string) (db : database) : database :=
  match get_platform_id db platform_name with
  | None => db
  | Some platform_id =>
      if platform_id =? 0 then db
      else
        match get data "items" (JList []) with
        | JList items => fold_left (process_item now platform_id) items db
        | _ => db
        end
  end.

End WithStr.

End GitHubDataProcessor.

Module V0DataProcessor.

Fixpoint strip_prefix (p s : string) : option string :=
  match p, s with
  | EmptyString, _ => Some s
  | String a p', String b s' => if Ascii.eqb a b then strip_prefix p' s' else None
  | String _ _, EmptyString => None
  end.

(** The group [[^/?]+], taken greedily. *)
Fixpoint take_id (s : string) : string :=
  match s with
  | EmptyString => EmptyString
  | String c s' =>
      if Ascii.eqb c "/" || Ascii.eqb c "?" then EmptyString
      else String c (take_id s')
  end.

(** [re.search(r'/community/([^/?]+)', url)]: the leftmost position where
    the pattern matches. *)
Fixpoint _extract_v0_id (url : string) : option string :=
  let here :=
    match strip_prefix "/community/" url with
    | Some rest =>
        match take_id rest with
        | EmptyString => None
        | id => Some id
        end
    | None => None
    end in
  match here with
  | Some id => Some id
  | None =>
      match url with
      | EmptyString => None
      | String _ url' => _extract_v0_id url'
      end
  end.

Definition _insert_or_update_application
  (now : string) (app_data : app_data) (db : database) : result Z * database :=
  match bind (JStr (ad_external_id app_data)) with
  | None => (Raise UnicodeEncodeError, db)
  | Some _ =>
      match find (key_matches (ad_platform_id app_data) (ad_external_id app_data))
                 (applications db) with
      | Some result =>
          let app_id := a_id result in
          match bind_fields app_data with
          | Some (n, u, d) =>
              (Ok app_id,
               with_applications db
                 (map (fun r => if a_id r =? app_id then set_fields now n u d r else r)
                      (applications db)))
          | None => (Raise (fields_error app_data), db)
          end
      | None =>
          match bind_fields app_data with
          | Some (n, u, d) =>
              let app_id := next_rowid (applications db) in
              (Ok app_id,
               with_applications db (applications db ++ [new_row now app_data app_id n u d]))
          | None => (Raise (fields_error app_data), db)
          end
      end
  end.

Definition application_of_url (platform_id : Z) (url : json) : result (option app_data) :=
  match url with
  | JStr u =>
      match _extract_v0_id u with
      | None => Ok None
      | Some community_id =>
          Ok (Some {| ad_platform_id := platform_id;
                      ad_external_id := community_id;
                      ad_name := JStr ("v0 Community App " ++ community_id);
                      ad_url := url;
                      ad_description := JStr "v0.dev community application" |})
      end
  | _ => Raise TypeError
  end.

Definition process_url (now : string) (platform_id : Z) (db : database) (url : json) : database :=
  match application_of_url platform_id url with
  | Ok (Some app_data) => snd (_insert_or_update_application now app_data db)
  | Ok None => db
  | Raise _ => db
  end.

Definition process_v0_urls
  (now : string) (urls : list json) (platform_name : string) (db : database) : database :=
  match get_platform_id db platform_name with
  | None => db
  | Some platform_id =>
      if platform_id =? 0 then db
      else fold_left (process_url now platform_id) urls db
  end.

End V0DataProcessor.

(** Modelled from the spec: database_schema.sql is not among the sources.
    A row of [ai_tools] has the columns the statements of
    [get_or_create_ai_tool] name, an INTEGER PRIMARY KEY [id] and no
    further constraint; [category] and [provider] are [None] when the
    caller leaves them out. *)
Record ai_tool : Type := {
  t_id : Z;
  t_name : string;
  t_category : option string;
  t_provider : option string
}.

(** Modelled from the spec: database_schema.sql is not among the sources.
    The id of a new row of [ai_tools] is one more than the largest id in
    the table, 1 in an empty table. *)
Definition next_tool_id (t : list ai_tool) : Z :=
  match map t_id t with
  | [] => 1
  | i :: l => fold_right Z.max i l + 1
  end.

(** [VibeCodedAppsDB.get_or_create_ai_tool], on the table [ai_tools]. *)
Definition get_or_create_ai_tool
  (name : string) (category provider : option string) (t : list ai_tool)
  : Z * list ai_tool :=
  match find (fun r => String.eqb (t_name r) name) t with
  | Some result => (t_id result, t)
  | None =>
      let tool_id := next_tool_id t in
      (tool_id,
       (t ++ [{| t_id := tool_id; t_name := name;
                 t_category := category; t_provider := provider |}])%list)
  end.

End ProcessData.

(** ** tools/data_integration.py *)

Module DataIntegration.

(** Table [apps] of vibe_apps.db, as [setup_database] creates it: [id] is
    INTEGER PRIMARY KEY AUTOINCREMENT, [url] is UNIQUE and so is the pair
    [(url, source_platform)]. [r_topics] and [r_raw_data] hold the values
    whose [json.dumps] text is stored. The columns kept are those of TEXT
    affinity; [stars], of INTEGER affinity, is left out: what SQLite makes
    of a text or of a double stored there is not embedded, and no
    statement embedded here reads the column. *)
Record app_row : Type := {
  r_id : Z;
  r_name : sqlval;
  r_description : sqlval;
  r_url : sqlval;
  r_source_platform : sqlval;
  r_created_at : sqlval;
  r_updated_at : sqlval;
  r_language : sqlval;
  r_license : sqlval;
  r_topics : json;
  r_raw_data : dict
}.

(** Table [platforms]: [id] AUTOINCREMENT, [name] UNIQUE, [total_apps]
    DEFAULT 0. *)
Record platform_row : Type := {
  pl_id : Z;
  pl_name : string;
  pl_description : string;
  pl_base_url : string;
  pl_scraping_method : string;
  pl_last_scraped : string;
  pl_total_apps : Z
}.

(** The database file: the two tables and their sqlite_sequence entries. *)
Record database : Type := {
  apps : list app_row;
  apps_seq : Z;
  platforms : list platform_row;
  platforms_seq : Z
}.

(** An open connection; [last_insert_rowid] is what [cursor.lastrowid]
    reads after an [execute]: the rowid of the last row this connection
    inserted in any table, 0 when it has inserted none. *)
Record connection : Type := {
  stored : database;
  last_insert_rowid : Z
}.

Definition connect (d : database) : connection :=
  {| stored := d; last_insert_rowid := 0 |}.

Definition empty_database : database :=
  {| apps := []; apps_seq := 0; platforms := []; platforms_seq := 0 |}.

(** [self.stats] *)
Record stats : Type := {
  total_processed : Z;
  bolt_projects : Z;
  lovable_projects : Z;
  jules_prs : Z;
  original_apps : Z;
  duplicates_skipped : Z;
  errors : Z
}.

Definition initial_stats : stats :=
  {| total_processed := 0; bolt_projects := 0; lovable_projects := 0; jules_prs := 0;
     original_apps := 0; duplicates_skipped := 0; errors := 0 |}.

Definition incr_total_processed (s : stats) : stats :=
  {| total_processed := total_processed s + 1; bolt_projects := bolt_projects s;
     lovable_projects := lovable_projects s; jules_prs := jules_prs s;
     original_apps := original_apps s; duplicates_skipped := duplicates_skipped s;
     errors := errors s |}.

Definition incr_bolt_projects (s : stats) : stats :=
  {| total_processed := total_processed s; bolt_projects := bolt_projects s + 1;
     lovable_projects := lovable_projects s; jules_prs := jules_prs s;
     original_apps := original_apps s; duplicates_skipped := duplicates_skipped s;
     errors := errors s |}.

Definition incr_lovable_projects (s : stats) : stats :=
  {| total_processed := total_processed s; bolt_projects := bolt_projects s;
     lovable_projects := lovable_projects s + 1; jules_prs := jules_prs s;
     original_apps := original_apps s; duplicates_skipped := duplicates_skipped s;
     errors := errors s |}.

Definition incr_duplicates_skipped (s : stats) : stats :=
  {| total_processed := total_processed s; bolt_projects := bolt_projects s;
     lovable_projects := lovable_projects s; jules_prs := jules_prs s;
     original_apps := original_apps s; duplicates_skipped := duplicates_skipped s + 1;
     errors := errors s |}.

Definition incr_errors (s : stats) : stats :=
  {| total_processed := total_processed s; bolt_projects := bolt_projects s;
     lovable_projects := lovable_projects s; jules_prs := jules_prs s;
     original_apps := original_apps s; duplicates_skipped := duplicates_skipped s;
     errors := errors s + 1 |}.

(** The rowid an AUTOINCREMENT table gives its next row: one more than
    the largest rowid it ever held. *)
Definition autoincrement (seq : Z) (ids : list Z) : Z :=
  fold_right Z.max seq ids + 1.

(** [INSERT OR REPLACE INTO platforms (name, description, base_url,
    scraping_method, last_scraped)]: the row that holds the same [name] is
    deleted and a new row is inserted. Returns [cursor.lastrowid]. *)
Definition insert_platform
  (now : string) (name description base_url method : string) (conn : connection)
  : Z * connection :=
  let d := stored conn in
  let new_id := autoincrement (platforms_seq d) (map pl_id (platforms d)) in
  let kept := filter (fun r => negb (String.eqb (pl_name r) name)) (platforms d) in
  let row := {| pl_id := new_id; pl_name := name; pl_description := description;
                pl_base_url := base_url; pl_scraping_method := method;
                pl_last_scraped := now; pl_total_apps := 0 |} in
  (new_id,
   {| stored := {| apps := apps d; apps_seq := apps_seq d;
                   platforms := kept ++ [row]; platforms_seq := new_id |};
      last_insert_rowid := new_id |}).

(** [SELECT id FROM apps WHERE url = ?] *)
Definition select_by_url (u : sqlval) (t : list app_row) : option app_row :=
  find (fun r => sql_eq (r_url r) (text_affinity u)) t.

(** The row the INSERT of [insert_app] writes, with the affinity of the
    columns applied; [None] when one of the parameters, [stars] included,
    cannot be bound. [now] is [datetime.now().isoformat()], a text of
    digits and punctuation, which can always be bound. *)
Definition row_of_app_data (now : string) (app_data : dict) (new_id : Z) : option app_row :=
  match bind (get app_data "name" (JStr "")),
        bind (get app_data "description" (JStr "")),
        bind (get app_data "url" (JStr "")),
        bind (get app_data "source_platform" (JStr "")),
        match lookup "created_at" app_data with
        | Some created_at => bind created_at
        | None => Some (SText now)
        end,
        bind (get app_data "stars" (JNum 0)),
        bind (get app_data "language" (JStr "")),
        bind (get app_data "license" (JStr "")) with
  | Some name, Some description, Some url, Some source_platform,
    Some created_at, Some _, Some language, Some license =>
      Some {| r_id := new_id;
              r_name := text_affinity name;
              r_description := text_affinity description;
              r_url := text_affinity url;
              r_source_platform := text_affinity source_platform;
              r_created_at := text_affinity created_at;
              r_updated_at := SText now;
              r_language := text_affinity language;
              r_license := text_affinity license;
              r_topics := get app_data "topics" (JList []);
              r_raw_data := app_data |}
  | _, _, _, _, _, _, _, _ => None
  end.

(** The two uniqueness constraints of [apps], tested against a row about
    to be inserted. *)
Definition violates_unique (row : app_row) (t : list app_row) : bool :=
  existsb (fun r => sql_eq (r_url r) (r_url row)) t ||
  existsb (fun r => sql_eq (r_url r) (r_url row) &&
                    sql_eq (r_source_platform r) (r_source_platform row)) t.

(** [INSERT OR IGNORE INTO apps (...)]: a row that violates a uniqueness
    constraint is dropped without an error; the sequence advances all the
    same (SQLite leaves such gaps), [last_insert_rowid] does not. *)
Definition insert_or_ignore (row : app_row) (conn : connection) : connection :=
  let d := stored conn in
  if violates_unique row (apps d) then
    {| stored := {| apps := apps d; apps_seq := r_id row;
                    platforms := platforms d; platforms_seq := platforms_seq d |};
       last_insert_rowid := last_insert_rowid conn |}
  else
    {| stored := {| apps := apps d ++ [row]; apps_seq := r_id row;
                    platforms := platforms d; platforms_seq := platforms_seq d |};
       last_insert_rowid := r_id row |}.

Definition insert_app (now : string) (app_data : dict) (st : connection * stats)
  : option Z * (connection * stats) :=
  let (conn, stats) := st in
  let insert :=
    let d := stored conn in
    match row_of_app_data now app_data (autoincrement (apps_seq d) (map r_id (apps d))) with
    | None => (None, (conn, incr_errors stats))
    | Some row =>
        let conn' := insert_or_ignore row conn in
        let app_id := last_insert_rowid conn' in
        if app_id =? 0 then (None, (conn', incr_duplicates_skipped stats))
        else (Some app_id, (conn', incr_total_processed stats))
    end in
  (* Check for duplicates based on URL *)
  if truthy (get1 app_data "url") then
    match bind (get1 app_data "url") with
    | None => (None, (conn, incr_errors stats))
    | Some u =>
        match select_by_url u (apps (stored conn)) with
        | Some _ => (None, (conn, incr_duplicates_skipped stats))
        | None => insert
        end
    end
  else insert.

Definition bolt_app_data (project : dict) : dict :=
  [("name", get project "title" (get project "name" (JStr "")));
   ("description", get project "description" (JStr ""));
   ("url", get project "url" (JStr ""));
   ("source_platform", JStr "bolt");
   ("created_at", get project "created_at" (JStr ""));
   ("stars", get project "star_count" (JNum 0));
   ("language", get project "primary_language" (JStr ""));
   ("topics", get project "tags" (JList []));
   ("raw_data", JObj project)].

Definition lovable_app_data (project : dict) : dict :=
  [("name", get project "name" (get project "title" (JStr "")));
   ("description", get project "description" (JStr ""));
   ("url", get project "url" (get project "project_url" (JStr "")));
   ("source_platform", JStr "lovable");
   ("created_at", get project "created_at" (JStr ""));
   ("language", get project "technology" (JStr ""));
   ("topics", get project "tags" (JList []));
   ("raw_data", JObj project)].

(** [process_bolt_projects]; [projects] is the content of the first
    non-empty file among the candidates. *)
Definition process_bolt_projects (now : string) (projects : list dict) (st : connection * stats)
  : connection * stats :=
  let (conn, stats) := st in
  let conn := snd (insert_platform now "Bolt" "Bolt.new Supabase gallery projects"
                                   "https://bolt.new" "supabase_api" conn) in
  fold_left
    (fun st project =>
       match insert_app now (bolt_app_data project) st with
       | (Some _, (c, s)) => (c, incr_bolt_projects s)
       | (None, st') => st'
       end)
    projects (conn, stats).

Definition process_lovable_projects (now : string) (projects : list dict) (st : connection * stats)
  : connection * stats :=
  let (conn, stats) := st in
  let conn := snd (insert_platform now "Lovable" "Lovable.dev community projects"
                                   "https://lovable.dev" "api" conn) in
  fold_left
    (fun st project =>
       match insert_app now (lovable_app_data project) st with
       | (Some _, (c, s)) => (c, incr_lovable_projects s)
       | (None, st') => st'
       end)
    projects (conn, stats).

(** Folding of the 26 upper case letters of ASCII, as the NOCASE collation
    does it. *)
Definition fold_case (c : ascii) : ascii :=
  let n := nat_of_ascii c in
  if ((65 <=? n) && (n <=? 90))%nat then ascii_of_nat (n + 32) else c.

(** Equality of two texts under COLLATE NOCASE. *)
Fixpoint nocase_eqb (a b : string) : bool :=
  match a, b with
  | EmptyString, EmptyString => true
  | String x a', String y b' => Ascii.eqb (fold_case x) (fold_case y) && nocase_eqb a' b'
  | _, _ => false
  end.

(** [SELECT COUNT( * ) FROM apps WHERE apps.source_platform = platforms.name
    COLLATE NOCASE], for one row of [platforms]. *)
Definition count_apps_of (name : string) (t : list app_row) : Z :=
  Z.of_nat (List.length
    (filter (fun r => match r_source_platform r with
                      | SText s => nocase_eqb s name
                      | _ => false
                      end) t)).

(** [update_platform_stats]: the UPDATE of every row of [platforms]. *)
Definition update_platform_stats (conn : connection) : connection :=
  let d := stored conn in
  {| stored :=
       {| apps := apps d; apps_seq := apps_seq d;
          platforms :=
            map (fun p => {| pl_id := pl_id p; pl_name := pl_name p;
                             pl_description := pl_description p;
                             pl_base_url := pl_base_url p;
                             pl_scraping_method := pl_scraping_method p;
                             pl_last_scraped := pl_last_scraped p;
                             pl_total_apps := count_apps_of (pl_name p) (apps d) |})
                (platforms d);
          platforms_seq := platforms_seq d |};
     last_insert_rowid := last_insert_rowid conn |}.

End DataIntegration.

(** ** tools/cleanup_platform_duplicates.py *)

Module CleanupPlatformDuplicates.

Import ProcessData.

Record duplicate : Type := {
  keep_id : Z;
  keep_name : string;
  merge_id : Z;
  merge_name : string
}.

Definition duplicates_to_merge : list duplicate :=
  [ {| keep_id := 12; keep_name := "GitHub"; merge_id := 6; merge_name := "github.com" |};
    {| keep_id := 16; keep_name := "Bolt"; merge_id := 3; merge_name := "bolt.new" |};
    {| keep_id := 15; keep_name := "Lovable"; merge_id := 2; merge_name := "lovable.dev" |} ].

(** The cursor in the course of a run: how many statements it has
    executed, and the database as the open transaction sees it. *)
Record cursor : Type := {
  executed : nat;
  work : database
}.

(** How [cleanup_platform_duplicates] ends: normally, through its [except]
    branch (ROLLBACK, then [raise]), or with an exception raised by
    [show_updated_stats] once the COMMIT is done. *)
Inductive outcome : Type :=
| Completed (total_moved : Z) (removed : nat)
| RolledBack
| RaisedAfterCommit.

(** [SELECT COUNT( * ) FROM applications WHERE platform_id = ?] *)
Definition count_applications (platform_id : Z) (db : database) : Z :=
  Z.of_nat (List.length (filter (fun a => a_platform_id a =? platform_id) (applications db))).

(** [UPDATE applications SET platform_id = ?, updated_at = CURRENT_TIMESTAMP
    WHERE platform_id = ?] *)
Definition move_applications (now : string) (keep merge : Z) (db : database) : database :=
  with_applications db
    (map (fun a =>
            if a_platform_id a =? merge then
              {| a_id := a_id a;
                 a_platform_id := keep;
                 a_external_id := a_external_id a;
                 a_name := a_name a;
                 a_url := a_url a;
                 a_description := a_description a;
                 a_created_at := a_created_at a;
                 a_updated_at := SText now |}
            else a)
         (applications db)).

(** [DELETE FROM platforms WHERE id = ?] *)
Definition delete_platform (merge : Z) (db : database) : database :=
  {| platforms := filter (fun p => negb (p_id p =? merge)) (platforms db);
     applications := applications db |}.

Section WithFaults.

(** [fails k]: the [k]-th [cursor.execute] of the run raises. *)
Variable fails : nat -> bool.

Definition execute (statement : database -> database) (c : cursor) : option cursor :=
  if fails (executed c) then None
  else Some {| executed := S (executed c); work := statement (work c) |}.

(** A statement that only reads (or BEGIN, COMMIT). *)
Definition query (c : cursor) : option cursor := execute (fun db => db) c.

(** The body of the [for duplicate in duplicates_to_merge] loop; [None]
    when a statement raises. *)
Definition merge_duplicate (now : string) (d : duplicate) (st : cursor * Z) : option (cursor * Z) :=
  let (c, total_moved) := st in
  match query c with
  | None => None
  | Some c =>
      let apps_to_move := count_applications (merge_id d) (work c) in
      let moved :=
        if 0 <? apps_to_move then
          match execute (move_applications now (keep_id d) (merge_id d)) c with
          | None => None
          | Some c => Some (c, total_moved + apps_to_move)
          end
        else Some (c, total_moved) in
      match moved with
      | None => None
      | Some (c, total_moved) =>
          match execute (delete_platform (merge_id d)) c with
          | None => None
          | Some c => Some (c, total_moved)
          end
      end
  end.

Fixpoint merge_all (now : string) (ds : list duplicate) (st : cursor * Z) : option (cursor * Z) :=
  match ds with
  | [] => Some st
  | d :: ds' =>
      match merge_duplicate now d st with
      | None => None
      | Some st' => merge_all now ds' st'
      end
  end.

(** [cleanup_platform_duplicates] over a list of pairs, from the database
    on disk to the outcome and the database on disk afterwards. Whatever
    the ROLLBACK of the [except] branch does, the connection is closed
    without a commit, so nothing of the open transaction is kept. *)
Definition cleanup_on (now : string) (ds : list duplicate) (db : database) : outcome * database :=
  match query {| executed := 0; work := db |} with       (* BEGIN TRANSACTION *)
  | None => (RolledBack, db)
  | Some c =>
      match merge_all now ds (c, 0) with
      | None => (RolledBack, db)
      | Some (c, total_moved) =>
          match query c with                             (* COMMIT *)
          | None => (RolledBack, db)
          | Some c =>
              match query c with                         (* show_updated_stats *)
              | None => (RaisedAfterCommit, work c)
              | Some _ => (Completed total_moved (List.length ds), work c)
              end
          end
      end
  end.

Definition cleanup_platform_duplicates (now : string) (db : database) : outcome * database :=
  cleanup_on now duplicates_to_merge db.

End WithFaults.

Definition no_fault : nat -> bool := fun _ => false.

End CleanupPlatformDuplicates.

(** ** The scrapers *)

Module Scrapers.

Local Open Scope nat_scope.
Local Open Scope list_scope.

(** What one [requests.get] yields: a response, of which the status code
    and the records of the decoded body are kept, or an exception of the
    requests library. *)
Inductive http : Type :=
| Response (status_code : Z) (items : list dict)
| RequestException.

(** The peer: its answer to the [k]-th request of a run. *)
Definition peer := nat -> http.

(** What a run does besides collecting records. *)
Inductive event : Type :=
| Get (position : nat)
| Sleep (seconds : nat).

(** [response.raise_for_status()] raises on 4xx and 5xx. *)
Definition raise_for_status (status_code : Z) : bool :=
  ((400 <=? status_code) && (status_code <? 600))%Z.

Definition is_empty (l : list dict) : bool :=
  match l with [] => true | _ :: _ => false end.

(** *** scrapers/bolt_supabase_scraper.py *)

Module BoltSupabaseScraper.

Definition fetch_gallery_projects (r : http) : list dict :=
  match r with
  | Response status_code projects => if raise_for_status status_code then [] else projects
  | RequestException => []
  end.

(** The [while True] loop of [fetch_all_projects], [k] requests into the
    run; [None] when [fuel] iterations do not reach a [break]. *)
Fixpoint fetch_all_projects_loop
  (fuel : nat) (server : peer) (k limit offset : nat)
  (all_projects : list dict) (log : list event) : option (list dict * list event) :=
  match fuel with
  | O => None
  | S fuel' =>
      let batch := fetch_gallery_projects (server k) in
      let log := log ++ [Get offset] in
      if is_empty batch then Some (all_projects, log)
      else
        let all_projects := all_projects ++ batch in
        if List.length batch <? limit then Some (all_projects, log)
        else fetch_all_projects_loop fuel' server (S k) limit (offset + limit)
                                     all_projects (log ++ [Sleep 1])
  end.

Definition fetch_all_projects (fuel : nat) (server : peer) : option (list dict * list event) :=
  fetch_all_projects_loop fuel server 0 1000 0 [] [].

(** [process_project]: every field is read with [project.get], which a
    raw record that is not an object does not have. *)
Definition process_project (project : json) : result dict :=
  match project with
  | JObj project =>
      Ok
      [("id", get1 project "id");
       ("title", get project "title" (JStr ""));
       ("description", get project "description" (JStr ""));
       ("start_date", get1 project "start_date");
       ("author", get project "author" (JStr ""));
       ("author_email", get project "author_email" (JStr ""));
       ("author_social", get project "author_social" (JStr ""));
       ("slug", get project "slug" (JStr ""));
       ("published", get project "published" (JBool false));
       ("status", get project "status" (JStr ""));
       ("project_url", get project "project_url" (JStr ""));
       ("project_preview", get project "project_preview" (JStr ""));
       ("thumbnail_image", get project "thumbnail_image" (JStr ""));
       ("category_slugs", get project "category_slugs" (JList []));
       ("categories", get project "categories" (JList []));
       ("source", JStr "bolt_gallery");
       ("platform", JStr "Bolt");
       ("ai_tool", JStr "Claude")]
  | _ => Raise AttributeError
  end.

(** [[scraper.process_project(project) for project in raw_projects]]: the
    comprehension raises what the first call that raises raises. *)
Fixpoint processed_projects (raw_projects : list json) : result (list dict) :=
  match raw_projects with
  | [] => Ok []
  | project :: raw_projects' =>
      match process_project project with
      | Raise e => Raise e
      | Ok processed =>
          match processed_projects raw_projects' with
          | Raise e => Raise e
          | Ok processed_projects' => Ok (processed :: processed_projects')
          end
      end
  end.

End BoltSupabaseScraper.

(** *** working-scrapers/lovable_scraper.py *)

Module LovableScraper.

(** What one request to the community endpoint yields: a response, of
    which the status code and, of the decoded body, ['projects'] ([[]]
    when absent), ['hasMore'] ([False] when absent) and ['nextCursor']
    ([None] when absent) are kept, or an exception of the requests
    library. *)
Inductive reply : Type :=
| Reply (status_code : Z) (projects : list dict) (hasMore nextCursor : json)
| NoReply.

(** What a run does besides collecting projects: a request with the cursor
    it holds ([None] at first), a pause. *)
Inductive step : Type :=
| Ask (cursor : json)
| Wait (seconds : nat).

(** [fetch_community_projects]: ['projects'], ['has_more'] and
    ['next_cursor'] of the dictionary it returns. *)
Definition fetch_community_projects (r : reply) : list dict * json * json :=
  match r with
  | Reply status_code projects has_more next_cursor =>
      if raise_for_status status_code then ([], JBool false, JNull)
      else (projects, has_more, next_cursor)
  | NoReply => ([], JBool false, JNull)
  end.

(** The [while True] loop of [fetch_all_projects], [k] requests into the
    run; [None] when [fuel] iterations do not reach a [break]. *)
Fixpoint fetch_all_projects_loop
  (fuel : nat) (server : nat -> reply) (k : nat) (cursor : json)
  (all_projects : list dict) (log : list step) : option (list dict * list step) :=
  match fuel with
  | O => None
  | S fuel' =>
      let '(projects, has_more, next_cursor) := fetch_community_projects (server k) in
      let log := log ++ [Ask cursor] in
      if is_empty projects then Some (all_projects, log)
      else
        let all_projects := all_projects ++ projects in
        if negb (truthy has_more) then Some (all_projects, log)
        else if negb (truthy next_cursor) then Some (all_projects, log)
        else fetch_all_projects_loop fuel' server (S k) next_cursor
                                     all_projects (log ++ [Wait 2])
  end.

Definition fetch_all_projects (fuel : nat) (server : nat -> reply)
  : option (list dict * list step) :=
  fetch_all_projects_loop fuel server 0 JNull [] [].

(** [process_project], which likewise reads every field with
    [project.get]. *)
Definition process_project (project : json) : result dict :=
  match project with
  | JObj project =>
      Ok
      [("id", get1 project "id");
       ("workspace_id", get1 project "workspace_id");
       ("title", get project "name" (get project "title" (JStr "")));
       ("description", get project "description" (JStr ""));
       ("created_at", get1 project "created_at");
       ("updated_at", get1 project "updated_at");
       ("created_by", get project "created_by" (JStr ""));
       ("user_id", get1 project "user_id");
       ("user_display_name", get project "user_display_name" (JStr ""));
       ("user_photo_url", get project "user_photo_url" (JStr ""));
       ("url", get project "url" (JStr ""));
       ("latest_screenshot_url", get project "latest_screenshot_url" (JStr ""));
       ("status", get project "status" (JStr ""));
       ("is_published", get project "is_published" (JBool false));
       ("visibility", get project "visibility" (JStr ""));
       ("featured", get project "featured" (JBool false));
       ("featured_at", get1 project "featured_at");
       ("feature_source", get project "feature_source" (JStr ""));
       ("feature_rank", get1 project "feature_rank");
       ("edit_count", get project "edit_count" (JNum 0));
       ("user_message_count", get project "user_message_count" (JNum 0));
       ("remix_count", get project "remix_count" (JNum 0));
       ("source", JStr "lovable_community");
       ("platform", JStr "Lovable");
       ("ai_tool", JStr "GPT-4")]
  | _ => Raise AttributeError
  end.

Fixpoint processed_projects (raw_projects : list json) : result (list dict) :=
  match raw_projects with
  | [] => Ok []
  | project :: raw_projects' =>
      match process_project project with
      | Raise e => Raise e
      | Ok processed =>
          match processed_projects raw_projects' with
          | Raise e => Raise e
          | Ok processed_projects' => Ok (processed :: processed_projects')
          end
      end
  end.

End LovableScraper.

(** *** working-scrapers/jules_pr_scraper.py *)

Module JulesPRScraper.

(** [fetch_jules_prs_api]: the ['items'] of the dictionary it returns and
    what [response.get('has_more', False)] reads from it. *)
Definition fetch_jules_prs_api (per_page : nat) (r : http) : list dict * bool :=
  match r with
  | Response status_code items =>
      if (status_code =? 403)%Z then ([], false)
      else if raise_for_status status_code then ([], false)
      else (items, List.length items =? per_page)
  | RequestException => ([], false)
  end.

Fixpoint fetch_all_prs_api_loop
  (fuel : nat) (server : peer) (k per_page page : nat)
  (all_prs : list dict) (log : list event) : option (list dict * list event) :=
  match fuel with
  | O => None
  | S fuel' =>
      let (items, has_more) := fetch_jules_prs_api per_page (server k) in
      let log := log ++ [Get page] in
      if is_empty items then Some (all_prs, log)
      else
        let all_prs := all_prs ++ items in
        if negb has_more then Some (all_prs, log)
        else
          let log := log ++ [Sleep 1] in
          if 1000 <=? List.length all_prs then Some (all_prs, log)
          else fetch_all_prs_api_loop fuel' server (S k) per_page (page + 1) all_prs log
  end.

Definition fetch_all_prs_api (fuel : nat) (server : peer) : option (list dict * list event) :=
  fetch_all_prs_api_loop fuel server 0 100 1 [] [].

End JulesPRScraper.

(** *** todo-scrapers/github_enhanced_search.py *)

Module GitHubCodeSearchProcessor.

(** [if max_results and len(all_files) >= max_results] *)
Definition reached (max_results : option nat) (n : nat) : option nat :=
  match max_results with
  | Some m => if negb (m =? 0) && (m <=? n) then Some m else None
  | None => None
  end.

Fixpoint search_code_files_loop
  (fuel : nat) (server : peer) (k per_page : nat) (max_results : option nat) (page : nat)
  (all_files : list dict) (log : list event) : option (list dict * list event) :=
  match fuel with
  | O => None
  | S fuel' =>
      let log := log ++ [Get page] in
      match server k with
      | RequestException => Some (all_files, log)
      | Response status_code items =>
          if (status_code =? 403)%Z then
            search_code_files_loop fuel' server (S k) per_page max_results page
                                   all_files (log ++ [Sleep 60])
          else if negb (status_code =? 200)%Z then Some (all_files, log)
          else if is_empty items then Some (all_files, log)
          else
            let all_files := all_files ++ items in
            match reached max_results (List.length all_files) with
            | Some m => Some (firstn m all_files, log)
            | None =>
                if List.length items <? per_page then Some (all_files, log)
                else
                  let log := log ++ [Sleep 2] in
                  if 1000 <=? List.length all_files then Some (all_files, log)
                  else search_code_files_loop fuel' server (S k) per_page max_results
                                              (page + 1) all_files log
            end
      end
  end.

Definition search_code_files
  (fuel : nat) (server : peer) (per_page : nat) (max_results : option nat)
  : option (list dict * list event) :=
  search_code_files_loop fuel server 0 per_page max_results 1 [] [].

End GitHubCodeSearchProcessor.

(** *** working-scrapers/scrape_figma_make.py *)

Module FigmaMakeScraper.

(** Python's [x or y]: [x] when it is truthy, [y] otherwise. *)
Definition or_ (x y : json) : json := if truthy x then x else y.




Fixpoint author_of (author_fields : list string) (item : dict) : json :=
  match author_fields with
  | [] => JStr "Unknown"
  | field :: author_fields' =>
      match lookup field item with
      | Some (JObj author_data) =>
          or_ (get1 author_data "name")
            (or_ (get1 author_data "username")
               (or_ (get1 author_data "display_name") (get1 author_data "handle")))
      | Some (JStr author_data) => JStr author_data
      | _ => author_of author_fields' item
      end
  end.

Definition _extract_author (item : dict) : json :=
  author_of ["author"; "creator"; "user"; "owner"; "made_by"; "created_by"] item.

Section WithStr.

(** Python's [str], which formats a value inside an f-string. *)
Variable str : json -> string.

Definition _build_figma_url (item : dict) : json :=
  match lookup "url" item with
  | Some url => url
  | None =>
      match lookup "figma_url" item with
      | Some figma_url => figma_url
      | None =>
          let project_id := or_ (get1 item "id") (get1 item "make_id") in
          if truthy project_id
          then JStr ("https://www.figma.com/make/" ++ str project_id)
          else JStr "https://www.figma.com/make/"
      end
  end.

(** The dictionary [project] that the loop builds of an [item]. *)
Definition project (source_type : string) (item : dict) : dict :=
  [("id", or_ (get1 item "id") (or_ (get1 item "make_id") (get1 item "project_id")));
   ("title", or_ (get1 item "title") (or_ (get1 item "name") (get1 item "make_name")));
   ("description", or_ (get1 item "description") (get item "summary" (JStr "")));
   ("url", _build_figma_url item);
   ("author", _extract_author item);
   ("created_at", or_ (get1 item "created_at")
                      (or_ (get1 item "createdAt") (get1 item "date_created")));
   ("updated_at", or_ (get1 item "updated_at")
                      (or_ (get1 item "updatedAt") (get1 item "date_modified")));
   ("tags", get item "tags" (JList []));
   ("category", or_ (get1 item "category") (get1 item "type"));
   ("thumbnail", or_ (get1 item "thumbnail") (get1 item "preview_url"));
   ("views", get item "views" (JNum 0));
   ("likes", get item "likes" (JNum 0));
   ("comments", get item "comments" (JNum 0));
   ("platform", JStr "figma_make");
   ("discovery_method", JStr ("api_" ++ source_type));
   ("is_featured",
    if String.eqb source_type "gallery" || String.eqb source_type "featured"
    then JBool true
    else get item "is_featured" (JBool false))].


End WithStr.

End FigmaMakeScraper.

End Scrapers.
(** ** update_data.py *)

Module UpdateData.

Import Scrapers.
Local Open Scope nat_scope.
Local Open Scope list_scope.

(** The [while page <= max_pages] loop of [GitHubScraper.search_repositories],
    [k] requests into the run, with [remaining = max_pages + 1 - page]
    iterations left. [_rate_limit], which only sleeps and counts requests
    on the scraper object, is left out. *)
Fixpoint search_repositories_loop
  (remaining : nat) (server : peer) (k page : nat)
  (all_items : list dict) (log : list event) : list dict * list event :=
  match remaining with
  | O => (all_items, log)
  | S remaining' =>
      let log := log ++ [Get page] in
      match server k with
      | RequestException => (all_items, log)
      | Response status_code items =>
          if raise_for_status status_code then (all_items, log)
          else if is_empty items then (all_items, log)
          else
            let all_items := all_items ++ items in
            if List.length items <? 100 then (all_items, log)
            else search_repositories_loop remaining' server (S k) (page + 1) all_items log
      end
  end.

Definition search_repositories (server : peer) (max_pages : nat) : list dict * list event :=
  search_repositories_loop max_pages server 0 1 [] [].

End UpdateData.


(** ** Vocabulary of the statements *)

Open Scope list_scope.

Module Vocabulary.

Import ProcessData.

(** The application upsert, once per processor class. *)
Definition upserts : list (string -> app_data -> database -> result Z * database) :=
  [GitHubDataProcessor._insert_or_update_application;
   V0DataProcessor._insert_or_update_application].

(** Number of rows of [applications] that hold the identity key. *)
Definition count_key (platform_id : Z) (external_id : string) (db : database) : nat :=
  List.length (filter (key_matches platform_id external_id) (applications db)).

(** No identity key is held by two rows. *)
Definition key_unique (db : database) : Prop :=
  forall platform_id external_id, (count_key platform_id external_id db <= 1)%nat.

(** [id] is the primary key of [applications]. *)
Definition ids_unique (db : database) : Prop :=
  NoDup (map a_id (applications db)).

(** Number of applications a platform owns. *)
Definition owned (platform_id : Z) (db : database) : nat :=
  List.length (filter (fun a => a_platform_id a =? platform_id) (applications db)).

Definition platform_exists (platform_id : Z) (db : database) : Prop :=
  In platform_id (map p_id (platforms db)).

(** Every application references a row of [platforms]. *)
Definition no_orphan (db : database) : Prop :=
  forall a, In a (applications db) -> platform_exists (a_platform_id a) db.

(** What the three statements of one loop iteration of the merge script
    do to the database when none of them raises. *)
Definition merge_effect (now : string) (d : CleanupPlatformDuplicates.duplicate)
  (db : database) : database :=
  CleanupPlatformDuplicates.delete_platform (CleanupPlatformDuplicates.merge_id d)
    (if 0 <? CleanupPlatformDuplicates.count_applications (CleanupPlatformDuplicates.merge_id d) db
     then CleanupPlatformDuplicates.move_applications now
            (CleanupPlatformDuplicates.keep_id d) (CleanupPlatformDuplicates.merge_id d) db
     else db).

(** Number of rows of [platforms] (data_integration) with a given name. *)
Definition count_name (name : string) (d : DataIntegration.database) : nat :=
  List.length (filter (fun r => String.eqb (DataIntegration.pl_name r) name)
                      (DataIntegration.platforms d)).

(** The loop body the two processors share, over any way [extract] of
    reading an application off an element of the input. *)
Definition ingest_step {X : Type} (extract : X -> result (option app_data))
  (now : string) (db : database) (x : X) : database :=
  match extract x with
  | Ok (Some app_data) => snd (GitHubDataProcessor._insert_or_update_application now app_data db)
  | Ok None => db
  | Raise _ => db
  end.

(** Some row holds the identity key of the record. *)
Definition present (app_data : app_data) (db : database) : bool :=
  existsb (key_matches (ad_platform_id app_data) (ad_external_id app_data)) (applications db).

(** The value [insert_app] stores as the URL of a record. *)
Definition url_value (app_data : dict) : json := get app_data "url" (JStr "").

(** The value is stored as NULL: it is [None] or the float NaN. *)
Definition stored_as_null (v : json) : bool :=
  match bind v with
  | Some SNull => true
  | _ => false
  end.

(** Some row of [apps] holds the URL of the record. *)
Definition url_present (app_data : dict) (t : list DataIntegration.app_row) : bool :=
  match bind (url_value app_data) with
  | Some u => existsb (fun r => sql_eq (DataIntegration.r_url r) (text_affinity u)) t
  | None => false
  end.

(** Every parameter of the INSERT of [insert_app] can be bound. *)
Definition bindable (app_data : dict) : bool :=
  match DataIntegration.row_of_app_data "" app_data 0 with
  | Some _ => true
  | None => false
  end.

(** The table [apps] once [insert_app] has run. *)
Definition apps_after (now : string) (app_data : dict)
  (st : DataIntegration.connection * DataIntegration.stats) : list DataIntegration.app_row :=
  DataIntegration.apps (DataIntegration.stored (fst (snd (DataIntegration.insert_app now app_data st)))).

(** The loop body the [process_*] methods share. *)
Definition insert_step (to_app_data : dict -> dict)
  (count : DataIntegration.stats -> DataIntegration.stats) (now : string)
  (st : DataIntegration.connection * DataIntegration.stats) (project : dict)
  : DataIntegration.connection * DataIntegration.stats :=
  match DataIntegration.insert_app now (to_app_data project) st with
  | (Some _, (c, s)) => (c, count s)
  | (None, st') => st'
  end.

Definition apps_of (st : DataIntegration.connection * DataIntegration.stats)
  : list DataIntegration.app_row :=
  DataIntegration.apps (DataIntegration.stored (fst st)).

(** The raw record is a JSON object. *)
Definition is_object (v : json) : bool :=
  match v with
  | JObj _ => true
  | _ => false
  end.


(** The values a missing field degrades to. *)
Definition is_default (v : json) : Prop :=
  In v [JStr ""; JNum 0; JNull; JBool false; JList []].

(** The keys of a processed Bolt project. *)
Definition bolt_keys : list string :=
  ["id"; "title"; "description"; "start_date"; "author"; "author_email"; "author_social";
   "slug"; "published"; "status"; "project_url"; "project_preview"; "thumbnail_image";
   "category_slugs"; "categories"; "source"; "platform"; "ai_tool"].

(** The keys of a processed Lovable project. *)
Definition lovable_keys : list string :=
  ["id"; "workspace_id"; "title"; "description"; "created_at"; "updated_at"; "created_by";
   "user_id"; "user_display_name"; "user_photo_url"; "url"; "latest_screenshot_url";
   "status"; "is_published"; "visibility"; "featured"; "featured_at"; "feature_source";
   "feature_rank"; "edit_count"; "user_message_count"; "remix_count"; "source"; "platform";
   "ai_tool"].

(** The keys whose value does not come from the raw record. *)
Definition constant_keys : list string := ["source"; "platform"; "ai_tool"].

(** The response is HTTP 403. *)
Definition rate_limited (r : Scrapers.http) : bool :=
  match r with
  | Scrapers.Response status_code _ => status_code =? 403
  | Scrapers.RequestException => false
  end.

(** The events of [n] rounds of "request the page, get 403, sleep 60". *)
Fixpoint retries (page n : nat) : list Scrapers.event :=
  match n with
  | O => []
  | S n' => Scrapers.Get page :: Scrapers.Sleep 60 :: retries page n'
  end.

(** The records of the [n] batches that follow request [k]. *)
Fixpoint batches (server : Scrapers.peer) (k n : nat) : list dict :=
  match n with
  | O => []
  | S n' => Scrapers.BoltSupabaseScraper.fetch_gallery_projects (server k)
            ++ batches server (S k) n'
  end.

(** No character of the text is [/] or [?]. *)
Fixpoint no_separator (s : string) : bool :=
  match s with
  | EmptyString => true
  | String c s' => negb (Ascii.eqb c "/" || Ascii.eqb c "?") && no_separator s'
  end.

(** The text is empty or starts with [/] or [?]. *)
Definition at_separator (s : string) : Prop :=
  match s with
  | EmptyString => True
  | String c _ => c = "/"%char \/ c = "?"%char
  end.

(** The pattern occurs in the text. *)
Fixpoint occurs (pattern s : string) : bool :=
  match V0DataProcessor.strip_prefix pattern s with
  | Some _ => true
  | None =>
      match s with
      | EmptyString => false
      | String _ s' => occurs pattern s'
      end
  end.

(** What [re.search] finds at the first position of the text. *)
Definition here (url : string) : option string :=
  match V0DataProcessor.strip_prefix "/community/" url with
  | Some rest =>
      match V0DataProcessor.take_id rest with
      | EmptyString => None
      | id => Some id
      end
  | None => None
  end.

(** What an upsert and the merge script keep of a row of [applications]. *)
Definition same_identity (r r' : application) : Prop :=
  a_id r' = a_id r /\ a_platform_id r' = a_platform_id r /\
  a_external_id r' = a_external_id r /\ a_created_at r' = a_created_at r.

(** No name is held by two rows of [ai_tools]. *)
Definition tool_names_unique (t : list ai_tool) : Prop := NoDup (map t_name t).

(** The records [insert_app] has accounted for. *)
Definition accounted (s : DataIntegration.stats) : Z :=
  DataIntegration.total_processed s + DataIntegration.duplicates_skipped s
  + DataIntegration.errors s.

(** No URL (other than NULL) is held by two rows of [apps]. *)
Definition urls_unique (t : list DataIntegration.app_row) : Prop :=
  forall i j r1 r2,
    nth_error t i = Some r1 -> nth_error t j = Some r2 ->
    sql_eq (DataIntegration.r_url r1) (DataIntegration.r_url r2) = true -> i = j.

(** The platforms the pairs of a merge list remove. *)
Definition merge_ids (ds : list CleanupPlatformDuplicates.duplicate) : list Z :=
  map CleanupPlatformDuplicates.merge_id ds.

Definition among (ids : list Z) (i : Z) : bool := existsb (Z.eqb i) ids.

(** Number of applications on a platform that a merge list removes. *)
Definition on_merged (ds : list CleanupPlatformDuplicates.duplicate) (db : database) : nat :=
  List.length (filter (fun a => among (merge_ids ds) (a_platform_id a)) (applications db)).

(** The platform the merge list sends the applications of [platform_id]
    to: the keep id of the first pair that merges it. *)
Definition target (ds : list CleanupPlatformDuplicates.duplicate) (platform_id : Z) : option Z :=
  option_map CleanupPlatformDuplicates.keep_id
    (find (fun d => platform_id =? CleanupPlatformDuplicates.merge_id d) ds).

Definition relocated (now : string) (ds : list CleanupPlatformDuplicates.duplicate)
  (a : application) : application :=
  match target ds (a_platform_id a) with
  | Some keep =>
      {| a_id := a_id a; a_platform_id := keep; a_external_id := a_external_id a;
         a_name := a_name a; a_url := a_url a; a_description := a_description a;
         a_created_at := a_created_at a; a_updated_at := SText now |}
  | None => a
  end.

(** The database with every merged platform removed and its applications
    on the platform kept for it. *)
Definition cleaned (now : string) (ds : list CleanupPlatformDuplicates.duplicate)
  (db : database) : database :=
  {| platforms := filter (fun p => negb (among (merge_ids ds) (p_id p))) (platforms db);
     applications := map (relocated now ds) (applications db) |}.

(** No platform that is kept is also merged away. *)
Definition keeps_survive (ds : list CleanupPlatformDuplicates.duplicate) : Prop :=
  forall d, In d ds -> among (merge_ids ds) (CleanupPlatformDuplicates.keep_id d) = false.

(** What the merge script never writes of an application. *)
Definition fixed_columns (a : application)
  : Z * option string * sqlval * sqlval * sqlval * sqlval :=
  (a_id a, a_external_id a, a_name a, a_url a, a_description a, a_created_at a).

(** The events of a Bolt run of [n + 1] requests from [offset] on. *)
Fixpoint bolt_log (limit offset n : nat) : list Scrapers.event :=
  match n with
  | O => [Scrapers.Get offset]
  | S n' => Scrapers.Get offset :: Scrapers.Sleep 1 :: bolt_log limit (offset + limit)%nat n'
  end.

(** Number of requests among the events of a run. *)
Definition requests (log : list Scrapers.event) : nat :=
  List.length (filter (fun e => match e with Scrapers.Get _ => true | _ => false end) log).

(** The page numbers [page], [page + 1], ... of [n] requests. *)
Fixpoint page_log (page n : nat) : list Scrapers.event :=
  match n with
  | O => []
  | S n' => Scrapers.Get page :: page_log (page + 1)%nat n'
  end.

(** The records a request adds to what [search_repositories] collects:
    those of the body, none when the request failed. *)
Definition delivered (r : Scrapers.http) : list dict :=
  match r with
  | Scrapers.Response status_code items =>
      if Scrapers.raise_for_status status_code then [] else items
  | Scrapers.RequestException => []
  end.

(** The records of the [n] requests from request [k] on. *)
Fixpoint pages (server : Scrapers.peer) (k n : nat) : list dict :=
  match n with
  | O => []
  | S n' => delivered (server k) ++ pages server (S k) n'
  end.

(** The projects and the next cursor [fetch_community_projects] reads off
    a reply. *)
Definition projects_of (r : Scrapers.LovableScraper.reply) : list dict :=
  fst (fst (Scrapers.LovableScraper.fetch_community_projects r)).

Definition cursor_of (r : Scrapers.LovableScraper.reply) : json :=
  snd (Scrapers.LovableScraper.fetch_community_projects r).

(** The reply has projects, says there are more and names a cursor. *)
Definition goes_on (r : Scrapers.LovableScraper.reply) : bool :=
  negb (Scrapers.is_empty (projects_of r))
  && truthy (snd (fst (Scrapers.LovableScraper.fetch_community_projects r)))
  && truthy (cursor_of r).

Fixpoint lovable_pages (server : nat -> Scrapers.LovableScraper.reply) (k n : nat) : list dict :=
  match n with
  | O => []
  | S n' => projects_of (server k) ++ lovable_pages server (S k) n'
  end.

(** The steps of a Lovable run of [n + 1] requests from request [k] on,
    the first with [cursor], each other with the cursor of the reply
    before it. *)
Fixpoint lovable_log (server : nat -> Scrapers.LovableScraper.reply) (k : nat) (cursor : json)
  (n : nat) : list Scrapers.LovableScraper.step :=
  match n with
  | O => [Scrapers.LovableScraper.Ask cursor]
  | S n' => Scrapers.LovableScraper.Ask cursor :: Scrapers.LovableScraper.Wait 2
            :: lovable_log server (S k) (cursor_of (server k)) n'
  end.

End Vocabulary.

(** ** Concrete stores and inputs *)

Module Examples.

Import ProcessData.

(** Two stored repositories, external ids 41 and 42. *)
Definition first_row : application :=
  {| a_id := 1; a_platform_id := 7; a_external_id := Some "41";
     a_name := SText "a/b"; a_url := SText "https://github.com/a/b";
     a_description := SNull; a_created_at := SText "t0"; a_updated_at := SText "t0" |}.

Definition frame_row : application :=
  {| a_id := 2; a_platform_id := 7; a_external_id := Some "42";
     a_name := SText "c/d"; a_url := SText "https://github.com/c/d";
     a_description := SNull; a_created_at := SText "t0"; a_updated_at := SText "t0" |}.

Definition frame_db : database :=
  {| platforms := [{| p_id := 7; p_name := "github.com"; p_url := SNull; p_description := SNull |}];
     applications := [first_row; frame_row] |}.

Definition frame_record : app_data :=
  {| ad_platform_id := 7; ad_external_id := "42"; ad_name := JStr "c/renamed";
     ad_url := JStr "https://github.com/c/renamed"; ad_description := JStr "moved" |}.

(** A Bolt file with one project whose url is [null]. *)
Definition null_url_projects : list dict :=
  [[("title", JStr "Untitled"); ("url", JNull)]].

(** The float NaN; it never meets a column as a text. *)
Definition nan : float := {| value := S754_nan; sql_text := "" |}.

(** A Bolt file with one project whose url is [NaN]. *)
Definition nan_url_projects : list dict :=
  [[("title", JStr "Untitled"); ("url", JFloat nan)]].

(** A Lovable file: two projects, the second a duplicate of the first. *)
Definition lovable_projects_file : list dict :=
  [[("name", JStr "todo"); ("url", JStr "https://todo.lovable.app")];
   [("title", JStr "todo again"); ("url", JStr "https://todo.lovable.app")]].

(** Two search hits on one repository that [frame_db] does not hold. *)
Definition first_hit : app_data :=
  {| ad_platform_id := 7; ad_external_id := "43"; ad_name := JStr "g/h";
     ad_url := JStr "https://github.com/g/h"; ad_description := JNull |}.

Definition second_hit : app_data :=
  {| ad_platform_id := 7; ad_external_id := "43"; ad_name := JStr "g/h";
     ad_url := JStr "https://github.com/g/h"; ad_description := JStr "now described" |}.

(** A store with the six platforms the merge script names, and one
    application on each of four of them. *)
Definition merge_db : database :=
  {| platforms :=
       [{| p_id := 2; p_name := "lovable.dev"; p_url := SNull; p_description := SNull |};
        {| p_id := 3; p_name := "bolt.new"; p_url := SNull; p_description := SNull |};
        {| p_id := 6; p_name := "github.com"; p_url := SNull; p_description := SNull |};
        {| p_id := 12; p_name := "GitHub"; p_url := SNull; p_description := SNull |};
        {| p_id := 15; p_name := "Lovable"; p_url := SNull; p_description := SNull |};
        {| p_id := 16; p_name := "Bolt"; p_url := SNull; p_description := SNull |}];
     applications :=
       [{| a_id := 1; a_platform_id := 6; a_external_id := Some "41";
           a_name := SText "a/b"; a_url := SNull; a_description := SNull;
           a_created_at := SText "t0"; a_updated_at := SText "t0" |};
        {| a_id := 2; a_platform_id := 3; a_external_id := None;
           a_name := SText "shop"; a_url := SNull; a_description := SNull;
           a_created_at := SText "t0"; a_updated_at := SText "t0" |};
        {| a_id := 3; a_platform_id := 2; a_external_id := None;
           a_name := SText "todo"; a_url := SNull; a_description := SNull;
           a_created_at := SText "t0"; a_updated_at := SText "t0" |};
        {| a_id := 4; a_platform_id := 12; a_external_id := Some "77";
           a_name := SText "e/f"; a_url := SNull; a_description := SNull;
           a_created_at := SText "t0"; a_updated_at := SText "t0" |}] |}.

(** The UPDATE of the second pair raises: statement 0 is BEGIN, 1 to 3
    belong to the first pair, 4 is the COUNT of the second. *)
Definition fault_in_second_pair : nat -> bool := fun k => Nat.eqb k 5.

Definition github_pair : CleanupPlatformDuplicates.duplicate :=
  {| CleanupPlatformDuplicates.keep_id := 12;
     CleanupPlatformDuplicates.keep_name := "GitHub";
     CleanupPlatformDuplicates.merge_id := 6;
     CleanupPlatformDuplicates.merge_name := "github.com" |}.

(** A raw record with none of title, name, url and link. *)
Definition untitled_record : dict := [("description", JStr "no title, no address")].

Definition one_file : dict := [("name", JStr "AGENTS.md")].

(** HTTP 403 twice, then a page of one file. *)
Definition twice_limited : Scrapers.peer :=
  fun k => if (k <? 2)%nat then Scrapers.Response 403 [] else Scrapers.Response 200 [one_file].

Definition always_limited : Scrapers.peer := fun _ => Scrapers.Response 403 [].

Definition full_page : list dict := repeat one_file 1000.

(** A gallery that answers every request with a full page. *)
Definition endless_full_pages : Scrapers.peer := fun _ => Scrapers.Response 200 full_page.

(** A gallery of 1001 projects: a full page, then a page of one. *)
Definition two_pages : Scrapers.peer :=
  fun k => match k with
           | O => Scrapers.Response 200 full_page
           | _ => Scrapers.Response 200 [one_file]
           end.

(** A community of two projects, served one per reply. *)
Definition two_replies : nat -> Scrapers.LovableScraper.reply :=
  fun k => match k with
           | O => Scrapers.LovableScraper.Reply 200 [[("name", JStr "todo")]]
                    (JBool true) (JStr "c1")
           | _ => Scrapers.LovableScraper.Reply 200 [[("name", JStr "shop")]]
                    (JBool false) JNull
           end.

(** A search that has one result. *)
Definition one_result : Scrapers.peer := fun _ => Scrapers.Response 200 [one_file].

(** A store that knows the platform v0.dev and holds no application. *)
Definition v0_db : database :=
  {| platforms := [{| p_id := 1; p_name := "v0.dev"; p_url := SNull; p_description := SNull |}];
     applications := [] |}.

(** A v0 file: one community page twice, a page without an id, a number. *)
Definition v0_urls : list json :=
  [JStr "https://v0.app/community/weather-app-x1";
   JStr "https://v0.app/community/weather-app-x1?ref=home";
   JStr "https://v0.app/templates";
   JNum 7].

(** A table [ai_tools] with one tool. *)
Definition one_tool : list ai_tool :=
  [{| t_id := 1; t_name := "v0"; t_category := Some "code_generator";
      t_provider := Some "Vercel" |}].

(** A Bolt file of three projects without a url. *)
Definition url_less_projects : list dict :=
  [[("title", JStr "shop")]; [("title", JStr "blog")]; [("title", JStr "notes")]].

(** Python's [str] on the values of the examples, which are [None],
    booleans, integers and texts; no other value occurs in them. *)
Definition str_of_scalar (v : json) : string :=
  match v with
  | JNull => "None"
  | JBool true => "True"
  | JBool false => "False"
  | JNum n => text_of_Z n
  | JStr s => s
  | JFloat _ => "..."
  | JList _ => "[...]"
  | JObj _ => "{...}"
  end.

(** A search result that names repository 42 of [frame_db] anew. *)
Definition renamed_search_results : dict :=
  [("total_count", JNum 1);
   ("items", JList [JObj [("name", JStr "AGENTS.md");
                          ("repository", JObj [("id", JNum 42);
                                               ("full_name", JStr "c/renamed");
                                               ("html_url", JStr "https://github.com/c/renamed");
                                               ("description", JStr "moved")])]])].



(** A Bolt project whose star count does not fit 64 bits, and one whose
    title holds a lone surrogate (U+D800, as the bytes ED A0 80). *)
Definition overflowing_project : dict :=
  [("title", JStr "big"); ("star_count", JNum 9223372036854775808)].

Definition surrogate_project : dict :=
  [("title", JStr (String (ascii_of_nat 237) (String (ascii_of_nat 160)
                     (String (ascii_of_nat 128) EmptyString))));
   ("url", JStr "https://bolt.new/~/x")].


(** A connection that has written the platform Bolt, under id 1, and one
    project without a url. *)
Definition url_less_connection : DataIntegration.connection :=
  fst (DataIntegration.process_bolt_projects "t0" [[("title", JStr "shop")]]
         (DataIntegration.connect DataIntegration.empty_database, DataIntegration.initial_stats)).

End Examples.

(** * Properties *)

Import ProcessData Vocabulary Examples.

(** ** The application upsert of process_data.py *)

Section Upsert.

Import GitHubDataProcessor.

Lemma V0_upsert_same :
  V0DataProcessor._insert_or_update_application = _insert_or_update_application.
Proof. reflexivity. Qed.

Lemma upserts_inv (P : (string -> app_data -> database -> result Z * database) -> Prop) :
  P _insert_or_update_application ->
  forall upsert, In upsert upserts -> P upsert.
Proof.
  intros HP upsert [<- | [<- | []]]; [exact HP | rewrite V0_upsert_same; exact HP].
Qed.

Lemma key_matches_set_fields now n u d p e r :
  key_matches p e (set_fields now n u d r) = key_matches p e r.
Proof. reflexivity. Qed.

Lemma key_matches_inv p e r :
  key_matches p e r = true -> a_platform_id r = p /\ a_external_id r = Some e.
Proof.
  unfold key_matches. intros H. apply andb_prop in H as [Hp He].
  apply Z.eqb_eq in Hp. destruct (a_external_id r) as [e'|]; [|discriminate].
  apply String.eqb_eq in He. subst. auto.
Qed.

Lemma filter_map_invariant {A} (g : A -> bool) (f : A -> A) (t : list A) :
  (forall r, g (f r) = g r) ->
  List.length (filter g (map f t)) = List.length (filter g t).
Proof.
  intros Hg. induction t as [|r t IH]; simpl; [reflexivity|].
  rewrite Hg. destruct (g r); simpl; congruence.
Qed.

Lemma find_none_filter {A} (g : A -> bool) (t : list A) :
  find g t = None -> filter g t = [].
Proof.
  induction t as [|r t IH]; simpl; [reflexivity|].
  destruct (g r); [discriminate | exact IH].
Qed.

Lemma find_some_filter {A} (g : A -> bool) (t : list A) r :
  find g t = Some r -> (1 <= List.length (filter g t))%nat.
Proof.
  induction t as [|x t IH]; simpl; [discriminate|].
  destruct (g x); simpl; [lia | exact IH].
Qed.

Lemma filter_nonempty_find {A} (g : A -> bool) (t : list A) :
  (1 <= List.length (filter g t))%nat -> exists r, find g t = Some r.
Proof.
  induction t as [|x t IH]; simpl; [lia|].
  destruct (g x); simpl; [eauto | exact IH].
Qed.

(** The update branch keeps every key count, the insert branch adds one
    row, whose key is the record's. *)
Lemma upsert_cases now d db :
  let (res, db') := _insert_or_update_application now d db in
  platforms db' = platforms db /\
  ((exists e, res = Raise e /\ db' = db) \/
   (exists row n u dsc,
       find (key_matches (ad_platform_id d) (ad_external_id d)) (applications db) = Some row /\
       bind_fields d = Some (n, u, dsc) /\ res = Ok (a_id row) /\
       applications db' =
         map (fun r => if a_id r =? a_id row then set_fields now n u dsc r else r)
             (applications db)) \/
   (exists n u dsc,
       find (key_matches (ad_platform_id d) (ad_external_id d)) (applications db) = None /\
       bind_fields d = Some (n, u, dsc) /\ res = Ok (next_rowid (applications db)) /\
       applications db' =
         applications db ++ [new_row now d (next_rowid (applications db)) n u dsc])).
Proof.
  unfold _insert_or_update_application.
  destruct (bind (JStr (ad_external_id d))) as [e|]; [|split; [reflexivity | left; eauto]].
  destruct (find _ (applications db)) as [row|] eqn:Hf;
    destruct (bind_fields d) as [[[n u] dsc]|] eqn:Hb; simpl; split; try reflexivity.
  - right; left. exists row, n, u, dsc. auto.
  - left. eauto.
  - right; right. exists n, u, dsc. auto.
  - left. eauto.
Qed.

Lemma bind_fields_external_id d n u dsc :
  bind_fields d = Some (n, u, dsc) -> exists e, bind (JStr (ad_external_id d)) = Some e.
Proof.
  unfold bind_fields. destruct (bind (JStr (ad_external_id d))) as [e|]; [eauto | discriminate].
Qed.

(** The upsert goes through exactly when the values can be bound;
    otherwise it raises and changes nothing. *)
Lemma upsert_ok now d db :
  bind_fields d <> None -> exists i, fst (_insert_or_update_application now d db) = Ok i.
Proof.
  intros Hb. destruct (bind_fields d) as [[[n u] dsc]|] eqn:E; [|congruence].
  destruct (bind_fields_external_id _ _ _ _ E) as (e & He).
  unfold _insert_or_update_application. rewrite He, E.
  destruct (find _ (applications db)); simpl; eauto.
Qed.

Lemma upsert_raises now d db :
  bind_fields d = None ->
  _insert_or_update_application now d db = (Raise (fields_error d), db).
Proof.
  intros E. unfold _insert_or_update_application. rewrite E.
  destruct (bind (JStr (ad_external_id d))) as [e|] eqn:He.
  - destruct (find _ (applications db)); reflexivity.
  - unfold fields_error, first_error, parameters. cbn [find]. rewrite He. reflexivity.
Qed.

Lemma count_key_update now n u dsc i p e t :
  List.length (filter (key_matches p e)
                 (map (fun r => if a_id r =? i then set_fields now n u dsc r else r) t))
  = List.length (filter (key_matches p e) t).
Proof.
  apply filter_map_invariant. intros r. destruct (a_id r =? i); reflexivity.
Qed.

Lemma key_matches_new_row now d i n u dsc p e :
  key_matches p e (new_row now d i n u dsc) = true ->
  p = ad_platform_id d /\ e = ad_external_id d.
Proof.
  intros H. apply key_matches_inv in H as [Hp He]. simpl in *.
  inversion He. auto.
Qed.

Lemma key_matches_new_row_self now d i n u dsc :
  key_matches (ad_platform_id d) (ad_external_id d) (new_row now d i n u dsc) = true.
Proof.
  unfold key_matches. simpl. rewrite Z.eqb_refl, String.eqb_refl. reflexivity.
Qed.

Lemma upsert_keeps_key_unique now d db :
  key_unique db -> key_unique (snd (_insert_or_update_application now d db)).
Proof.
  intros Hu. pose proof (upsert_cases now d db) as H.
  destruct (_insert_or_update_application now d db) as [res db']. simpl.
  destruct H as [_ [(e & _ & ->) | [(row & n & u & dsc & _ & _ & _ & Ha) | (n & u & dsc & Hf & _ & _ & Ha)]]].
  - exact Hu.
  - intros p e. unfold count_key. rewrite Ha, count_key_update. apply Hu.
  - intros p e. unfold count_key. rewrite Ha, filter_app, length_app. simpl.
    destruct (key_matches p e (new_row _ _ _ _ _ _)) eqn:Hk; simpl.
    + apply key_matches_new_row in Hk as [-> ->].
      rewrite (find_none_filter _ _ Hf). simpl. lia.
    + specialize (Hu p e). unfold count_key in Hu. lia.
Qed.

Lemma upsert_ok_key_present now d db i db' :
  _insert_or_update_application now d db = (Ok i, db') ->
  (1 <= count_key (ad_platform_id d) (ad_external_id d) db')%nat.
Proof.
  intros E. pose proof (upsert_cases now d db) as H. rewrite E in H.
  destruct H as [_ [(e & He & _) | [(row & n & u & dsc & Hf & _ & _ & Ha) | (n & u & dsc & Hf & _ & _ & Ha)]]].
  - discriminate.
  - unfold count_key. rewrite Ha, count_key_update. eapply find_some_filter; eauto.
  - unfold count_key. rewrite Ha, filter_app, length_app. simpl.
    rewrite key_matches_new_row_self. simpl. lia.
Qed.

Lemma find_map_update now n u dsc i p e t row :
  find (key_matches p e) t = Some row ->
  exists row', find (key_matches p e)
                 (map (fun r => if a_id r =? i then set_fields now n u dsc r else r) t)
               = Some row' /\ a_id row' = a_id row.
Proof.
  induction t as [|x t IH]; simpl; [discriminate|].
  intros H. destruct (a_id x =? i) eqn:Hi.
  - rewrite key_matches_set_fields. destruct (key_matches p e x).
    + inversion H; subst. eexists; split; reflexivity.
    + auto.
  - destruct (key_matches p e x).
    + inversion H; subst. eexists; split; reflexivity.
    + auto.
Qed.

Lemma find_app_none_last {A} (g : A -> bool) t x :
  find g t = None -> g x = true -> find g (t ++ [x]) = Some x.
Proof.
  induction t as [|y t IH]; simpl; intros Hf Hx.
  - rewrite Hx. reflexivity.
  - destruct (g y); [discriminate | auto].
Qed.

(** Two upserts of the same identity key address the same row. *)
Lemma upsert_twice_same_id now1 now2 r1 r2 db i1 db1 i2 db2 :
  ad_platform_id r1 = ad_platform_id r2 ->
  ad_external_id r1 = ad_external_id r2 ->
  _insert_or_update_application now1 r1 db = (Ok i1, db1) ->
  _insert_or_update_application now2 r2 db1 = (Ok i2, db2) ->
  i2 = i1 /\ List.length (applications db2) = List.length (applications db1).
Proof.
  intros Hp He E1 E2.
  pose proof (upsert_cases now1 r1 db) as H1. rewrite E1 in H1.
  pose proof (upsert_cases now2 r2 db1) as H2. rewrite E2 in H2.
  rewrite <- Hp, <- He in H2.
  assert (exists row1, find (key_matches (ad_platform_id r1) (ad_external_id r1))
                            (applications db1) = Some row1 /\ a_id row1 = i1) as (row1 & Hf1 & Hid).
  { destruct H1 as [_ [(e & He1 & _) | [(row & n & u & dsc & Hf & _ & Hi & Ha) | (n & u & dsc & Hf & _ & Hi & Ha)]]].
    - discriminate.
    - inversion Hi; subst i1. rewrite Ha. eapply find_map_update; eauto.
    - inversion Hi; subst i1. rewrite Ha. eexists; split.
      + apply find_app_none_last; [exact Hf | apply key_matches_new_row_self].
      + reflexivity. }
  destruct H2 as [_ [(e & He2 & _) | [(row & n & u & dsc & Hf & _ & Hi & Ha) | (n & u & dsc & Hf & _ & _ & _)]]].
  - discriminate.
  - rewrite Hf1 in Hf. inversion Hf; subst row. inversion Hi. split; [congruence|].
    rewrite Ha. apply length_map.
  - congruence.
Qed.

Lemma upsert_count_mono now d db p e :
  (count_key p e db <= count_key p e (snd (_insert_or_update_application now d db)))%nat.
Proof.
  pose proof (upsert_cases now d db) as H.
  destruct (_insert_or_update_application now d db) as [res db']. simpl.
  destruct H as [_ [(x & _ & ->) | [(row & n & u & dsc & _ & _ & _ & Ha) | (n & u & dsc & _ & _ & _ & Ha)]]].
  - lia.
  - unfold count_key. rewrite Ha, count_key_update. lia.
  - unfold count_key. rewrite Ha, filter_app, length_app. lia.
Qed.

(** C2. Identity-key uniqueness: in a store where no identity key is held
    by two rows, every upsert keeps the keys unique. An upsert goes through
    exactly when the values of the record can be bound; otherwise it
    raises and leaves the store as it is. After upserting two records of
    the same platform with equal external identifiers whose values can be
    bound, both upserts have gone through, they have returned the same id,
    and the store holds exactly one row for that pair; the same row count
    holds as soon as one of the two upserts goes through. *)
Theorem upsert_identity_key_unique :
  forall upsert now1 now2 r1 r2 db,
    In upsert upserts ->
    key_unique db ->
    ad_platform_id r1 = ad_platform_id r2 ->
    ad_external_id r1 = ad_external_id r2 ->
    let db1 := snd (upsert now1 r1 db) in
    let db2 := snd (upsert now2 r2 db1) in
    key_unique db1 /\ key_unique db2 /\
    (bind_fields r1 <> None -> bind_fields r2 <> None ->
     exists i, fst (upsert now1 r1 db) = Ok i /\ fst (upsert now2 r2 db1) = Ok i /\
               count_key (ad_platform_id r1) (ad_external_id r1) db2 = 1%nat) /\
    (forall now r d, bind_fields r <> None -> exists i, fst (upsert now r d) = Ok i) /\
    (forall now r d, bind_fields r = None ->
                     upsert now r d = (Raise (fields_error r), d)) /\
    (forall i, fst (upsert now1 r1 db) = Ok i \/ fst (upsert now2 r2 db1) = Ok i ->
               count_key (ad_platform_id r1) (ad_external_id r1) db2 = 1%nat) /\
    (forall i1 i2, fst (upsert now1 r1 db) = Ok i1 -> fst (upsert now2 r2 db1) = Ok i2 ->
                   i2 = i1).
Proof.
  intros upsert now1 now2 r1 r2 db Hin. revert now1 now2 r1 r2 db.
  pattern upsert. revert upsert Hin. apply upserts_inv.
  intros now1 now2 r1 r2 db Hu Hp He db1 db2.
  assert (Hu1 : key_unique db1) by (apply upsert_keeps_key_unique, Hu).
  assert (Hu2 : key_unique db2) by (apply upsert_keeps_key_unique, Hu1).
  assert (Hone : forall i, fst (_insert_or_update_application now1 r1 db) = Ok i \/
                           fst (_insert_or_update_application now2 r2 db1) = Ok i ->
                           count_key (ad_platform_id r1) (ad_external_id r1) db2 = 1%nat).
  { intros i Hok.
    assert (1 <= count_key (ad_platform_id r1) (ad_external_id r1) db2)%nat as Hge.
    { destruct Hok as [Hok | Hok].
      - pose proof (upsert_count_mono now2 r2 db1 (ad_platform_id r1) (ad_external_id r1)) as Hm.
        assert (1 <= count_key (ad_platform_id r1) (ad_external_id r1) db1)%nat.
        { subst db1. destruct (_insert_or_update_application now1 r1 db) as [res d1] eqn:E.
          cbn [fst snd] in *. subst res. eapply upsert_ok_key_present; eauto. }
        fold db2 in Hm. lia.
      - rewrite Hp, He. subst db2.
        destruct (_insert_or_update_application now2 r2 db1) as [res d2] eqn:E.
        cbn [fst snd] in *. subst res. eapply upsert_ok_key_present; eauto. }
    specialize (Hu2 (ad_platform_id r1) (ad_external_id r1)). lia. }
  assert (Hsame : forall i1 i2, fst (_insert_or_update_application now1 r1 db) = Ok i1 ->
                                fst (_insert_or_update_application now2 r2 db1) = Ok i2 ->
                                i2 = i1).
  { intros i1 i2 H1 H2. subst db2 db1.
    destruct (_insert_or_update_application now1 r1 db) as [res1 d1] eqn:E1.
    cbn [fst snd] in *.
    destruct (_insert_or_update_application now2 r2 d1) as [res2 d2] eqn:E2.
    cbn [fst snd] in *. subst res1 res2.
    eapply upsert_twice_same_id; eauto. }
  split; [exact Hu1|]. split; [exact Hu2|]. split; [|split; [|split; [|split]]].
  - intros Hb1 Hb2.
    destruct (upsert_ok now1 r1 db Hb1) as (i1 & H1).
    destruct (upsert_ok now2 r2 db1 Hb2) as (i2 & H2).
    exists i1. split; [exact H1|]. split.
    + rewrite H2. f_equal. eapply Hsame; eauto.
    + apply (Hone i1). left. exact H1.
  - intros now r d. apply upsert_ok.
  - intros now r d. apply upsert_raises.
  - exact Hone.
  - exact Hsame.
Qed.

Lemma upsert_identity_key_unique_witness :
  let db1 := snd (_insert_or_update_application "t1" first_hit frame_db) in
  let db2 := snd (_insert_or_update_application "t2" second_hit db1) in
  key_unique db2 /\
  exists i, fst (_insert_or_update_application "t1" first_hit frame_db) = Ok i /\
            fst (_insert_or_update_application "t2" second_hit db1) = Ok i /\
            count_key 7 "43" db2 = 1%nat.
Proof.
  destruct (upsert_identity_key_unique _insert_or_update_application "t1" "t2"
              first_hit second_hit frame_db) as (_ & Hk & Hboth & _).
  - left. reflexivity.
  - intros p e. unfold count_key, frame_db. cbn [applications filter].
    destruct (key_matches p e first_row) eqn:H1; destruct (key_matches p e frame_row) eqn:H2;
      cbn [List.length]; try lia.
    apply key_matches_inv in H1, H2. simpl in *. destruct H1, H2. congruence.
  - reflexivity.
  - reflexivity.
  - split; [exact Hk|]. apply Hboth; discriminate.
Defined.

End Upsert.

Section UpsertFrame.

Import GitHubDataProcessor.

Lemma ids_unique_same_row (t : list application) r row :
  NoDup (map a_id t) -> In r t -> In row t -> a_id r = a_id row -> r = row.
Proof.
  induction t as [|x t IH]; simpl; [tauto|].
  intros Hnd Hr Hrow Hid. inversion Hnd as [|? ? Hnotin Hnd']; subst.
  destruct Hr as [-> | Hr], Hrow as [-> | Hrow]; auto.
  - exfalso. apply Hnotin. rewrite Hid. apply in_map. exact Hrow.
  - exfalso. apply Hnotin. rewrite <- Hid. apply in_map. exact Hr.
Qed.

(** C10. Frame of a re-upsert: when a row already holds the record's
    (platform_id, external_id), the upsert leaves [platforms] alone, keeps
    the number of rows, changes no row but the matching one, and keeps that
    row's id, platform_id, external_id and created_at; its name, url,
    description and updated_at become the record's values and the current
    time. When a value cannot be bound the statement raises and nothing
    changes. *)
Theorem upsert_existing_frame :
  forall upsert now d db row,
    In upsert upserts ->
    ids_unique db ->
    find (key_matches (ad_platform_id d) (ad_external_id d)) (applications db) = Some row ->
    platforms (snd (upsert now d db)) = platforms db /\
    List.length (applications (snd (upsert now d db))) = List.length (applications db) /\
    (forall k r, nth_error (applications db) k = Some r ->
       exists r', nth_error (applications (snd (upsert now d db))) k = Some r' /\
                  a_id r' = a_id r /\ a_platform_id r' = a_platform_id r /\
                  a_external_id r' = a_external_id r /\ a_created_at r' = a_created_at r /\
                  (r <> row -> r' = r) /\
                  (forall n u dsc, r = row -> bind_fields d = Some (n, u, dsc) ->
                     a_name r' = n /\ a_url r' = u /\ a_description r' = dsc /\
                     a_updated_at r' = SText now)) /\
    (forall n u dsc, bind_fields d = Some (n, u, dsc) -> fst (upsert now d db) = Ok (a_id row)) /\
    (bind_fields d = None ->
       fst (upsert now d db) = Raise (fields_error d) /\ snd (upsert now d db) = db).
Proof.
  intros upsert now d db row Hin. revert now d db row.
  pattern upsert. revert upsert Hin. apply upserts_inv.
  intros now d db row Hnd Hf.
  destruct (bind_fields d) as [[[n u] dsc]|] eqn:Hb;
    [|rewrite (upsert_raises now d db Hb); cbn [fst snd]].
  - destruct (bind_fields_external_id _ _ _ _ Hb) as (e & He).
    unfold _insert_or_update_application. rewrite He, Hf, Hb. simpl.
    split; [reflexivity|]. split; [apply length_map|]. split; [|split].
    + intros k r Hk. rewrite nth_error_map, Hk. simpl.
      destruct (a_id r =? a_id row) eqn:Hid.
      * apply Z.eqb_eq in Hid.
        assert (r = row) as ->.
        { eapply ids_unique_same_row; eauto.
          - eapply nth_error_In; eauto.
          - eapply find_some; eauto. }
        eexists; split; [reflexivity|]. simpl.
        do 4 (split; [reflexivity|]). split; [tauto|].
        intros n' u' dsc' _ E; inversion E; subst; auto.
      * exists r. do 5 (split; [reflexivity|]). split; [tauto|].
        intros n' u' dsc' ->. rewrite Z.eqb_refl in Hid. discriminate.
    + intros; reflexivity.
    + discriminate.
  - split; [reflexivity|]. split; [reflexivity|]. split; [|split].
    + intros k r Hk. exists r. do 5 (split; [auto|]). split; [tauto|].
      intros; discriminate.
    + intros; discriminate.
    + auto.
Qed.

Lemma upsert_existing_frame_witness :
  platforms (snd (_insert_or_update_application "t1" frame_record frame_db))
  = platforms frame_db /\
  List.length (applications (snd (_insert_or_update_application "t1" frame_record frame_db)))
  = 2%nat /\
  nth_error (applications (snd (_insert_or_update_application "t1" frame_record frame_db))) 0
  = nth_error (applications frame_db) 0.
Proof.
  destruct (upsert_existing_frame _insert_or_update_application "t1" frame_record
              frame_db frame_row) as (Hp & Hl & Hrows & _).
  - left. reflexivity.
  - unfold ids_unique. simpl. repeat constructor; simpl; intuition discriminate.
  - reflexivity.
  - split; [exact Hp|]. split; [exact Hl|].
    destruct (Hrows 0%nat _ eq_refl) as (r' & Hr' & _ & _ & _ & _ & Hsame & _).
    rewrite Hr'. rewrite Hsame; [reflexivity | discriminate].
Defined.

End UpsertFrame.

(** ** Re-ingestion through process_data.py *)

Section Reingestion.

Import GitHubDataProcessor.

Context {X : Type} (extract : X -> result (option app_data)).

Lemma existsb_find {A} (g : A -> bool) (t : list A) :
  existsb g t = match find g t with Some _ => true | None => false end.
Proof.
  induction t as [|x t IH]; simpl; [reflexivity|].
  destruct (g x); simpl; auto.
Qed.

Lemma existsb_map_invariant {A} (g : A -> bool) (f : A -> A) (t : list A) :
  (forall r, g (f r) = g r) -> existsb g (map f t) = existsb g t.
Proof.
  intros Hg. induction t as [|r t IH]; simpl; [reflexivity|].
  rewrite Hg, IH. reflexivity.
Qed.

Lemma upsert_platforms now d db :
  platforms (snd (_insert_or_update_application now d db)) = platforms db.
Proof.
  pose proof (upsert_cases now d db) as H.
  destruct (_insert_or_update_application now d db). apply H.
Qed.

Lemma upsert_present_mono now d db ad :
  present ad db = true ->
  present ad (snd (_insert_or_update_application now d db)) = true.
Proof.
  intros Hp. pose proof (upsert_cases now d db) as H.
  destruct (_insert_or_update_application now d db) as [res db']. simpl.
  destruct H as [_ [(e & _ & ->) | [(row & n & u & dsc & _ & _ & _ & Ha) | (n & u & dsc & _ & _ & _ & Ha)]]].
  - exact Hp.
  - unfold present. rewrite Ha, existsb_map_invariant; [exact Hp|].
    intros r. destruct (a_id r =? a_id row); reflexivity.
  - unfold present. rewrite Ha, existsb_app. unfold present in Hp. rewrite Hp. reflexivity.
Qed.

Lemma upsert_establishes now d db :
  bind_fields d <> None ->
  present d (snd (_insert_or_update_application now d db)) = true.
Proof.
  intros Hb. destruct (bind_fields d) as [[[n u] dsc]|] eqn:Hbd; [|congruence].
  destruct (bind_fields_external_id _ _ _ _ Hbd) as (e & He).
  unfold _insert_or_update_application. rewrite He, Hbd.
  destruct (find _ (applications db)) as [row|] eqn:Hf; simpl.
  - unfold present. simpl. rewrite existsb_map_invariant.
    + rewrite existsb_find, Hf. reflexivity.
    + intros r. destruct (a_id r =? a_id row); reflexivity.
  - unfold present. simpl. rewrite existsb_app. simpl.
    rewrite key_matches_new_row_self. simpl. apply orb_true_r.
Qed.

Lemma upsert_length_when_settled now d db :
  (bind_fields d <> None -> present d db = true) ->
  List.length (applications (snd (_insert_or_update_application now d db)))
  = List.length (applications db).
Proof.
  intros Hs. destruct (bind_fields d) as [[[n u] dsc]|] eqn:Hbd;
    [|rewrite (upsert_raises now d db Hbd); reflexivity].
  destruct (bind_fields_external_id _ _ _ _ Hbd) as (e & He).
  unfold _insert_or_update_application. rewrite He, Hbd.
  destruct (find _ (applications db)) as [row|] eqn:Hf; simpl.
  - apply length_map.
  - assert (present d db = true) as Hp by (apply Hs; discriminate).
    unfold present in Hp. rewrite existsb_find, Hf in Hp. discriminate.
Qed.

Lemma ingest_step_platforms now db x :
  platforms (ingest_step extract now db x) = platforms db.
Proof.
  unfold ingest_step. destruct (extract x) as [[ad|]|]; auto using upsert_platforms.
Qed.

Lemma ingest_step_present_mono now db x ad :
  present ad db = true -> present ad (ingest_step extract now db x) = true.
Proof.
  unfold ingest_step. destruct (extract x) as [[d|]|]; auto using upsert_present_mono.
Qed.

Lemma ingest_platforms now xs : forall db,
  platforms (fold_left (ingest_step extract now) xs db) = platforms db.
Proof.
  induction xs as [|x xs IH]; simpl; intros db; [reflexivity|].
  rewrite IH. apply ingest_step_platforms.
Qed.

Lemma ingest_present_mono now xs ad : forall db,
  present ad db = true -> present ad (fold_left (ingest_step extract now) xs db) = true.
Proof.
  induction xs as [|x xs IH]; simpl; intros db Hp; [exact Hp|].
  apply IH, ingest_step_present_mono, Hp.
Qed.

(** After a run, every record of the input that can be written is in the
    table. *)
Lemma ingest_settles now xs : forall db x ad,
  In x xs -> extract x = Ok (Some ad) -> bind_fields ad <> None ->
  present ad (fold_left (ingest_step extract now) xs db) = true.
Proof.
  induction xs as [|y xs IH]; simpl; intros db x ad Hin Hx Hb; [tauto|].
  destruct Hin as [-> | Hin].
  - apply ingest_present_mono. unfold ingest_step. rewrite Hx.
    apply upsert_establishes, Hb.
  - eapply IH; eauto.
Qed.

(** A run over settled records neither adds nor removes a row. *)
Lemma ingest_settled_length now xs : forall db,
  (forall x ad, In x xs -> extract x = Ok (Some ad) -> bind_fields ad <> None ->
                present ad db = true) ->
  List.length (applications (fold_left (ingest_step extract now) xs db))
  = List.length (applications db).
Proof.
  induction xs as [|y xs IH]; simpl; intros db Hs; [reflexivity|].
  rewrite IH.
  - unfold ingest_step. destruct (extract y) as [[d|]|] eqn:Hy; try reflexivity.
    apply upsert_length_when_settled. intros Hb. eapply Hs; eauto.
  - intros x ad Hin Hx Hb. apply ingest_step_present_mono. eapply Hs; eauto.
Qed.

Lemma ingest_twice_length now1 now2 xs db :
  List.length (applications (fold_left (ingest_step extract now2) xs
                               (fold_left (ingest_step extract now1) xs db)))
  = List.length (applications (fold_left (ingest_step extract now1) xs db)).
Proof.
  apply ingest_settled_length. intros x ad Hin Hx Hb. eapply ingest_settles; eauto.
Qed.

End Reingestion.

Lemma github_run_twice str now1 now2 data platform_name db :
  let db1 := GitHubDataProcessor.process_github_search_results str now1 data platform_name db in
  List.length (applications
     (GitHubDataProcessor.process_github_search_results str now2 data platform_name db1))
  = List.length (applications db1).
Proof.
  unfold GitHubDataProcessor.process_github_search_results, get_platform_id.
  destruct (find _ (platforms db)) as [p|] eqn:Hf; simpl.
  - destruct (p_id p =? 0) eqn:Hz.
    + rewrite Hf, Hz. reflexivity.
    + destruct (get data "items" (JList [])) as [| | | | |items|] eqn:Hi;
        try (rewrite Hf, Hz; reflexivity).
      change (GitHubDataProcessor.process_item str now1 (p_id p))
        with (ingest_step (GitHubDataProcessor.application_of_item str (p_id p)) now1).
      rewrite ingest_platforms, Hf, Hz.
      apply (ingest_twice_length (GitHubDataProcessor.application_of_item str (p_id p))).
  - rewrite Hf. reflexivity.
Qed.

Lemma v0_run_twice now1 now2 urls platform_name db :
  let db1 := V0DataProcessor.process_v0_urls now1 urls platform_name db in
  List.length (applications (V0DataProcessor.process_v0_urls now2 urls platform_name db1))
  = List.length (applications db1).
Proof.
  unfold V0DataProcessor.process_v0_urls, get_platform_id.
  destruct (find _ (platforms db)) as [p|] eqn:Hf; simpl.
  - destruct (p_id p =? 0) eqn:Hz.
    + rewrite Hf, Hz. reflexivity.
    + change (V0DataProcessor.process_url now1 (p_id p))
        with (ingest_step (V0DataProcessor.application_of_url (p_id p)) now1).
      rewrite ingest_platforms, Hf, Hz.
      apply (ingest_twice_length (V0DataProcessor.application_of_url (p_id p))).
  - rewrite Hf. reflexivity.
Qed.

(** ** Re-ingestion through data_integration.py *)

Section InsertApp.

Import DataIntegration.

Ltac destruct_binds :=
  repeat match goal with
         | |- context [match lookup "created_at" ?d with _ => _ end] =>
             destruct (lookup "created_at" d) eqn:?
         | |- context [match bind ?v with _ => _ end] => destruct (bind v) eqn:?
         end.

Lemma row_of_app_data_url now ad i row :
  row_of_app_data now ad i = Some row ->
  exists u, bind (url_value ad) = Some u /\ r_url row = text_affinity u.
Proof.
  unfold row_of_app_data, url_value. destruct_binds; try discriminate;
    intros H; inversion H; simpl; eauto.
Qed.

Lemma row_of_app_data_none now1 i1 now2 i2 ad :
  row_of_app_data now1 ad i1 = None -> row_of_app_data now2 ad i2 = None.
Proof.
  unfold row_of_app_data. destruct_binds; try discriminate; reflexivity.
Qed.

Lemma bindable_row now ad i :
  bindable ad = true -> exists row, row_of_app_data now ad i = Some row.
Proof.
  unfold bindable. intros Hb.
  destruct (row_of_app_data now ad i) as [row|] eqn:Hr; [eauto|].
  rewrite (row_of_app_data_none _ _ "" 0 _ Hr) in Hb. discriminate.
Qed.

Lemma row_bindable now ad i row :
  row_of_app_data now ad i = Some row -> bindable ad = true.
Proof.
  unfold bindable. intros Hr.
  destruct (row_of_app_data "" ad 0) eqn:H0; [reflexivity|].
  rewrite (row_of_app_data_none _ _ now i _ H0) in Hr. discriminate.
Qed.

Lemma bind_not_null v u :
  stored_as_null v = false -> bind v = Some u ->
  sql_eq (text_affinity u) (text_affinity u) = true.
Proof.
  unfold stored_as_null. intros Hv Hb. rewrite Hb in Hv.
  destruct u; simpl; try discriminate; apply String.eqb_refl.
Qed.

Lemma truthy_get1_url ad :
  truthy (get1 ad "url") = true -> get1 ad "url" = url_value ad.
Proof.
  unfold get1, url_value, get. destruct (lookup "url" ad); [reflexivity | discriminate].
Qed.

(** What [insert_app] does to the table. *)
Lemma insert_app_apps now ad c s :
  apps_after now ad (c, s) = apps (stored c) \/
  exists row, row_of_app_data now ad (autoincrement (apps_seq (stored c))
                                         (map r_id (apps (stored c)))) = Some row /\
              violates_unique row (apps (stored c)) = false /\
              apps_after now ad (c, s) = apps (stored c) ++ [row].
Proof.
  unfold apps_after, insert_app.
  assert (Hins :
    apps (stored (fst (snd
      (match row_of_app_data now ad (autoincrement (apps_seq (stored c)) (map r_id (apps (stored c)))) with
       | None => (None, (c, incr_errors s))
       | Some row =>
           if last_insert_rowid (insert_or_ignore row c) =? 0
           then (None, (insert_or_ignore row c, incr_duplicates_skipped s))
           else (Some (last_insert_rowid (insert_or_ignore row c)),
                 (insert_or_ignore row c, incr_total_processed s))
       end)))) = apps (stored c) \/
    exists row, row_of_app_data now ad (autoincrement (apps_seq (stored c))
                                         (map r_id (apps (stored c)))) = Some row /\
              violates_unique row (apps (stored c)) = false /\
              apps (stored (fst (snd
      (match row_of_app_data now ad (autoincrement (apps_seq (stored c)) (map r_id (apps (stored c)))) with
       | None => (None, (c, incr_errors s))
       | Some row =>
           if last_insert_rowid (insert_or_ignore row c) =? 0
           then (None, (insert_or_ignore row c, incr_duplicates_skipped s))
           else (Some (last_insert_rowid (insert_or_ignore row c)),
                 (insert_or_ignore row c, incr_total_processed s))
       end)))) = apps (stored c) ++ [row]).
  { destruct (row_of_app_data now ad _) as [row|] eqn:Hr; [|left; reflexivity].
    assert (Hst : apps (stored (insert_or_ignore row c)) =
                  if violates_unique row (apps (stored c)) then apps (stored c)
                  else apps (stored c) ++ [row]).
    { unfold insert_or_ignore. destruct (violates_unique row (apps (stored c))); reflexivity. }
    destruct (violates_unique row (apps (stored c))) eqn:Hv.
    - left. destruct (last_insert_rowid _ =? 0); simpl; exact Hst.
    - right. exists row. repeat split; auto.
      destruct (last_insert_rowid _ =? 0); simpl; exact Hst. }
  destruct (truthy (get1 ad "url")); [|exact Hins].
  destruct (bind (get1 ad "url")) as [u|]; [|left; reflexivity].
  destruct (select_by_url u (apps (stored c))); [left; reflexivity | exact Hins].
Qed.

Lemma url_present_app ad t row :
  url_present ad t = true -> url_present ad (t ++ [row]) = true.
Proof.
  unfold url_present. destruct (bind (url_value ad)); [|auto].
  rewrite existsb_app. intros ->. reflexivity.
Qed.

Lemma insert_app_present_mono now ad c s ad0 :
  url_present ad0 (apps (stored c)) = true ->
  url_present ad0 (apps_after now ad (c, s)) = true.
Proof.
  intros Hp. destruct (insert_app_apps now ad c s) as [-> | (row & _ & _ & ->)];
    auto using url_present_app.
Qed.

(** A record that is settled -- it cannot be written, or its URL is in the
    table -- and whose URL is not stored as NULL leaves the table as it is. *)
Lemma insert_app_settled now ad c s :
  stored_as_null (url_value ad) = false ->
  (bindable ad = true -> url_present ad (apps (stored c)) = true) ->
  apps_after now ad (c, s) = apps (stored c).
Proof.
  intros Hnn Hs.
  destruct (insert_app_apps now ad c s) as [H | (row & Hr & Hv & H)]; [exact H|].
  exfalso.
  pose proof (row_bindable _ _ _ _ Hr) as Hb. specialize (Hs Hb).
  destruct (row_of_app_data_url _ _ _ _ Hr) as (u & Hu & Hurl).
  unfold url_present in Hs. rewrite Hu in Hs.
  unfold violates_unique in Hv. apply orb_false_elim in Hv as [Hv _].
  rewrite Hurl in Hv. congruence.
Qed.

(** Once [insert_app] has run on a record that can be written and whose
    URL is not stored as NULL, the URL is in the table. *)
Lemma insert_app_establishes now ad c s :
  stored_as_null (url_value ad) = false -> bindable ad = true ->
  url_present ad (apps_after now ad (c, s)) = true.
Proof.
  intros Hnn Hb. unfold apps_after, insert_app.
  destruct (bindable_row now ad (autoincrement (apps_seq (stored c)) (map r_id (apps (stored c)))) Hb)
    as (row & Hr).
  destruct (row_of_app_data_url _ _ _ _ Hr) as (u & Hu & Hurl).
  assert (Hself : sql_eq (r_url row) (text_affinity u) = true).
  { rewrite Hurl. eapply bind_not_null; eauto. }
  assert (Hins : url_present ad (apps (stored (insert_or_ignore row c))) = true).
  { unfold url_present. rewrite Hu. unfold insert_or_ignore.
    destruct (violates_unique row (apps (stored c))) eqn:Hv; simpl.
    - unfold violates_unique in Hv. rewrite Hurl in Hv.
      apply orb_true_iff in Hv as [Hv | Hv]; [exact Hv|].
      apply existsb_exists in Hv as (r & Hin & Hrr).
      apply existsb_exists. exists r. split; [exact Hin|].
      apply andb_prop in Hrr. tauto.
    - rewrite existsb_app. simpl. rewrite Hself. apply orb_true_iff. right. reflexivity. }
  rewrite Hr.
  assert (Hgo : url_present ad
    (apps (stored (fst (snd
       (if last_insert_rowid (insert_or_ignore row c) =? 0
        then (@None Z, (insert_or_ignore row c, incr_duplicates_skipped s))
        else (Some (last_insert_rowid (insert_or_ignore row c)),
              (insert_or_ignore row c, incr_total_processed s))))))) = true).
  { destruct (last_insert_rowid _ =? 0); exact Hins. }
  destruct (truthy (get1 ad "url")) eqn:Ht; [|exact Hgo].
  rewrite (truthy_get1_url _ Ht), Hu.
  unfold select_by_url.
  destruct (find _ (apps (stored c))) as [r|] eqn:Hf; [|exact Hgo].
  simpl. unfold url_present. rewrite Hu, existsb_find, Hf. reflexivity.
Qed.

Context (to_app_data : dict -> dict) (count : stats -> stats).

Lemma insert_step_apps now st project :
  apps_of (insert_step to_app_data count now st project)
  = apps_after now (to_app_data project) st.
Proof.
  unfold apps_of, insert_step, apps_after.
  destruct (insert_app now (to_app_data project) st) as [[i|] [c s]]; reflexivity.
Qed.

Lemma insert_steps_present_mono now projects ad0 : forall st,
  url_present ad0 (apps_of st) = true ->
  url_present ad0 (apps_of (fold_left (insert_step to_app_data count now) projects st)) = true.
Proof.
  induction projects as [|p projects IH]; simpl; intros st Hp; [exact Hp|].
  apply IH. rewrite insert_step_apps. destruct st as [c s].
  apply insert_app_present_mono, Hp.
Qed.

Lemma insert_steps_settle now projects : forall st p,
  In p projects ->
  stored_as_null (url_value (to_app_data p)) = false -> bindable (to_app_data p) = true ->
  url_present (to_app_data p)
    (apps_of (fold_left (insert_step to_app_data count now) projects st)) = true.
Proof.
  induction projects as [|q projects IH]; simpl; intros st p Hin Hnn Hb; [tauto|].
  destruct Hin as [-> | Hin].
  - apply insert_steps_present_mono. rewrite insert_step_apps. destruct st as [c s].
    apply insert_app_establishes; assumption.
  - apply IH; assumption.
Qed.

Lemma insert_steps_settled now projects : forall st,
  (forall p, In p projects -> stored_as_null (url_value (to_app_data p)) = false) ->
  (forall p, In p projects -> bindable (to_app_data p) = true ->
             url_present (to_app_data p) (apps_of st) = true) ->
  apps_of (fold_left (insert_step to_app_data count now) projects st) = apps_of st.
Proof.
  induction projects as [|q projects IH]; simpl; intros st Hnn Hs; [reflexivity|].
  assert (Hq : apps_of (insert_step to_app_data count now st q) = apps_of st).
  { rewrite insert_step_apps. destruct st as [c s]. apply insert_app_settled; auto. }
  rewrite IH; [exact Hq | auto |].
  intros p Hin Hb. rewrite Hq. auto.
Qed.

End InsertApp.

Section Reingest.

Import DataIntegration.

Lemma insert_platform_apps now name description base_url method c :
  apps (stored (snd (insert_platform now name description base_url method c)))
  = apps (stored c).
Proof. reflexivity. Qed.

Lemma url_value_bolt p : url_value (bolt_app_data p) = get p "url" (JStr "").
Proof. reflexivity. Qed.

Lemma url_value_lovable p :
  url_value (lovable_app_data p) = get p "url" (get p "project_url" (JStr "")).
Proof. reflexivity. Qed.

Lemma process_bolt_projects_fold now projects c s :
  process_bolt_projects now projects (c, s)
  = fold_left (insert_step bolt_app_data incr_bolt_projects now) projects
      (snd (insert_platform now "Bolt" "Bolt.new Supabase gallery projects"
                            "https://bolt.new" "supabase_api" c), s).
Proof. reflexivity. Qed.

Lemma process_lovable_projects_fold now projects c s :
  process_lovable_projects now projects (c, s)
  = fold_left (insert_step lovable_app_data incr_lovable_projects now) projects
      (snd (insert_platform now "Lovable" "Lovable.dev community projects"
                            "https://lovable.dev" "api" c), s).
Proof. reflexivity. Qed.

(** Two runs of one [process_*] loop over the same file, the second on a
    new connection to what the first one left. *)
Lemma insert_steps_twice to_app_data count now1 now2 projects st1 c2 s2 :
  (forall p, In p projects -> stored_as_null (url_value (to_app_data p)) = false) ->
  apps (stored c2) = apps_of (fold_left (insert_step to_app_data count now1) projects st1) ->
  apps_of (fold_left (insert_step to_app_data count now2) projects (c2, s2))
  = apps_of (fold_left (insert_step to_app_data count now1) projects st1).
Proof.
  intros Hnn Hc. rewrite insert_steps_settled; auto.
  intros p Hin Hb. unfold apps_of at 1. simpl. rewrite Hc.
  apply insert_steps_settle; auto.
Qed.

(** C1 (amended). Re-ingestion: a second run of [process_github_search_results]
    or of [process_v0_urls] over the same input leaves the number of rows of
    [applications] as the first run left it, whatever the store held before;
    a second run of [process_bolt_projects] or [process_lovable_projects]
    leaves the rows of [apps] as the first run left them, provided no
    record of the file has a url that is stored as NULL, that is, a url
    that is null or NaN. *)
Theorem reingestion_row_count :
  (forall str now1 now2 data platform_name db,
     let db1 := GitHubDataProcessor.process_github_search_results str now1 data platform_name db in
     List.length (applications
       (GitHubDataProcessor.process_github_search_results str now2 data platform_name db1))
     = List.length (applications db1)) /\
  (forall now1 now2 urls platform_name db,
     let db1 := V0DataProcessor.process_v0_urls now1 urls platform_name db in
     List.length (applications (V0DataProcessor.process_v0_urls now2 urls platform_name db1))
     = List.length (applications db1)) /\
  (forall now1 now2 projects d,
     (forall p, In p projects -> stored_as_null (get p "url" (JStr "")) = false) ->
     let d1 := stored (fst (process_bolt_projects now1 projects (connect d, initial_stats))) in
     let d2 := stored (fst (process_bolt_projects now2 projects (connect d1, initial_stats))) in
     apps d2 = apps d1) /\
  (forall now1 now2 projects d,
     (forall p, In p projects ->
                stored_as_null (get p "url" (get p "project_url" (JStr ""))) = false) ->
     let d1 := stored (fst (process_lovable_projects now1 projects (connect d, initial_stats))) in
     let d2 := stored (fst (process_lovable_projects now2 projects (connect d1, initial_stats))) in
     apps d2 = apps d1).
Proof.
  split; [exact github_run_twice|]. split; [exact v0_run_twice|]. split.
  - intros now1 now2 projects d Hnn d1 d2. subst d1 d2.
    rewrite !process_bolt_projects_fold.
    apply (insert_steps_twice bolt_app_data incr_bolt_projects); [exact Hnn | reflexivity].
  - intros now1 now2 projects d Hnn d1 d2. subst d1 d2.
    rewrite !process_lovable_projects_fold.
    apply (insert_steps_twice lovable_app_data incr_lovable_projects); [exact Hnn | reflexivity].
Qed.

Lemma reingestion_row_count_witness :
  let d1 := stored (fst (process_lovable_projects "t1" lovable_projects_file
                           (connect empty_database, initial_stats))) in
  let d2 := stored (fst (process_lovable_projects "t2" lovable_projects_file
                           (connect d1, initial_stats))) in
  List.length (apps d1) = 1%nat /\ apps d2 = apps d1.
Proof.
  split; [reflexivity|].
  apply (proj2 (proj2 (proj2 reingestion_row_count)) "t1" "t2" lovable_projects_file empty_database).
  intros p [<- | [<- | []]]; reflexivity.
Defined.

(** C1 (as stated) fails: a Bolt file whose only project has a null url,
    ingested twice from an empty store, gives one row after the first run
    and two after the second; so does a file whose only project has the
    url NaN. *)
Lemma reingestion_null_url_duplicates :
  (let d1 := stored (fst (process_bolt_projects "t1" null_url_projects
                            (connect empty_database, initial_stats))) in
   let d2 := stored (fst (process_bolt_projects "t2" null_url_projects
                            (connect d1, initial_stats))) in
   List.length (apps d1) = 1%nat /\ List.length (apps d2) = 2%nat) /\
  (let d1 := stored (fst (process_bolt_projects "t1" nan_url_projects
                            (connect empty_database, initial_stats))) in
   let d2 := stored (fst (process_bolt_projects "t2" nan_url_projects
                            (connect d1, initial_stats))) in
   List.length (apps d1) = 1%nat /\ List.length (apps d2) = 2%nat).
Proof. repeat split. Qed.

End Reingest.

(** ** The deduplication gate *)

Section Gate.

Import DataIntegration.






End Gate.

(** ** Platform rows of data_integration.py *)

Section InsertPlatform.

Import DataIntegration.

Lemma fold_max_ge_seq s l : s <= fold_right Z.max s l.
Proof. induction l as [|x l IH]; simpl; lia. Qed.

Lemma fold_max_bounded s l :
  (forall x, In x l -> x <= s) -> fold_right Z.max s l = s.
Proof.
  induction l as [|x l IH]; simpl; intros H; [reflexivity|].
  rewrite IH by auto. specialize (H x (or_introl eq_refl)). lia.
Qed.

Lemma fold_max_ge_in s l x : In x l -> x <= fold_right Z.max s l.
Proof.
  induction l as [|y l IH]; simpl; [tauto|].
  intros [-> | Hin]; [lia | specialize (IH Hin); lia].
Qed.

Lemma count_name_after_insert now name description base_url method c :
  count_name name (stored (snd (insert_platform now name description base_url method c))) = 1%nat.
Proof.
  unfold count_name, insert_platform. simpl.
  rewrite filter_app, length_app. simpl. rewrite String.eqb_refl. simpl.
  assert (H : forall t, filter (fun r => String.eqb (pl_name r) name)
                 (filter (fun r => negb (String.eqb (pl_name r) name)) t) = []).
  { induction t as [|r t IH]; simpl; [reflexivity|].
    destruct (String.eqb (pl_name r) name) eqn:E; simpl; [exact IH|].
    rewrite E. exact IH. }
  rewrite H. reflexivity.
Qed.

(** C5 (amended). Platform upsert: two calls of [insert_platform] with the
    same name leave exactly one row of that name, which carries the
    metadata of the second call; the row is replaced, not updated, so the
    second call returns a new id, the one after the id the first call
    returned, and [apps] is not touched. *)
Theorem insert_platform_twice :
  forall now1 now2 name description1 base_url1 method1 description2 base_url2 method2 c,
    let r1 := insert_platform now1 name description1 base_url1 method1 c in
    let r2 := insert_platform now2 name description2 base_url2 method2 (snd r1) in
    count_name name (stored (snd r1)) = 1%nat /\
    count_name name (stored (snd r2)) = 1%nat /\
    fst r2 = fst r1 + 1 /\
    In {| pl_id := fst r2; pl_name := name; pl_description := description2;
          pl_base_url := base_url2; pl_scraping_method := method2;
          pl_last_scraped := now2; pl_total_apps := 0 |}
       (platforms (stored (snd r2))) /\
    apps (stored (snd r2)) = apps (stored c).
Proof.
  intros. subst r1 r2.
  split; [apply count_name_after_insert|]. split; [apply count_name_after_insert|].
  split; [|split; [|reflexivity]].
  - unfold insert_platform at 1 3. simpl. unfold autoincrement at 1.
    rewrite fold_max_bounded; [reflexivity|].
    intros x Hx. rewrite map_app in Hx. apply in_app_or in Hx as [Hx | Hx].
    + apply in_map_iff in Hx as (r & <- & Hr). apply filter_In in Hr as [Hr _].
      unfold autoincrement.
      pose proof (fold_max_ge_in (platforms_seq (stored c)) (map pl_id (platforms (stored c)))
                    (pl_id r) (in_map pl_id _ _ Hr)). lia.
    + simpl in Hx. destruct Hx as [<- | []]. lia.
  - unfold insert_platform at 1. simpl. apply in_or_app. right. left. reflexivity.
Qed.

(** C5 (as stated) fails: on a new store the first call returns id 1 and
    the second call, with the same name, returns id 2. *)
Lemma insert_platform_twice_changes_id :
  let r1 := insert_platform "t1" "Bolt" "Bolt.new Supabase gallery projects"
                            "https://bolt.new" "supabase_api" (connect empty_database) in
  let r2 := insert_platform "t2" "Bolt" "Bolt.new Supabase gallery projects"
                            "https://bolt.new" "supabase_api" (snd r1) in
  fst r1 = 1 /\ fst r2 = 2 /\ map pl_id (platforms (stored (snd r2))) = [2].
Proof. repeat split. Qed.

End InsertPlatform.

(** ** The platform merge script *)

Section Merge.

Import CleanupPlatformDuplicates.

Lemma count_applications_owned p db : count_applications p db = Z.of_nat (owned p db).
Proof. reflexivity. Qed.

Lemma platform_exists_delete p m db :
  platform_exists p (delete_platform m db) <-> platform_exists p db /\ p <> m.
Proof.
  unfold platform_exists, delete_platform. simpl. rewrite !in_map_iff. split.
  - intros (r & <- & Hr). apply filter_In in Hr as [Hr Hn].
    apply negb_true_iff, Z.eqb_neq in Hn. split; [exists r; auto | exact Hn].
  - intros [(r & <- & Hr) Hn]. exists r. split; [reflexivity|].
    apply filter_In. split; [exact Hr|]. apply negb_true_iff, Z.eqb_neq, Hn.
Qed.

Lemma owned_move_keep now keep merge db :
  keep <> merge ->
  owned keep (move_applications now keep merge db) = (owned keep db + owned merge db)%nat.
Proof.
  intros Hne. unfold owned, move_applications. simpl.
  induction (applications db) as [|a t IH]; simpl; [reflexivity|].
  destruct (a_platform_id a =? merge) eqn:Hm; simpl.
  - rewrite Z.eqb_refl. apply Z.eqb_eq in Hm.
    destruct (a_platform_id a =? keep) eqn:Hk; [apply Z.eqb_eq in Hk; congruence|].
    simpl. rewrite IH. lia.
  - destruct (a_platform_id a =? keep); simpl; rewrite IH; lia.
Qed.

Lemma owned_move_merge now keep merge db :
  keep <> merge -> owned merge (move_applications now keep merge db) = 0%nat.
Proof.
  intros Hne. unfold owned, move_applications. simpl.
  induction (applications db) as [|a t IH]; simpl; [reflexivity|].
  destruct (a_platform_id a =? merge) eqn:Hm; simpl.
  - destruct (keep =? merge) eqn:Hk; [apply Z.eqb_eq in Hk; congruence | exact IH].
  - rewrite Hm. exact IH.
Qed.

Lemma move_nothing now keep merge db :
  owned merge db = 0%nat -> move_applications now keep merge db = db.
Proof.
  unfold owned, move_applications, with_applications. destruct db as [ps t]. simpl.
  intros H. f_equal.
  induction t as [|a t IH]; simpl in *; [reflexivity|].
  destruct (a_platform_id a =? merge); simpl in *; [discriminate|].
  rewrite IH by exact H. reflexivity.
Qed.

Lemma in_move_applications now keep merge db a' :
  In a' (applications (move_applications now keep merge db)) ->
  exists a, In a (applications db) /\
            ((a_platform_id a = merge /\ a_platform_id a' = keep) \/
             (a_platform_id a <> merge /\ a' = a)).
Proof.
  unfold move_applications. simpl. intros H. apply in_map_iff in H as (a & <- & Ha).
  exists a. split; [exact Ha|].
  destruct (a_platform_id a =? merge) eqn:Hm.
  - left. apply Z.eqb_eq in Hm. auto.
  - right. apply Z.eqb_neq in Hm. auto.
Qed.

(** The net effect of one pair, in both branches of [if apps_to_move > 0]. *)
Lemma merge_effect_eq now d db :
  merge_effect now d db
  = delete_platform (merge_id d) (move_applications now (keep_id d) (merge_id d) db).
Proof.
  unfold merge_effect. destruct (0 <? count_applications (merge_id d) db) eqn:Hc; [reflexivity|].
  rewrite move_nothing; [reflexivity|].
  rewrite count_applications_owned in Hc. apply Z.ltb_ge in Hc. lia.
Qed.

Lemma merge_effect_correct now d db :
  keep_id d <> merge_id d ->
  platform_exists (keep_id d) db ->
  no_orphan db ->
  owned (keep_id d) (merge_effect now d db) = (owned (keep_id d) db + owned (merge_id d) db)%nat /\
  owned (merge_id d) (merge_effect now d db) = 0%nat /\
  ~ platform_exists (merge_id d) (merge_effect now d db) /\
  no_orphan (merge_effect now d db) /\
  List.length (applications (merge_effect now d db)) = List.length (applications db).
Proof.
  intros Hne Hk Ho. rewrite merge_effect_eq.
  split; [apply owned_move_keep, Hne|]. split; [apply owned_move_merge, Hne|].
  split; [|split].
  - intros H. apply platform_exists_delete in H. tauto.
  - intros a' Ha'. apply platform_exists_delete.
    change (applications (delete_platform (merge_id d)
              (move_applications now (keep_id d) (merge_id d) db)))
      with (applications (move_applications now (keep_id d) (merge_id d) db)) in Ha'.
    apply in_move_applications in Ha' as (a & Ha & [[_ ->] | [Hn ->]]).
    + split; assumption.
    + split; [apply Ho, Ha | exact Hn].
  - unfold move_applications. simpl. apply length_map.
Qed.

Lemma merge_duplicate_work fails now d c m c' m' :
  merge_duplicate fails now d (c, m) = Some (c', m') ->
  work c' = merge_effect now d (work c).
Proof.
  unfold merge_duplicate, query, execute, merge_effect.
  destruct (fails (executed c)); [discriminate|]. simpl.
  destruct (0 <? count_applications (merge_id d) (work c)); simpl.
  - destruct (fails (S (executed c))); [discriminate|]. simpl.
    destruct (fails (S (S (executed c)))); [discriminate|].
    intros H. inversion H. reflexivity.
  - destruct (fails (S (executed c))); [discriminate|].
    intros H. inversion H. reflexivity.
Qed.

Lemma merge_duplicate_moved fails now d c m c' m' :
  merge_duplicate fails now d (c, m) = Some (c', m') ->
  m' = m + Z.of_nat (owned (merge_id d) (work c)).
Proof.
  unfold merge_duplicate, query, execute.
  destruct (fails (executed c)); [discriminate|]. cbn [work executed].
  rewrite count_applications_owned.
  destruct (0 <? Z.of_nat (owned (merge_id d) (work c))) eqn:Hc.
  - destruct (fails (S (executed c))); cbn [work executed]; [discriminate|].
    destruct (fails (S (S (executed c)))); [discriminate|].
    intros H. inversion H. reflexivity.
  - cbn [work executed]. destruct (fails (S (executed c))); [discriminate|].
    intros H. inversion H. apply Z.ltb_ge in Hc. lia.
Qed.

Lemma merge_all_work fails now ds : forall c m c' m',
  merge_all fails now ds (c, m) = Some (c', m') ->
  work c' = fold_left (fun db d => merge_effect now d db) ds (work c).
Proof.
  induction ds as [|d ds IH]; intros c m c' m' H; cbn [merge_all fold_left] in *.
  - inversion H. reflexivity.
  - destruct (merge_duplicate fails now d (c, m)) as [[c1 m1]|] eqn:Hd; [|discriminate].
    rewrite (IH _ _ _ _ H). f_equal. eapply merge_duplicate_work; eauto.
Qed.

Lemma merge_duplicate_no_fault now d c m :
  exists c', merge_duplicate no_fault now d (c, m)
             = Some (c', m + count_applications (merge_id d) (work c)).
Proof.
  unfold merge_duplicate, query, execute, no_fault. simpl.
  destruct (0 <? count_applications (merge_id d) (work c)) eqn:Hc; simpl.
  - eauto.
  - rewrite count_applications_owned in *. apply Z.ltb_ge in Hc.
    replace (Z.of_nat (owned (merge_id d) (work c))) with 0 by lia.
    rewrite Z.add_0_r. eauto.
Qed.

Lemma merge_all_no_fault now ds : forall c m,
  exists c' m', merge_all no_fault now ds (c, m) = Some (c', m').
Proof.
  induction ds as [|d ds IH]; intros c m; cbn [merge_all]; [eauto|].
  destruct (merge_duplicate_no_fault now d c m) as (c1 & ->). apply IH.
Qed.

Lemma cleanup_on_no_fault now ds db :
  exists total_moved,
    cleanup_on no_fault now ds db
    = (Completed total_moved (List.length ds),
       fold_left (fun db d => merge_effect now d db) ds db).
Proof.
  unfold cleanup_on.
  change (query no_fault {| executed := 0; work := db |})
    with (Some {| executed := 1; work := db |}).
  destruct (merge_all_no_fault now ds {| executed := 1; work := db |} 0) as (c' & m' & H).
  rewrite H. apply merge_all_work in H. simpl in H.
  exists m'. unfold query, execute, no_fault. simpl. rewrite H. reflexivity.
Qed.

(** Whatever raises, the file holds the database of before the run or the
    database with every pair merged. *)
Lemma cleanup_on_all_or_nothing fails now ds db :
  (fst (cleanup_on fails now ds db) = RolledBack /\ snd (cleanup_on fails now ds db) = db) \/
  (fst (cleanup_on fails now ds db) <> RolledBack /\
   snd (cleanup_on fails now ds db) = fold_left (fun db d => merge_effect now d db) ds db).
Proof.
  unfold cleanup_on, query, execute. cbn [executed work].
  destruct (fails 0%nat); [left; auto|].
  destruct (merge_all fails now ds ({| executed := 1; work := db |}, 0)) as [[c m]|] eqn:H;
    [|left; auto].
  apply merge_all_work in H. cbn [work] in H.
  destruct (fails (executed c)); [left; auto|]. cbn [executed work].
  destruct (fails (S (executed c))); right; cbn [fst snd]; split; auto; discriminate.
Qed.

(** C3. Merge of one pair: with distinct keep and merge ids, the keep
    platform present and every application on an existing platform, a run
    in which no statement raises completes, reports the applications of
    the merged platform as moved, gives them all to the kept platform,
    removes the merged platform and leaves no application on a missing
    platform; the same holds of any iteration of the loop that goes
    through, wherever in a run it stands. Whatever statement raises, in a
    run over any list of pairs, the stored database is either the one of
    before the run or the one in which every pair is merged; when the run
    ends in the ROLLBACK branch it is the one of before the run. *)
Theorem merge_atomic_and_correct :
  (forall fails now d c m c' m',
     keep_id d <> merge_id d ->
     platform_exists (keep_id d) (work c) ->
     no_orphan (work c) ->
     merge_duplicate fails now d (c, m) = Some (c', m') ->
     m' = m + Z.of_nat (owned (merge_id d) (work c)) /\
     owned (keep_id d) (work c')
     = (owned (keep_id d) (work c) + owned (merge_id d) (work c))%nat /\
     owned (merge_id d) (work c') = 0%nat /\
     ~ platform_exists (merge_id d) (work c') /\
     no_orphan (work c') /\
     List.length (applications (work c')) = List.length (applications (work c))) /\
  (forall now d db,
     keep_id d <> merge_id d ->
     platform_exists (keep_id d) db ->
     no_orphan db ->
     exists db',
       cleanup_on no_fault now [d] db
       = (Completed (Z.of_nat (owned (merge_id d) db)) 1, db') /\
       owned (keep_id d) db' = (owned (keep_id d) db + owned (merge_id d) db)%nat /\
       owned (merge_id d) db' = 0%nat /\
       ~ platform_exists (merge_id d) db' /\
       no_orphan db' /\
       List.length (applications db') = List.length (applications db)) /\
  (forall fails now ds db,
     snd (cleanup_on fails now ds db) = db \/
     snd (cleanup_on fails now ds db) = snd (cleanup_on no_fault now ds db)) /\
  (forall fails now ds db,
     fst (cleanup_on fails now ds db) = RolledBack ->
     snd (cleanup_on fails now ds db) = db).
Proof.
  split; [|split; [|split]].
  - intros fails now d c m c' m' Hne Hk Ho H.
    split; [eapply merge_duplicate_moved; eauto|].
    rewrite (merge_duplicate_work _ _ _ _ _ _ _ H).
    apply merge_effect_correct; assumption.
  - intros now d db Hne Hk Ho. exists (merge_effect now d db).
    split; [|apply merge_effect_correct; assumption].
    unfold cleanup_on.
    change (query no_fault {| executed := 0; work := db |})
      with (Some {| executed := 1; work := db |}).
    cbn [merge_all].
    destruct (merge_duplicate_no_fault now d {| executed := 1; work := db |} 0) as (c' & H).
    rewrite H. apply merge_duplicate_work in H. cbn [work] in H.
    unfold query, execute, no_fault. cbn [executed work]. rewrite H. reflexivity.
  - intros fails now ds db.
    destruct (cleanup_on_no_fault now ds db) as (m & ->). simpl.
    destruct (cleanup_on_all_or_nothing fails now ds db) as [[_ H] | [_ H]]; auto.
  - intros fails now ds db Hr.
    destruct (cleanup_on_all_or_nothing fails now ds db) as [[_ H] | [Hn _]]; [exact H | contradiction].
Qed.

Lemma merge_atomic_and_correct_witness :
  exists db',
    cleanup_on no_fault "t1" [github_pair] merge_db = (Completed 1 1, db') /\
    owned 12 db' = 2%nat /\ owned 6 db' = 0%nat /\
    ~ platform_exists 6 db' /\ no_orphan db' /\
    List.length (applications db') = 4%nat.
Proof.
  apply (proj1 (proj2 merge_atomic_and_correct) "t1" github_pair merge_db).
  - discriminate.
  - unfold platform_exists. simpl. tauto.
  - intros a Ha. unfold platform_exists. simpl in *.
    destruct Ha as [<- | [<- | [<- | [<- | []]]]]; simpl; tauto.
Defined.

Lemma merge_all_app fails now ds1 ds2 : forall st,
  merge_all fails now (ds1 ++ ds2) st
  = match merge_all fails now ds1 st with
    | None => None
    | Some st' => merge_all fails now ds2 st'
    end.
Proof.
  induction ds1 as [|d ds1 IH]; intros st; cbn [merge_all app]; [reflexivity|].
  destruct (merge_duplicate fails now d st); [apply IH | reflexivity].
Qed.

(** C4 (amended). Failure of one pair: the run holds a single transaction
    around the whole list; when a statement of one pair raises, after
    BEGIN and any number of earlier pairs went through, the run ends in
    the ROLLBACK branch, which re-raises: the stored database is the one
    of before the run, so the earlier pairs are undone with it, and no
    later pair is processed. *)
Theorem merge_failure_aborts_whole_run :
  forall fails now ds1 d ds2 db c st,
    query fails {| executed := 0; work := db |} = Some c ->
    merge_all fails now ds1 (c, 0) = Some st ->
    merge_duplicate fails now d st = None ->
    cleanup_on fails now (ds1 ++ d :: ds2) db = (RolledBack, db).
Proof.
  intros fails now ds1 d ds2 db c st Hb H1 Hd.
  unfold cleanup_on. rewrite Hb, merge_all_app, H1. simpl. rewrite Hd. reflexivity.
Qed.

Lemma merge_failure_aborts_whole_run_witness :
  cleanup_on fault_in_second_pair "t1" duplicates_to_merge merge_db = (RolledBack, merge_db).
Proof.
  apply (merge_failure_aborts_whole_run fault_in_second_pair "t1"
           [github_pair]
           {| keep_id := 16; keep_name := "Bolt"; merge_id := 3; merge_name := "bolt.new" |}
           [{| keep_id := 15; keep_name := "Lovable"; merge_id := 2; merge_name := "lovable.dev" |}]
           merge_db
           {| executed := 1; work := merge_db |}
           ({| executed := 4; work := merge_effect "t1" github_pair merge_db |}, 1));
    reflexivity.
Defined.

(** C4 (as stated) fails: when the UPDATE of the second pair raises, the
    first pair, whose three statements went through, is not merged in the
    stored database -- platform 6 is still there and still owns its
    application -- and the third pair is not processed, although a run
    without the fault merges all three. *)
Lemma merge_failure_not_contained :
  (exists st, merge_duplicate fault_in_second_pair "t1" github_pair
                ({| executed := 1; work := merge_db |}, 0) = Some st) /\
  cleanup_platform_duplicates fault_in_second_pair "t1" merge_db = (RolledBack, merge_db) /\
  owned 6 merge_db = 1%nat /\ owned 12 merge_db = 1%nat /\ owned 2 merge_db = 1%nat /\
  map p_id (platforms merge_db) = [2; 3; 6; 12; 15; 16] /\
  fst (cleanup_platform_duplicates no_fault "t1" merge_db) = Completed 3 3 /\
  map p_id (platforms (snd (cleanup_platform_duplicates no_fault "t1" merge_db))) = [12; 15; 16].
Proof.
  split; [eexists; reflexivity|]. repeat split.
Qed.

End Merge.

(** ** The record normalizers *)

Section Normalizers.

Import Scrapers.

Ltac field_cases Hin Hnone :=
  simpl in Hin;
  repeat (destruct Hin as [<- | Hin];
          [ eexists; split; [reflexivity|];
            unfold get1, get; try rewrite Hnone;
            unfold is_default, constant_keys; simpl; auto 10 | ]);
  try contradiction.

Lemma bolt_processed_objects raw_projects :
  forallb is_object raw_projects = true ->
  exists processed, BoltSupabaseScraper.processed_projects raw_projects = Ok processed /\
                    List.length processed = List.length raw_projects.
Proof.
  induction raw_projects as [|p raw IH]; intros H; [exists []; auto|].
  cbn [forallb] in H. apply andb_prop in H as [Hp Hr].
  destruct (IH Hr) as (l & Hl & Hlen).
  destruct p; try discriminate.
  cbn [BoltSupabaseScraper.processed_projects BoltSupabaseScraper.process_project].
  rewrite Hl. eexists. split; [reflexivity|]. simpl. rewrite Hlen. reflexivity.
Qed.

Lemma lovable_processed_objects raw_projects :
  forallb is_object raw_projects = true ->
  exists processed, LovableScraper.processed_projects raw_projects = Ok processed /\
                    List.length processed = List.length raw_projects.
Proof.
  induction raw_projects as [|p raw IH]; intros H; [exists []; auto|].
  cbn [forallb] in H. apply andb_prop in H as [Hp Hr].
  destruct (IH Hr) as (l & Hl & Hlen).
  destruct p; try discriminate.
  cbn [LovableScraper.processed_projects LovableScraper.process_project].
  rewrite Hl. eexists. split; [reflexivity|]. simpl. rewrite Hlen. reflexivity.
Qed.

Lemma bolt_processed_raises raw_projects :
  forallb is_object raw_projects = false ->
  BoltSupabaseScraper.processed_projects raw_projects = Raise AttributeError.
Proof.
  induction raw_projects as [|p raw IH]; intros H; [discriminate|].
  cbn [forallb] in H. cbn [BoltSupabaseScraper.processed_projects].
  destruct p; try reflexivity.
  cbn [is_object andb] in H. rewrite (IH H). reflexivity.
Qed.

Lemma lovable_processed_raises raw_projects :
  forallb is_object raw_projects = false ->
  LovableScraper.processed_projects raw_projects = Raise AttributeError.
Proof.
  induction raw_projects as [|p raw IH]; intros H; [discriminate|].
  cbn [forallb] in H. cbn [LovableScraper.processed_projects].
  destruct p; try reflexivity.
  cbn [is_object andb] in H. rewrite (IH H). reflexivity.
Qed.

(** C7 (amended). [process_project] of the Bolt and of the Lovable scraper
    has no drop rule and is total on objects only. For a raw record that
    is a JSON object it returns a processed record with the same fixed
    keys, in which a key whose field the raw record lacks holds the empty
    string, zero, null, false or the empty list (the three constant keys
    apart); a run over objects returns one processed record per raw
    record. On a raw record that is not an object it raises
    AttributeError, and so does a run over a list that holds one. *)
Theorem normalizer_total_keeps_all :
  (forall raw_projects,
     forallb is_object raw_projects = true ->
     (exists processed,
        BoltSupabaseScraper.processed_projects raw_projects = Ok processed /\
        List.length processed = List.length raw_projects) /\
     (exists processed,
        LovableScraper.processed_projects raw_projects = Ok processed /\
        List.length processed = List.length raw_projects)) /\
  (forall project,
     (exists processed,
        BoltSupabaseScraper.process_project (JObj project) = Ok processed /\
        map fst processed = bolt_keys /\
        forall k, In k bolt_keys -> lookup k project = None ->
                  exists v, lookup k processed = Some v /\
                            (is_default v \/ In k constant_keys)) /\
     (exists processed,
        LovableScraper.process_project (JObj project) = Ok processed /\
        map fst processed = lovable_keys /\
        forall k, In k lovable_keys -> lookup k project = None ->
                  (k = "title" -> lookup "name" project = None) ->
                  exists v, lookup k processed = Some v /\
                            (is_default v \/ In k constant_keys))) /\
  (forall raw,
     is_object raw = false ->
     BoltSupabaseScraper.process_project raw = Raise AttributeError /\
     LovableScraper.process_project raw = Raise AttributeError) /\
  (forall raw_projects,
     forallb is_object raw_projects = false ->
     BoltSupabaseScraper.processed_projects raw_projects = Raise AttributeError /\
     LovableScraper.processed_projects raw_projects = Raise AttributeError).
Proof.
  split; [|split; [|split]].
  - intros raw H. split; [apply bolt_processed_objects | apply lovable_processed_objects];
      exact H.
  - intros project. split.
    + eexists. split; [reflexivity|]. split; [reflexivity|].
      intros k Hin Hnone. field_cases Hin Hnone.
    + eexists. split; [reflexivity|]. split; [reflexivity|].
      intros k Hin Hnone Hname. simpl in Hin.
      destruct Hin as [<- | [<- | [<- | Hin]]].
      * eexists; split; [reflexivity|]. unfold get1, get. rewrite Hnone.
        unfold is_default. simpl. auto.
      * eexists; split; [reflexivity|]. unfold get1, get. rewrite Hnone.
        unfold is_default. simpl. auto.
      * eexists; split; [reflexivity|]. unfold get. rewrite Hnone, (Hname eq_refl).
        unfold is_default. simpl. auto.
      * field_cases Hin Hnone.
  - intros raw H. destruct raw; try discriminate; split; reflexivity.
  - intros raw H. split; [apply bolt_processed_raises | apply lovable_processed_raises];
      exact H.
Qed.

Lemma normalizer_total_keeps_all_witness :
  (exists processed,
     BoltSupabaseScraper.processed_projects [JObj untitled_record; JObj one_file]
     = Ok processed /\ List.length processed = 2%nat) /\
  BoltSupabaseScraper.processed_projects [JObj untitled_record; JNull]
  = Raise AttributeError.
Proof.
  split.
  - apply (proj1 (proj1 normalizer_total_keeps_all [JObj untitled_record; JObj one_file]
                    eq_refl)).
  - apply (proj1 (proj2 (proj2 (proj2 normalizer_total_keeps_all))
                    [JObj untitled_record; JNull] eq_refl)).
Defined.

(** C7 (as stated) fails. A raw record with none of title, name, url and
    link is not dropped: both functions return a record for it, with an
    empty title and an empty address. And a raw record that is not an
    object, such as [null], makes both raise. *)
Lemma record_without_identity_is_kept :
  lookup "title" untitled_record = None /\ lookup "name" untitled_record = None /\
  lookup "url" untitled_record = None /\ lookup "link" untitled_record = None /\
  (exists processed,
     BoltSupabaseScraper.processed_projects [JObj untitled_record] = Ok [processed] /\
     lookup "title" processed = Some (JStr "") /\
     lookup "project_url" processed = Some (JStr "")) /\
  (exists processed,
     LovableScraper.processed_projects [JObj untitled_record] = Ok [processed] /\
     lookup "title" processed = Some (JStr "") /\
     lookup "url" processed = Some (JStr "")) /\
  BoltSupabaseScraper.process_project JNull = Raise AttributeError /\
  LovableScraper.process_project JNull = Raise AttributeError.
Proof.
  do 4 (split; [reflexivity|]).
  split; [eexists; repeat split|]. split; [eexists; repeat split|].
  split; reflexivity.
Qed.

End Normalizers.

(** ** Rate limits and pagination *)

Section Fetching.

Import Scrapers.
Local Open Scope nat_scope.

Lemma rate_limited_inv r :
  rate_limited r = true -> exists items, r = Response 403 items.
Proof.
  destruct r as [st items|]; simpl; [|discriminate].
  intros H. apply Z.eqb_eq in H. subst. eauto.
Qed.

(** [n] rate-limited answers in a row cost [n] rounds of request and
    sleep, after which the loop is where it was, [n] requests later. *)
Lemma search_retries n : forall fuel server k per_page max_results page all_files log,
  (forall j, j < n -> rate_limited (server (k + j)) = true) ->
  GitHubCodeSearchProcessor.search_code_files_loop
    (n + fuel) server k per_page max_results page all_files log
  = GitHubCodeSearchProcessor.search_code_files_loop
      fuel server (k + n) per_page max_results page all_files (log ++ retries page n).
Proof.
  induction n as [|n IH]; intros fuel server k per_page max_results page all_files log H.
  - rewrite Nat.add_0_r, app_nil_r. reflexivity.
  - destruct (rate_limited_inv (server k)) as (items & Hk).
    { rewrite <- (Nat.add_0_r k). apply H. lia. }
    cbn [Nat.add GitHubCodeSearchProcessor.search_code_files_loop].
    rewrite Hk. cbn [Z.eqb Pos.eqb]. rewrite IH.
    + rewrite Nat.add_succ_r. cbn [retries]. rewrite <- !app_assoc. reflexivity.
    + intros j Hj. rewrite Nat.add_succ_l, <- Nat.add_succ_r. apply H. lia.
Qed.

Lemma search_never_gives_up fuel : forall server k per_page max_results page all_files log,
  (forall j, rate_limited (server j) = true) ->
  GitHubCodeSearchProcessor.search_code_files_loop
    fuel server k per_page max_results page all_files log = None.
Proof.
  induction fuel as [|fuel IH]; intros server k per_page max_results page all_files log H;
    [reflexivity|].
  destruct (rate_limited_inv (server k) (H k)) as (items & Hk).
  cbn [GitHubCodeSearchProcessor.search_code_files_loop]. rewrite Hk. cbn [Z.eqb Pos.eqb].
  apply IH, H.
Qed.

(** C8 (amended). Rate limits. [search_code_files] answers HTTP 403 by
    sleeping 60 seconds and asking for the same page again, as often as
    403 comes back: [n] such answers cost [n] rounds and leave page and
    collected files as they were, and against a peer that always answers
    403 no amount of iterations ends the loop. Any other status than 200
    and 403 (429 included) ends the loop at once, without a sleep, with
    the files collected so far. [fetch_all_prs_api] ends on a 403, as on
    any 4xx or 5xx, with the pull requests collected so far, without a
    sleep or a second request. *)
Theorem rate_limit_policy :
  (forall n fuel server k per_page max_results page all_files log,
     (forall j, j < n -> rate_limited (server (k + j)) = true) ->
     GitHubCodeSearchProcessor.search_code_files_loop
       (n + fuel) server k per_page max_results page all_files log
     = GitHubCodeSearchProcessor.search_code_files_loop
         fuel server (k + n) per_page max_results page all_files (log ++ retries page n)) /\
  (forall fuel server per_page max_results,
     (forall j, rate_limited (server j) = true) ->
     GitHubCodeSearchProcessor.search_code_files fuel server per_page max_results = None) /\
  (forall fuel server k per_page max_results page all_files log status_code items,
     server k = Response status_code items ->
     status_code <> 403%Z -> status_code <> 200%Z ->
     GitHubCodeSearchProcessor.search_code_files_loop
       (S fuel) server k per_page max_results page all_files log
     = Some (all_files, log ++ [Get page])) /\
  (forall fuel server k per_page page all_prs log status_code items,
     server k = Response status_code items ->
     status_code = 403%Z \/ raise_for_status status_code = true ->
     JulesPRScraper.fetch_all_prs_api_loop (S fuel) server k per_page page all_prs log
     = Some (all_prs, log ++ [Get page])).
Proof.
  split; [exact search_retries|]. split; [|split].
  - intros. apply search_never_gives_up. assumption.
  - intros fuel server k per_page max_results page all_files log st items Hk H403 H200.
    cbn [GitHubCodeSearchProcessor.search_code_files_loop]. rewrite Hk.
    apply Z.eqb_neq in H403, H200. rewrite H403, H200. reflexivity.
  - intros fuel server k per_page page all_prs log st items Hk Hst.
    cbn [JulesPRScraper.fetch_all_prs_api_loop]. rewrite Hk.
    unfold JulesPRScraper.fetch_jules_prs_api.
    destruct Hst as [-> | Hst]; [reflexivity|].
    rewrite Hst. destruct (st =? 403)%Z; reflexivity.
Qed.

Lemma rate_limit_policy_witness :
  GitHubCodeSearchProcessor.search_code_files_loop (2 + 1) twice_limited 0 100 None 1 [] []
  = GitHubCodeSearchProcessor.search_code_files_loop
      1 twice_limited (0 + 2) 100 None 1 [] ([] ++ retries 1 2).
Proof.
  apply (proj1 rate_limit_policy 2 1 twice_limited 0 100 None 1 [] []).
  intros j Hj. destruct j as [|[|j]]; [reflexivity | reflexivity | lia].
Defined.

(** C8 (as stated) fails: after a second 403 in a row [search_code_files]
    does not give up but sleeps and asks a third time, and collects the
    page it then gets; [fetch_all_prs_api] on a 403 neither sleeps nor
    asks again. *)
Lemma rate_limit_no_single_retry :
  GitHubCodeSearchProcessor.search_code_files 3 twice_limited 100 None
  = Some ([one_file], [Get 1; Sleep 60; Get 1; Sleep 60; Get 1]) /\
  JulesPRScraper.fetch_all_prs_api 1 always_limited = Some ([], [Get 1]).
Proof. split; reflexivity. Qed.

Lemma fetch_has_more per_page r items :
  JulesPRScraper.fetch_jules_prs_api per_page r = (items, true) ->
  List.length items = per_page.
Proof.
  unfold JulesPRScraper.fetch_jules_prs_api. destruct r as [st its|]; [|discriminate].
  destruct (st =? 403)%Z; [discriminate|]. destruct (raise_for_status st); [discriminate|].
  intros H. inversion H. subst. apply Nat.eqb_eq. assumption.
Qed.

Lemma jules_loop_terminates fuel : forall server k per_page page all_prs log,
  1000 <= List.length all_prs + per_page * S fuel ->
  exists r, JulesPRScraper.fetch_all_prs_api_loop (S fuel) server k per_page page all_prs log
            = Some r.
Proof.
  induction fuel as [|fuel IH]; intros server k per_page page all_prs log Hlen;
    cbn [JulesPRScraper.fetch_all_prs_api_loop];
    destruct (JulesPRScraper.fetch_jules_prs_api per_page (server k)) as [items has_more] eqn:E;
    (destruct (is_empty items); [eauto|]);
    (destruct has_more; cbn [negb]; [|eauto]);
    apply fetch_has_more in E;
    (destruct (1000 <=? List.length (all_prs ++ items)) eqn:L; [eauto|]);
    apply Nat.leb_gt in L; rewrite length_app, E in L.
  - lia.
  - apply IH. rewrite length_app, E. lia.
Qed.

Lemma is_empty_length (l : list dict) : is_empty l = true <-> List.length l = 0.
Proof. destruct l; simpl; split; intros; try reflexivity; discriminate. Qed.

Lemma bolt_stops_at_short_page n : forall fuel server k limit offset all_projects log,
  (forall j, j < n ->
     limit <= List.length (BoltSupabaseScraper.fetch_gallery_projects (server (k + j)))) ->
  0 < limit ->
  List.length (BoltSupabaseScraper.fetch_gallery_projects (server (k + n))) < limit ->
  exists log',
    BoltSupabaseScraper.fetch_all_projects_loop
      (S n + fuel) server k limit offset all_projects log
    = Some (all_projects ++ batches server k (S n), log').
Proof.
  induction n as [|n IH]; intros fuel server k limit offset all_projects log Hfull Hpos Hshort.
  - rewrite Nat.add_0_r in Hshort.
    cbn [Nat.add BoltSupabaseScraper.fetch_all_projects_loop batches]. rewrite app_nil_r.
    destruct (is_empty _) eqn:He.
    + apply is_empty_length in He. apply length_zero_iff_nil in He. rewrite He, app_nil_r. eauto.
    + apply Nat.ltb_lt in Hshort. rewrite Hshort. eauto.
  - pose proof (Hfull 0 ltac:(lia)) as H0. rewrite Nat.add_0_r in H0.
    change (S (S n) + fuel) with (S (S n + fuel)).
    remember (S n + fuel) as f eqn:Hf.
    remember (batches server k (S (S n))) as bs eqn:Hbs.
    cbn [BoltSupabaseScraper.fetch_all_projects_loop].
    destruct (is_empty _) eqn:He; [apply is_empty_length in He; lia|].
    destruct (_ <? limit) eqn:Hlt; [apply Nat.ltb_lt in Hlt; lia|].
    subst f bs.
    destruct (IH fuel server (S k) limit (offset + limit)
                 (all_projects ++ BoltSupabaseScraper.fetch_gallery_projects (server k))
                 ((log ++ [Get offset]) ++ [Sleep 1])) as (log' & Hrun).
    + intros j Hj. rewrite Nat.add_succ_l, <- Nat.add_succ_r. apply Hfull. lia.
    + exact Hpos.
    + rewrite Nat.add_succ_l, <- Nat.add_succ_r. exact Hshort.
    + exists log'. rewrite Hrun.
      change (batches server k (S (S n)))
        with (BoltSupabaseScraper.fetch_gallery_projects (server k)
              ++ batches server (S k) (S n)).
      rewrite <- app_assoc. reflexivity.
Qed.

Lemma bolt_never_stops fuel : forall server k limit offset all_projects log,
  0 < limit ->
  (forall j, limit <= List.length (BoltSupabaseScraper.fetch_gallery_projects (server j))) ->
  BoltSupabaseScraper.fetch_all_projects_loop fuel server k limit offset all_projects log = None.
Proof.
  induction fuel as [|fuel IH]; intros server k limit offset all_projects log Hpos Hfull;
    [reflexivity|].
  cbn [BoltSupabaseScraper.fetch_all_projects_loop]. specialize (Hfull k) as Hk.
  destruct (is_empty _) eqn:He; [apply is_empty_length in He; lia|].
  destruct (_ <? limit) eqn:Hlt; [apply Nat.ltb_lt in Hlt; lia|].
  apply IH; assumption.
Qed.

Lemma search_loop_terminates fuel : forall server k per_page max_results page all_files log,
  (forall j, rate_limited (server j) = false) ->
  1000 <= List.length all_files + fuel ->
  exists r, GitHubCodeSearchProcessor.search_code_files_loop
              (S fuel) server k per_page max_results page all_files log = Some r.
Proof.
  induction fuel as [|fuel IH]; intros server k per_page max_results page all_files log Hno Hlen;
    cbn [GitHubCodeSearchProcessor.search_code_files_loop];
    pose proof (Hno k) as Hk;
    (destruct (server k) as [st items|]; [|eauto]);
    cbn [rate_limited] in Hk; rewrite Hk;
    (destruct (negb (st =? 200)%Z); [eauto|]);
    (destruct (is_empty items) eqn:He; [eauto|]);
    (destruct (GitHubCodeSearchProcessor.reached _ _); [eauto|]);
    (destruct (List.length items <? per_page); [eauto|]);
    (destruct (1000 <=? List.length (all_files ++ items)) eqn:L; [eauto|]);
    apply Nat.leb_gt in L; rewrite length_app in L.
  - lia.
  - apply IH; [exact Hno|]. rewrite length_app.
    assert (List.length items <> 0).
    { intros Hz. apply is_empty_length in Hz. congruence. }
    lia.
Qed.

(** C9 (amended). Termination of the fetch-all loops. [fetch_all_prs_api]
    ends within 10 requests whatever the peer answers; on a page that is
    not an error it stops when the page is empty, when its length differs
    from the page size, or when 1000 pull requests are collected, and goes
    on to the next page otherwise. [search_code_files]
    ends within 1001 requests whatever the peer answers, as long as no
    answer is HTTP 403. [fetch_all_projects] has no ceiling: it ends at the
    first batch shorter than the limit -- an empty batch, or a failed
    request, included -- with the records of every batch up to that one,
    and it does not end while every batch is full. *)
Theorem pagination_termination :
  (forall server, exists r, JulesPRScraper.fetch_all_prs_api 10 server = Some r) /\
  (forall fuel server k per_page page all_prs log status_code items,
     server k = Response status_code items ->
     status_code <> 403%Z -> raise_for_status status_code = false ->
     JulesPRScraper.fetch_all_prs_api_loop (S fuel) server k per_page page all_prs log
     = if is_empty items then Some (all_prs, log ++ [Get page])
       else if negb (List.length items =? per_page)
            then Some (all_prs ++ items, log ++ [Get page])
       else if 1000 <=? List.length (all_prs ++ items)
            then Some (all_prs ++ items, (log ++ [Get page]) ++ [Sleep 1])
       else JulesPRScraper.fetch_all_prs_api_loop fuel server (S k) per_page (page + 1)
              (all_prs ++ items) ((log ++ [Get page]) ++ [Sleep 1])) /\
  (forall server per_page max_results,
     (forall j, rate_limited (server j) = false) ->
     exists r, GitHubCodeSearchProcessor.search_code_files 1001 server per_page max_results
               = Some r) /\
  (forall n fuel server,
     (forall j, j < n ->
        1000 <= List.length (BoltSupabaseScraper.fetch_gallery_projects (server j))) ->
     List.length (BoltSupabaseScraper.fetch_gallery_projects (server n)) < 1000 ->
     exists log,
       BoltSupabaseScraper.fetch_all_projects (S n + fuel) server
       = Some (batches server 0 (S n), log)) /\
  (forall fuel server,
     (forall j, 1000 <= List.length (BoltSupabaseScraper.fetch_gallery_projects (server j))) ->
     BoltSupabaseScraper.fetch_all_projects fuel server = None).
Proof.
  split; [|split; [|split; [|split]]].
  - intros server. apply jules_loop_terminates. simpl. lia.
  - intros fuel server k per_page page all_prs log st items Hk H403 Hst.
    apply Z.eqb_neq in H403.
    transitivity
      (let (its, has_more) := JulesPRScraper.fetch_jules_prs_api per_page (server k) in
       if is_empty its then Some (all_prs, log ++ [Get page])
       else if negb has_more then Some (all_prs ++ its, log ++ [Get page])
       else if 1000 <=? List.length (all_prs ++ its)
            then Some (all_prs ++ its, (log ++ [Get page]) ++ [Sleep 1])
       else JulesPRScraper.fetch_all_prs_api_loop fuel server (S k) per_page (page + 1)
              (all_prs ++ its) ((log ++ [Get page]) ++ [Sleep 1])); [reflexivity|].
    rewrite Hk. unfold JulesPRScraper.fetch_jules_prs_api. rewrite H403, Hst. reflexivity.
  - intros server per_page max_results Hno. apply search_loop_terminates; [exact Hno|].
    simpl. lia.
  - intros n fuel server Hfull Hshort.
    apply (bolt_stops_at_short_page n fuel server 0 1000 0 [] []); auto; lia.
  - intros fuel server Hfull. apply bolt_never_stops; [lia | exact Hfull].
Qed.

Lemma full_page_length : List.length full_page = 1000.
Proof. apply repeat_length. Qed.

Lemma pagination_termination_witness :
  exists log,
    BoltSupabaseScraper.fetch_all_projects (2 + 0) two_pages
    = Some (batches two_pages 0 2, log).
Proof.
  apply (proj1 (proj2 (proj2 (proj2 pagination_termination))) 1 0 two_pages).
  - intros j Hj. assert (j = 0) as -> by lia.
    change (1000 <= List.length full_page). rewrite full_page_length. apply le_n.
  - change (1 < 1000). lia.
Defined.

(** C9 (as stated) fails: against a gallery that answers every request
    with a full page of 1000 projects, no number of iterations ends
    [fetch_all_projects]. *)
Lemma pagination_without_ceiling_runs_on :
  ~ exists fuel r, BoltSupabaseScraper.fetch_all_projects fuel endless_full_pages = Some r.
Proof.
  intros (fuel & r & H).
  unfold BoltSupabaseScraper.fetch_all_projects in H.
  rewrite bolt_never_stops in H; [discriminate | lia |].
  intros j. change (1000 <= List.length full_page). rewrite full_page_length. apply le_n.
Qed.

End Fetching.

(** * Further properties *)

(** ** The community id of a v0 URL *)

Section ExtractV0.

Import V0DataProcessor.
Local Open Scope string_scope.

Lemma strip_prefix_app p : forall s rest, strip_prefix p s = Some rest -> s = p ++ rest.
Proof.
  induction p as [|a p IH]; intros s rest H; simpl in *.
  - inversion H. reflexivity.
  - destruct s as [|b s]; [discriminate|].
    destruct (Ascii.eqb a b) eqn:E; [|discriminate].
    apply Ascii.eqb_eq in E. subst. f_equal. apply IH, H.
Qed.

Lemma strip_prefix_self p : forall rest, strip_prefix p (p ++ rest) = Some rest.
Proof.
  induction p as [|a p IH]; intros rest; simpl; [reflexivity|].
  rewrite Ascii.eqb_refl. apply IH.
Qed.

Lemma take_id_split s :
  exists rest, s = take_id s ++ rest /\ no_separator (take_id s) = true /\ at_separator rest.
Proof.
  induction s as [|c s (rest & Hs & Hn & Hr)]; simpl.
  - exists "". simpl. auto.
  - destruct (Ascii.eqb c "/" || Ascii.eqb c "?") eqn:E.
    + exists (String c s). simpl. split; [reflexivity|]. split; [reflexivity|].
      apply orb_true_iff in E as [E | E]; apply Ascii.eqb_eq in E; auto.
    + exists rest. simpl. rewrite E, Hn. split; [f_equal; exact Hs|].
      split; [reflexivity | exact Hr].
Qed.

Lemma take_id_app id : forall rest,
  no_separator id = true -> at_separator rest -> take_id (id ++ rest) = id.
Proof.
  induction id as [|c id IH]; intros rest Hn Hr; simpl in *.
  - destruct rest as [|c r]; [reflexivity|]. simpl in *.
    destruct Hr as [-> | ->]; reflexivity.
  - apply andb_prop in Hn as [Hc Hn]. apply negb_true_iff in Hc. rewrite Hc.
    f_equal. apply IH; assumption.
Qed.

Lemma extract_unfold url :
  _extract_v0_id url
  = match here url with
    | Some id => Some id
    | None =>
        match url with
        | EmptyString => None
        | String _ url' => _extract_v0_id url'
        end
    end.
Proof. destruct url; reflexivity. Qed.

Lemma here_sound url id :
  here url = Some id ->
  id <> "" /\ no_separator id = true /\
  exists rest, url = "/community/" ++ id ++ rest /\ at_separator rest.
Proof.
  unfold here. destruct (strip_prefix "/community/" url) as [tail|] eqn:Hs; [|discriminate].
  apply strip_prefix_app in Hs.
  destruct (take_id_split tail) as (rest & Ht & Hn & Hr).
  destruct (take_id tail) as [|c i] eqn:Hid; [discriminate|].
  intros H. inversion H. subst id. split; [discriminate|]. split; [exact Hn|].
  exists rest. split; [|exact Hr]. rewrite Hs. f_equal. exact Ht.
Qed.

Lemma here_complete c rest :
  c <> "/"%char -> c <> "?"%char ->
  exists id, here ("/community/" ++ String c rest) = Some id.
Proof.
  intros H1 H2. unfold here. rewrite strip_prefix_self.
  cbn [take_id].
  apply Ascii.eqb_neq in H1, H2. rewrite H1, H2. simpl. eauto.
Qed.

(** X1. A community id that [_extract_v0_id] returns is not empty, holds
    no [/] and no [?], and stands in the URL right after ["/community/"],
    up to the end of the text or the next [/] or [?]; and an id is
    returned whenever ["/community/"] is followed somewhere by a character
    other than [/] and [?]. *)
Theorem extract_v0_id_characterised :
  (forall url id,
     _extract_v0_id url = Some id ->
     id <> "" /\ no_separator id = true /\
     exists before rest,
       url = before ++ "/community/" ++ id ++ rest /\ at_separator rest) /\
  (forall before c rest,
     c <> "/"%char -> c <> "?"%char ->
     exists id, _extract_v0_id (before ++ "/community/" ++ String c rest) = Some id).
Proof.
  split.
  - induction url as [|a url IH]; intros id H; rewrite extract_unfold in H.
    + discriminate.
    + destruct (here (String a url)) as [i|] eqn:Hh.
      * inversion H. subst i. apply here_sound in Hh as (Hne & Hn & rest & Hu & Hr).
        split; [exact Hne|]. split; [exact Hn|]. exists "", rest. auto.
      * destruct (IH id H) as (Hne & Hn & before & rest & Hu & Hr).
        split; [exact Hne|]. split; [exact Hn|].
        exists (String a before), rest. split; [|exact Hr]. simpl. f_equal. exact Hu.
  - induction before as [|a before IH]; intros c rest H1 H2; rewrite extract_unfold.
    + destruct (here_complete c rest H1 H2) as (id & Hid).
      change ("" ++ "/community/" ++ String c rest) with ("/community/" ++ String c rest).
      rewrite Hid. eauto.
    + destruct (here (String a before ++ "/community/" ++ String c rest)); [eauto|].
      apply IH; assumption.
Qed.

Lemma extract_v0_id_characterised_witness :
  exists id, _extract_v0_id ("https://v0.app" ++ "/community/" ++ String "a" "bc?x=1") = Some id.
Proof.
  apply (proj2 extract_v0_id_characterised "https://v0.app" "a"%char "bc?x=1"); discriminate.
Defined.

Lemma here_none_without_c a before tail :
  occurs "/c" (String a before) = false ->
  here (String a before ++ "/community/" ++ tail) = None.
Proof.
  intros Ho. unfold here.
  destruct (strip_prefix "/community/" _) as [r|] eqn:Hs; [|reflexivity].
  exfalso. apply strip_prefix_app in Hs.
  cbn [occurs] in Ho.
  destruct before as [|b before].
  - simpl in Hs. inversion Hs.
  - simpl in Hs. inversion Hs. subst a b.
    simpl in Ho. discriminate.
Qed.

Lemma occurs_tail pattern a s : occurs pattern (String a s) = false -> occurs pattern s = false.
Proof.
  cbn [occurs]. destruct (strip_prefix pattern (String a s)); [discriminate | auto].
Qed.

(** X2. Round trip: in a URL made of a part without ["/c"], then
    ["/community/"], then an id (not empty, without [/] and [?]) that runs
    to the end of the text or to a [/] or [?], [_extract_v0_id] finds
    that id. *)
Theorem extract_v0_id_round_trip :
  forall before id rest,
    occurs "/c" before = false ->
    id <> "" -> no_separator id = true -> at_separator rest ->
    _extract_v0_id (before ++ "/community/" ++ id ++ rest) = Some id.
Proof.
  induction before as [|a before IH]; intros id rest Ho Hne Hn Hr; rewrite extract_unfold.
  - change ("" ++ "/community/" ++ id ++ rest) with ("/community/" ++ id ++ rest).
    unfold here. rewrite strip_prefix_self, take_id_app by assumption.
    destruct id; [contradiction | reflexivity].
  - rewrite here_none_without_c by exact Ho.
    cbn [append]. apply IH; auto. eapply occurs_tail; eauto.
Qed.

Lemma extract_v0_id_round_trip_witness :
  _extract_v0_id ("https://v0.app" ++ "/community/" ++ "weather-app-x1" ++ "?ref=home")
  = Some "weather-app-x1".
Proof.
  apply (extract_v0_id_round_trip "https://v0.app" "weather-app-x1" "?ref=home").
  - reflexivity.
  - discriminate.
  - reflexivity.
  - simpl. auto.
Defined.

End ExtractV0.

(** ** What a run of process_data.py keeps *)

Section IngestionInvariants.

Import GitHubDataProcessor.

Lemma next_rowid_fresh (t : list application) i :
  In i (map a_id t) -> i < next_rowid t.
Proof.
  unfold next_rowid. destruct (map a_id t) as [|x l]; simpl; [tauto|].
  intros [<- | Hin].
  - pose proof (fold_max_ge_seq x l). lia.
  - pose proof (fold_max_ge_in x l i Hin). lia.
Qed.

Lemma NoDup_snoc {A} (l : list A) x : NoDup l -> ~ In x l -> NoDup (l ++ [x]).
Proof.
  induction l as [|y l IH]; simpl; intros Hnd Hx.
  - constructor; [tauto | constructor].
  - inversion Hnd as [|? ? Hy Hl]; subst. constructor.
    + rewrite in_app_iff. simpl. intros [H | [H | []]]; [tauto|]. subst. tauto.
    + apply IH; tauto.
Qed.

Lemma upsert_keeps_ids_unique now d db :
  ids_unique db -> ids_unique (snd (_insert_or_update_application now d db)).
Proof.
  unfold ids_unique. intros Hnd. pose proof (upsert_cases now d db) as H.
  destruct (_insert_or_update_application now d db) as [res db']. simpl.
  destruct H as [_ [(e & _ & ->) | [(row & n & u & dsc & _ & _ & _ & Ha) | (n & u & dsc & _ & _ & _ & Ha)]]].
  - exact Hnd.
  - rewrite Ha, map_map.
    erewrite map_ext; [exact Hnd|].
    intros r. destruct (a_id r =? a_id row); reflexivity.
  - rewrite Ha, map_app. simpl.
    apply NoDup_snoc; [exact Hnd|].
    intros Hin. apply next_rowid_fresh in Hin. lia.
Qed.

Lemma upsert_keeps_rows now d db k r :
  nth_error (applications db) k = Some r ->
  exists r', nth_error (applications (snd (_insert_or_update_application now d db))) k = Some r' /\
             same_identity r r'.
Proof.
  intros Hk. pose proof (upsert_cases now d db) as H.
  destruct (_insert_or_update_application now d db) as [res db']. simpl.
  destruct H as [_ [(e & _ & ->) | [(row & n & u & dsc & _ & _ & _ & Ha) | (n & u & dsc & _ & _ & _ & Ha)]]].
  - exists r. unfold same_identity. auto.
  - rewrite Ha, nth_error_map, Hk. simpl.
    eexists; split; [reflexivity|].
    destruct (a_id r =? a_id row); unfold same_identity; simpl; auto.
  - rewrite Ha, nth_error_app1 by (apply nth_error_Some; congruence).
    exists r. unfold same_identity. auto.
Qed.

Lemma upsert_length now d db :
  (List.length (applications db)
   <= List.length (applications (snd (_insert_or_update_application now d db)))
   <= List.length (applications db) + 1)%nat.
Proof.
  pose proof (upsert_cases now d db) as H.
  destruct (_insert_or_update_application now d db) as [res db']. simpl.
  destruct H as [_ [(e & _ & ->) | [(row & n & u & dsc & _ & _ & _ & Ha) | (n & u & dsc & _ & _ & _ & Ha)]]].
  - lia.
  - rewrite Ha, length_map. lia.
  - rewrite Ha, length_app. simpl. lia.
Qed.

Lemma same_identity_trans r1 r2 r3 :
  same_identity r1 r2 -> same_identity r2 r3 -> same_identity r1 r3.
Proof. unfold same_identity. intuition congruence. Qed.

Context {X : Type} (extract : X -> result (option app_data)).

Lemma ingest_keeps_ids_unique now xs : forall db,
  ids_unique db -> ids_unique (fold_left (ingest_step extract now) xs db).
Proof.
  induction xs as [|x xs IH]; simpl; intros db H; [exact H|].
  apply IH. unfold ingest_step. destruct (extract x) as [[d|]|]; auto.
  apply upsert_keeps_ids_unique, H.
Qed.

Lemma ingest_keeps_key_unique now xs : forall db,
  key_unique db -> key_unique (fold_left (ingest_step extract now) xs db).
Proof.
  induction xs as [|x xs IH]; simpl; intros db H; [exact H|].
  apply IH. unfold ingest_step. destruct (extract x) as [[d|]|]; auto.
  apply upsert_keeps_key_unique, H.
Qed.

Lemma ingest_keeps_rows now xs : forall db k r,
  nth_error (applications db) k = Some r ->
  exists r', nth_error (applications (fold_left (ingest_step extract now) xs db)) k = Some r' /\
             same_identity r r'.
Proof.
  induction xs as [|x xs IH]; simpl; intros db k r Hk.
  - exists r. unfold same_identity. auto.
  - assert (exists r1, nth_error (applications (ingest_step extract now db x)) k = Some r1 /\
                       same_identity r r1) as (r1 & H1 & S1).
    { unfold ingest_step. destruct (extract x) as [[d|]|].
      - apply upsert_keeps_rows, Hk.
      - exists r. unfold same_identity. auto.
      - exists r. unfold same_identity. auto. }
    destruct (IH _ _ _ H1) as (r' & H' & S').
    exists r'. split; [exact H'|]. eapply same_identity_trans; eauto.
Qed.

Lemma ingest_length now xs : forall db,
  (List.length (applications db)
   <= List.length (applications (fold_left (ingest_step extract now) xs db))
   <= List.length (applications db) + List.length xs)%nat.
Proof.
  induction xs as [|x xs IH]; simpl; intros db; [lia|].
  specialize (IH (ingest_step extract now db x)).
  assert (List.length (applications db)
          <= List.length (applications (ingest_step extract now db x))
          <= List.length (applications db) + 1)%nat.
  { unfold ingest_step. destruct (extract x) as [[d|]|]; try lia. apply upsert_length. }
  lia.
Qed.

Lemma present_count ad db :
  present ad db = true -> (1 <= count_key (ad_platform_id ad) (ad_external_id ad) db)%nat.
Proof.
  unfold present, count_key. rewrite existsb_find.
  destruct (find _ (applications db)) eqn:Hf; [|discriminate].
  intros _. eapply find_some_filter; eauto.
Qed.

Lemma ingest_exactly_one now xs db x ad :
  key_unique db ->
  In x xs -> extract x = Ok (Some ad) -> bind_fields ad <> None ->
  count_key (ad_platform_id ad) (ad_external_id ad)
            (fold_left (ingest_step extract now) xs db) = 1%nat.
Proof.
  intros Hu Hin Hx Hb.
  pose proof (ingest_keeps_key_unique now xs db Hu (ad_platform_id ad) (ad_external_id ad)).
  pose proof (present_count ad _ (ingest_settles extract now xs db x ad Hin Hx Hb)).
  lia.
Qed.

End IngestionInvariants.

Section Runs.

Lemma github_run_as_fold str now data platform_name db :
  GitHubDataProcessor.process_github_search_results str now data platform_name db = db \/
  exists platform_id items,
    get_platform_id db platform_name = Some platform_id /\ platform_id <> 0 /\
    get data "items" (JList []) = JList items /\
    GitHubDataProcessor.process_github_search_results str now data platform_name db
    = fold_left (ingest_step (GitHubDataProcessor.application_of_item str platform_id) now)
                items db.
Proof.
  unfold GitHubDataProcessor.process_github_search_results.
  destruct (get_platform_id db platform_name) as [pid|]; [|left; reflexivity].
  destruct (pid =? 0) eqn:Hz; [left; reflexivity|].
  destruct (get data "items" (JList [])) as [| | | | |items|]; try (left; reflexivity).
  right. exists pid, items. apply Z.eqb_neq in Hz. auto.
Qed.

Lemma v0_run_as_fold now urls platform_name db :
  V0DataProcessor.process_v0_urls now urls platform_name db = db \/
  exists platform_id,
    get_platform_id db platform_name = Some platform_id /\ platform_id <> 0 /\
    V0DataProcessor.process_v0_urls now urls platform_name db
    = fold_left (ingest_step (V0DataProcessor.application_of_url platform_id) now) urls db.
Proof.
  unfold V0DataProcessor.process_v0_urls.
  destruct (get_platform_id db platform_name) as [pid|]; [|left; reflexivity].
  destruct (pid =? 0) eqn:Hz; [left; reflexivity|].
  right. exists pid. apply Z.eqb_neq in Hz. auto.
Qed.

(** X3. A run of [process_github_search_results] or of [process_v0_urls]
    only adds to the store: [platforms] is left as it is, every row of
    [applications] stays at its place with its id, platform, external id
    and creation time, and at most one row per element of the input is
    added. *)
Theorem ingestion_only_adds :
  (forall str now data platform_name db,
     let db' := GitHubDataProcessor.process_github_search_results str now data platform_name db in
     platforms db' = platforms db /\
     (forall k r, nth_error (applications db) k = Some r ->
        exists r', nth_error (applications db') k = Some r' /\ same_identity r r') /\
     (List.length (applications db) <= List.length (applications db'))%nat /\
     (forall items, get data "items" (JList []) = JList items ->
        (List.length (applications db')
         <= List.length (applications db) + List.length items)%nat)) /\
  (forall now urls platform_name db,
     let db' := V0DataProcessor.process_v0_urls now urls platform_name db in
     platforms db' = platforms db /\
     (forall k r, nth_error (applications db) k = Some r ->
        exists r', nth_error (applications db') k = Some r' /\ same_identity r r') /\
     (List.length (applications db) <= List.length (applications db')
      <= List.length (applications db) + List.length urls)%nat).
Proof.
  split.
  - intros str now data platform_name db db'. subst db'.
    destruct (github_run_as_fold str now data platform_name db)
      as [-> | (pid & items & _ & _ & Hi & ->)].
    + split; [reflexivity|]. split; [|split; [lia | intros; lia]].
      intros k r Hk. exists r. unfold same_identity. auto.
    + split; [apply ingest_platforms|]. split; [apply ingest_keeps_rows|].
      split; [apply ingest_length|].
      intros items' Hi'. rewrite Hi in Hi'. inversion Hi'. subst items'.
      apply ingest_length.
  - intros now urls platform_name db db'. subst db'.
    destruct (v0_run_as_fold now urls platform_name db) as [-> | (pid & _ & _ & ->)].
    + split; [reflexivity|]. split; [|lia].
      intros k r Hk. exists r. unfold same_identity. auto.
    + split; [apply ingest_platforms|]. split; [apply ingest_keeps_rows|].
      apply ingest_length.
Qed.

(** X4. The primary key of [applications] survives the upsert and the
    runs: when no id is held by two rows before, none is after an upsert,
    after a run of [process_github_search_results] or after a run of
    [process_v0_urls]. *)
Theorem ingestion_keeps_ids_unique :
  forall db, ids_unique db ->
    (forall upsert now d, In upsert upserts -> ids_unique (snd (upsert now d db))) /\
    (forall str now data platform_name,
       ids_unique (GitHubDataProcessor.process_github_search_results
                     str now data platform_name db)) /\
    (forall now urls platform_name,
       ids_unique (V0DataProcessor.process_v0_urls now urls platform_name db)).
Proof.
  intros db Hnd. split; [|split].
  - intros upsert now d Hin. revert now d. pattern upsert. revert upsert Hin.
    apply upserts_inv. intros now d. apply upsert_keeps_ids_unique, Hnd.
  - intros str now data platform_name.
    destruct (github_run_as_fold str now data platform_name db)
      as [-> | (pid & items & _ & _ & _ & ->)]; [exact Hnd|].
    apply ingest_keeps_ids_unique, Hnd.
  - intros now urls platform_name.
    destruct (v0_run_as_fold now urls platform_name db) as [-> | (pid & _ & _ & ->)];
      [exact Hnd|].
    apply ingest_keeps_ids_unique, Hnd.
Qed.

Lemma ingestion_keeps_ids_unique_witness :
  ids_unique (GitHubDataProcessor.process_github_search_results
                str_of_scalar "t1" renamed_search_results "github.com" frame_db).
Proof.
  apply (proj1 (proj2 (ingestion_keeps_ids_unique frame_db
           ltac:(unfold ids_unique; simpl; repeat constructor; simpl; intuition discriminate)))).
Defined.

(** X5. Every search hit is stored once: in a store where no identity key
    is held by two rows, after a run of [process_github_search_results]
    for a known platform none is, and every item of the input that names a
    repository id and whose id text, name, url and description can be
    bound has exactly one row, under that platform and the text of its
    id. *)
Theorem github_run_stores_each_repository_once :
  forall str now data platform_name db platform_id items,
    key_unique db ->
    get_platform_id db platform_name = Some platform_id ->
    platform_id <> 0 ->
    get data "items" (JList []) = JList items ->
    let db' := GitHubDataProcessor.process_github_search_results str now data platform_name db in
    key_unique db' /\
    (forall item app_data,
       In item items ->
       GitHubDataProcessor.application_of_item str platform_id item = Ok (Some app_data) ->
       bind_fields app_data <> None ->
       count_key platform_id (ad_external_id app_data) db' = 1%nat).
Proof.
  intros str now data platform_name db pid items Hu Hp Hz Hi db'. subst db'.
  unfold GitHubDataProcessor.process_github_search_results.
  rewrite Hp, Hi. apply Z.eqb_neq in Hz. rewrite Hz.
  change (GitHubDataProcessor.process_item str now pid)
    with (ingest_step (GitHubDataProcessor.application_of_item str pid) now).
  split; [apply ingest_keeps_key_unique, Hu|].
  intros item ad Hin Hx Hb.
  assert (ad_platform_id ad = pid) as Hpid.
  { unfold GitHubDataProcessor.application_of_item in Hx.
    destruct item as [| | | | | |o]; try discriminate.
    destruct (get o "repository" (JObj [])) as [| | | | | |ri]; try discriminate.
    destruct (negb (truthy (get1 ri "id"))); inversion Hx. reflexivity. }
  pose proof (ingest_exactly_one (GitHubDataProcessor.application_of_item str pid)
                now items db item ad Hu Hin Hx Hb) as H1.
  rewrite Hpid in H1. exact H1.
Qed.

Lemma github_run_stores_each_repository_once_witness :
  let db' := GitHubDataProcessor.process_github_search_results
               str_of_scalar "t1" renamed_search_results "github.com" frame_db in
  key_unique db' /\
  (forall item app_data,
     In item [JObj [("name", JStr "AGENTS.md");
                    ("repository", JObj [("id", JNum 42);
                                         ("full_name", JStr "c/renamed");
                                         ("html_url", JStr "https://github.com/c/renamed");
                                         ("description", JStr "moved")])]] ->
     GitHubDataProcessor.application_of_item str_of_scalar 7 item = Ok (Some app_data) ->
     bind_fields app_data <> None ->
     count_key 7 (ad_external_id app_data) db' = 1%nat).
Proof.
  apply (github_run_stores_each_repository_once str_of_scalar "t1" renamed_search_results
           "github.com" frame_db 7).
  - intros p e. unfold count_key, frame_db. cbn [applications filter].
    destruct (key_matches p e first_row) eqn:H1; destruct (key_matches p e frame_row) eqn:H2;
      cbn [List.length]; try lia.
    apply key_matches_inv in H1, H2. simpl in *. destruct H1, H2. congruence.
  - reflexivity.
  - discriminate.
  - reflexivity.
Defined.

Lemma has_surrogate_app_r a : forall b,
  has_surrogate (a ++ b)%string = false -> has_surrogate b = false.
Proof.
  induction a as [|c a IH]; intros b H; [exact H|].
  change (surrogate_at (String c (a ++ b)) || has_surrogate (a ++ b)%string = false) in H.
  apply orb_false_elim in H as [_ H]. apply IH, H.
Qed.

Lemma has_surrogate_app_l a : forall b,
  has_surrogate (a ++ b)%string = false -> has_surrogate a = false.
Proof.
  induction a as [|c a IH]; intros b H; [reflexivity|].
  change (surrogate_at (String c (a ++ b)) || has_surrogate (a ++ b)%string = false) in H.
  apply orb_false_elim in H as [H1 H2].
  change (surrogate_at (String c a) || has_surrogate a = false).
  rewrite (IH b H2), orb_false_r.
  destruct a as [|c' a]; [unfold surrogate_at; destruct (_ =? _)%nat; reflexivity|].
  exact H1.
Qed.

Lemma extract_position : forall url id,
  V0DataProcessor._extract_v0_id url = Some id ->
  exists before rest, url = (before ++ "/community/" ++ id ++ rest)%string.
Proof.
  induction url as [|a url IH]; intros id H; rewrite extract_unfold in H; [discriminate|].
  destruct (here (String a url)) as [i|] eqn:Hh.
  - inversion H. subst i. apply here_sound in Hh as (_ & _ & rest & Hu & _).
    exists ""%string, rest. exact Hu.
  - destruct (IH id H) as (before & rest & ->).
    exists (String a before), rest. reflexivity.
Qed.

(** A record made from a URL without a surrogate can be bound. *)
Lemma v0_record_bindable platform_id url community_id :
  has_surrogate url = false ->
  V0DataProcessor._extract_v0_id url = Some community_id ->
  bind_fields {| ad_platform_id := platform_id; ad_external_id := community_id;
                 ad_name := JStr ("v0 Community App " ++ community_id)%string;
                 ad_url := JStr url;
                 ad_description := JStr "v0.dev community application" |} <> None.
Proof.
  intros Hs Hx. destruct (extract_position url community_id Hx) as (before & rest & Hu).
  assert (Hc : has_surrogate community_id = false).
  { rewrite Hu in Hs. apply has_surrogate_app_r in Hs. apply has_surrogate_app_r in Hs.
    apply has_surrogate_app_l in Hs. exact Hs. }
  unfold bind_fields. cbn [ad_external_id ad_name ad_url ad_description bind].
  rewrite Hc, Hs.
  change (has_surrogate ("v0 Community App " ++ community_id)%string)
    with (has_surrogate community_id).
  rewrite Hc. discriminate.
Qed.

(** X6. Every community URL is stored once: in a store where no identity
    key is held by two rows, after a run of [process_v0_urls] for a known
    platform none is, and every URL of the input that holds no surrogate
    (so that it can be encoded as UTF-8) and in which a community id is
    found has exactly one row, under that platform and that id -- however
    many URLs of the input carry the id. *)
Theorem v0_run_stores_each_community_id_once :
  forall now urls platform_name db platform_id,
    key_unique db ->
    get_platform_id db platform_name = Some platform_id ->
    platform_id <> 0 ->
    let db' := V0DataProcessor.process_v0_urls now urls platform_name db in
    key_unique db' /\
    (forall url community_id,
       In (JStr url) urls ->
       has_surrogate url = false ->
       V0DataProcessor._extract_v0_id url = Some community_id ->
       count_key platform_id community_id db' = 1%nat).
Proof.
  intros now urls platform_name db pid Hu Hp Hz db'. subst db'.
  unfold V0DataProcessor.process_v0_urls.
  rewrite Hp. apply Z.eqb_neq in Hz. rewrite Hz.
  change (V0DataProcessor.process_url now pid)
    with (ingest_step (V0DataProcessor.application_of_url pid) now).
  split; [apply ingest_keeps_key_unique, Hu|].
  intros url c Hin Hs Hx.
  apply (ingest_exactly_one (V0DataProcessor.application_of_url pid) now urls db (JStr url)
           {| ad_platform_id := pid; ad_external_id := c;
              ad_name := JStr ("v0 Community App " ++ c)%string;
              ad_url := JStr url;
              ad_description := JStr "v0.dev community application" |}); auto.
  - unfold V0DataProcessor.application_of_url. rewrite Hx. reflexivity.
  - apply v0_record_bindable; assumption.
Qed.

End Runs.

Section RunsWitnesses.

Lemma ingestion_only_adds_witness :
  let db' := V0DataProcessor.process_v0_urls "t1" v0_urls "v0.dev" v0_db in
  platforms db' = platforms v0_db /\
  (forall k r, nth_error (applications v0_db) k = Some r ->
     exists r', nth_error (applications db') k = Some r' /\ same_identity r r') /\
  (List.length (applications v0_db) <= List.length (applications db')
   <= List.length (applications v0_db) + List.length v0_urls)%nat.
Proof.
  apply (proj2 ingestion_only_adds "t1" v0_urls "v0.dev" v0_db).
Defined.

Lemma v0_run_stores_each_community_id_once_witness :
  let db' := V0DataProcessor.process_v0_urls "t1" v0_urls "v0.dev" v0_db in
  key_unique db' /\ count_key 1 "weather-app-x1" db' = 1%nat.
Proof.
  destruct (v0_run_stores_each_community_id_once "t1" v0_urls "v0.dev" v0_db 1) as [Hk H].
  - intros p e. unfold count_key. simpl. lia.
  - reflexivity.
  - discriminate.
  - split; [exact Hk|].
    apply (H "https://v0.app/community/weather-app-x1"); [left | |]; reflexivity.
Defined.

End RunsWitnesses.

(** ** The table of AI tools *)

Section AiTools.

Lemma next_tool_id_fresh (t : list ai_tool) i : In i (map t_id t) -> i < next_tool_id t.
Proof.
  unfold next_tool_id. destruct (map t_id t) as [|x l]; simpl; [tauto|].
  intros [<- | Hin].
  - pose proof (fold_max_ge_seq x l). lia.
  - pose proof (fold_max_ge_in x l i Hin). lia.
Qed.

Lemma find_tool_none name (t : list ai_tool) :
  find (fun r => String.eqb (t_name r) name) t = None -> ~ In name (map t_name t).
Proof.
  induction t as [|r t IH]; simpl; [tauto|].
  destruct (String.eqb (t_name r) name) eqn:E; [discriminate|].
  apply String.eqb_neq in E. intros Hf [H | H]; [contradiction | exact (IH Hf H)].
Qed.

(** X7. [get_or_create_ai_tool] creates a tool once: a second call with
    the same name returns the id of the first call and leaves the table
    as the first call left it, whatever category and provider it is given;
    the rows of before the first call are kept as they are, and names and
    ids that were held by no two rows before are held by no two rows
    after. *)
Theorem get_or_create_ai_tool_once :
  forall name category1 provider1 category2 provider2 t,
    let r1 := get_or_create_ai_tool name category1 provider1 t in
    let r2 := get_or_create_ai_tool name category2 provider2 (snd r1) in
    fst r2 = fst r1 /\ snd r2 = snd r1 /\
    (exists added, snd r1 = t ++ added /\ (List.length added <= 1)%nat) /\
    (exists row, In row (snd r1) /\ t_name row = name /\ t_id row = fst r1) /\
    (tool_names_unique t -> tool_names_unique (snd r1)) /\
    (NoDup (map t_id t) -> NoDup (map t_id (snd r1))).
Proof.
  intros name c1 p1 c2 p2 t r1 r2. subst r1 r2.
  destruct (find (fun r => String.eqb (t_name r) name) t) as [row|] eqn:Hf.
  - assert (E1 : get_or_create_ai_tool name c1 p1 t = (t_id row, t))
      by (unfold get_or_create_ai_tool; rewrite Hf; reflexivity).
    rewrite E1. cbn [fst snd].
    assert (E2 : get_or_create_ai_tool name c2 p2 t = (t_id row, t))
      by (unfold get_or_create_ai_tool; rewrite Hf; reflexivity).
    rewrite E2. cbn [fst snd].
    split; [reflexivity|]. split; [reflexivity|].
    split; [exists []; rewrite app_nil_r; split; [reflexivity | simpl; lia]|].
    split; [|split; auto].
    apply find_some in Hf as [Hin Hn]. apply String.eqb_eq in Hn. eauto.
  - assert (E1 : get_or_create_ai_tool name c1 p1 t
                 = (next_tool_id t,
                    t ++ [{| t_id := next_tool_id t; t_name := name;
                             t_category := c1; t_provider := p1 |}]))
      by (unfold get_or_create_ai_tool; rewrite Hf; reflexivity).
    rewrite E1. cbn [fst snd].
    assert (E2 : get_or_create_ai_tool name c2 p2
                   (t ++ [{| t_id := next_tool_id t; t_name := name;
                             t_category := c1; t_provider := p1 |}])
                 = (next_tool_id t,
                    t ++ [{| t_id := next_tool_id t; t_name := name;
                             t_category := c1; t_provider := p1 |}])).
    { unfold get_or_create_ai_tool.
      rewrite (find_app_none_last _ t _ Hf) by (simpl; apply String.eqb_refl).
      reflexivity. }
    rewrite E2. cbn [fst snd].
    split; [reflexivity|]. split; [reflexivity|].
    split; [eexists; split; [reflexivity | simpl; lia]|].
    split; [|split].
    + eexists. split; [apply in_or_app; right; left; reflexivity|]. auto.
    + unfold tool_names_unique. intros Hnd. rewrite map_app. simpl.
      apply NoDup_snoc; [exact Hnd|]. apply find_tool_none, Hf.
    + intros Hnd. rewrite map_app. simpl. apply NoDup_snoc; [exact Hnd|].
      intros Hin. apply next_tool_id_fresh in Hin. lia.
Qed.

Lemma get_or_create_ai_tool_once_witness :
  let r1 := get_or_create_ai_tool "Claude" None None one_tool in
  tool_names_unique (snd r1) /\ NoDup (map t_id (snd r1)).
Proof.
  destruct (get_or_create_ai_tool_once "Claude" None None None None one_tool)
    as (_ & _ & _ & _ & Hn & Hi).
  split.
  - apply Hn. unfold tool_names_unique. simpl. repeat constructor; simpl; tauto.
  - apply Hi. simpl. repeat constructor; simpl; tauto.
Defined.

End AiTools.

(** ** What a run of data_integration.py keeps and counts *)

Section IntegrationInvariants.

Import DataIntegration.

(** The three ways [insert_app] ends. *)
Lemma insert_app_cases now ad c s :
  insert_app now ad (c, s) = (None, (c, incr_errors s)) \/
  insert_app now ad (c, s) = (None, (c, incr_duplicates_skipped s)) \/
  exists row,
    row_of_app_data now ad (autoincrement (apps_seq (stored c)) (map r_id (apps (stored c))))
    = Some row /\
    insert_app now ad (c, s)
    = if last_insert_rowid (insert_or_ignore row c) =? 0
      then (None, (insert_or_ignore row c, incr_duplicates_skipped s))
      else (Some (last_insert_rowid (insert_or_ignore row c)),
            (insert_or_ignore row c, incr_total_processed s)).
Proof.
  unfold insert_app.
  destruct (row_of_app_data now ad _) as [row|] eqn:Hr.
  - destruct (truthy (get1 ad "url")).
    + destruct (bind (get1 ad "url")) as [u|]; [|left; reflexivity].
      destruct (select_by_url u (apps (stored c))); [right; left; reflexivity|].
      right; right. exists row. split; reflexivity.
    + right; right. exists row. split; reflexivity.
  - destruct (truthy (get1 ad "url")); [|left; reflexivity].
    destruct (bind (get1 ad "url")) as [u|]; [|left; reflexivity].
    destruct (select_by_url u (apps (stored c))); [right; left; reflexivity | left; reflexivity].
Qed.

Lemma insert_or_ignore_platforms row c :
  platforms (stored (insert_or_ignore row c)) = platforms (stored c) /\
  platforms_seq (stored (insert_or_ignore row c)) = platforms_seq (stored c).
Proof. unfold insert_or_ignore. destruct (violates_unique row (apps (stored c))); auto. Qed.

(** [insert_app] accounts for every record under exactly one of its three
    counters, leaves the counters of the sources alone and does not touch
    [platforms]; it returns an id exactly when it counts the record as
    processed. *)
Lemma insert_app_counts now ad c s :
  let r := insert_app now ad (c, s) in
  accounted (snd (snd r)) = accounted s + 1 /\
  total_processed (snd (snd r))
  = total_processed s + match fst r with Some _ => 1 | None => 0 end /\
  bolt_projects (snd (snd r)) = bolt_projects s /\
  lovable_projects (snd (snd r)) = lovable_projects s /\
  jules_prs (snd (snd r)) = jules_prs s /\
  original_apps (snd (snd r)) = original_apps s /\
  platforms (stored (fst (snd r))) = platforms (stored c).
Proof.
  intros r. subst r.
  destruct (insert_app_cases now ad c s) as [-> | [-> | (row & _ & ->)]].
  - unfold accounted. simpl. repeat split; lia.
  - unfold accounted. simpl. repeat split; lia.
  - destruct (insert_or_ignore_platforms row c) as [Hp _].
    destruct (last_insert_rowid (insert_or_ignore row c) =? 0);
      unfold accounted; simpl; repeat split; try lia; exact Hp.
Qed.

Context (to_app_data : dict -> dict) (count : stats -> stats) (source : stats -> Z).

Hypothesis count_accounted : forall s, accounted (count s) = accounted s.
Hypothesis count_total : forall s, total_processed (count s) = total_processed s.
Hypothesis count_source : forall s, source (count s) = source s + 1.
Hypothesis source_untouched : forall now ad c s,
  source (snd (snd (insert_app now ad (c, s)))) = source s.

Lemma insert_step_counts now c s project :
  let st' := insert_step to_app_data count now (c, s) project in
  accounted (snd st') = accounted s + 1 /\
  source (snd st') - total_processed (snd st') = source s - total_processed s /\
  platforms (stored (fst st')) = platforms (stored c).
Proof.
  intros st'. subst st'. unfold insert_step.
  pose proof (insert_app_counts now (to_app_data project) c s) as H.
  pose proof (source_untouched now (to_app_data project) c s) as Hs.
  destruct (insert_app now (to_app_data project) (c, s)) as [[i|] [c' s']]; simpl in *.
  - rewrite count_accounted, count_total, count_source. repeat split; try lia; apply H.
  - repeat split; try lia; apply H.
Qed.

Lemma insert_steps_counts now projects : forall c s,
  let st' := fold_left (insert_step to_app_data count now) projects (c, s) in
  accounted (snd st') = accounted s + Z.of_nat (List.length projects) /\
  source (snd st') - total_processed (snd st') = source s - total_processed s /\
  platforms (stored (fst st')) = platforms (stored c).
Proof.
  induction projects as [|p projects IH]; intros c s; cbn [fold_left List.length].
  - simpl. repeat split; lia.
  - pose proof (insert_step_counts now c s p) as H1.
    destruct (insert_step to_app_data count now (c, s) p) as [c1 s1].
    specialize (IH c1 s1). simpl in *.
    destruct H1 as (A1 & B1 & C1), IH as (A2 & B2 & C2).
    repeat split; try lia; congruence.
Qed.

End IntegrationInvariants.

Section IntegrationCounts.

Import DataIntegration.

(** X8. Counters of an integration run: [insert_app] accounts for every
    record it is given under exactly one of [total_processed],
    [duplicates_skipped] and [errors]; after [process_bolt_projects] the
    three together have grown by the number of projects of the file,
    [bolt_projects] has grown by as much as [total_processed], and
    [platforms] holds what [insert_platform] left; the same holds of
    [process_lovable_projects] and [lovable_projects]. *)
Theorem integration_counters :
  (forall now app_data c s,
     accounted (snd (snd (insert_app now app_data (c, s)))) = accounted s + 1) /\
  (forall now projects c s,
     let st' := process_bolt_projects now projects (c, s) in
     accounted (snd st') = accounted s + Z.of_nat (List.length projects) /\
     bolt_projects (snd st') - total_processed (snd st')
     = bolt_projects s - total_processed s /\
     platforms (stored (fst st'))
     = platforms (stored (snd (insert_platform now "Bolt" "Bolt.new Supabase gallery projects"
                                               "https://bolt.new" "supabase_api" c)))) /\
  (forall now projects c s,
     let st' := process_lovable_projects now projects (c, s) in
     accounted (snd st') = accounted s + Z.of_nat (List.length projects) /\
     lovable_projects (snd st') - total_processed (snd st')
     = lovable_projects s - total_processed s /\
     platforms (stored (fst st'))
     = platforms (stored (snd (insert_platform now "Lovable" "Lovable.dev community projects"
                                               "https://lovable.dev" "api" c)))).
Proof.
  split; [|split].
  - intros now ad c s. apply insert_app_counts.
  - intros now projects c s st'. subst st'. rewrite process_bolt_projects_fold.
    apply (insert_steps_counts bolt_app_data incr_bolt_projects bolt_projects);
      try reflexivity.
    intros now' ad c' s'. apply insert_app_counts.
  - intros now projects c s st'. subst st'. rewrite process_lovable_projects_fold.
    apply (insert_steps_counts lovable_app_data incr_lovable_projects lovable_projects);
      try reflexivity.
    intros now' ad c' s'. apply insert_app_counts.
Qed.

End IntegrationCounts.

Section AppsTable.

Import DataIntegration.

Lemma real_eqb_sym f g : real_eqb f g = real_eqb g f.
Proof.
  destruct f as [s| s| |s m e], g as [s'| s'| |s' m' e']; simpl; try reflexivity.
  - destruct s, s'; reflexivity.
  - rewrite (Pos.eqb_sym m m'), (Z.eqb_sym e e'). destruct s, s'; reflexivity.
Qed.

Lemma sql_eq_sym a b : sql_eq a b = sql_eq b a.
Proof.
  destruct a, b; simpl; try reflexivity;
    [apply Z.eqb_sym | apply real_eqb_sym | apply String.eqb_sym].
Qed.

Lemma existsb_false {A} (f : A -> bool) l x : existsb f l = false -> In x l -> f x = false.
Proof.
  induction l as [|y l IH]; simpl; [tauto|].
  intros H [-> | Hin]; apply orb_false_elim in H as [H1 H2]; auto.
Qed.

Lemma urls_unique_snoc t row :
  urls_unique t ->
  (forall r, In r t -> sql_eq (r_url r) (r_url row) = false) ->
  urls_unique (t ++ [row]).
Proof.
  intros Hu Hrow i j r1 r2 Hi Hj He.
  destruct (Nat.lt_ge_cases i (List.length t)) as [Li | Li];
    destruct (Nat.lt_ge_cases j (List.length t)) as [Lj | Lj].
  - rewrite nth_error_app1 in Hi, Hj by assumption. eapply Hu; eauto.
  - rewrite nth_error_app1 in Hi by assumption. rewrite nth_error_app2 in Hj by assumption.
    destruct (j - List.length t)%nat as [|n]; simpl in Hj; [|destruct n; discriminate].
    inversion Hj. subst r2. apply nth_error_In in Hi. rewrite (Hrow _ Hi) in He. discriminate.
  - rewrite nth_error_app2 in Hi by assumption. rewrite nth_error_app1 in Hj by assumption.
    destruct (i - List.length t)%nat as [|n]; simpl in Hi; [|destruct n; discriminate].
    inversion Hi. subst r1. apply nth_error_In in Hj.
    rewrite sql_eq_sym, (Hrow _ Hj) in He. discriminate.
  - rewrite nth_error_app2 in Hi, Hj by assumption.
    destruct (i - List.length t)%nat as [|n] eqn:Ei; simpl in Hi; [|destruct n; discriminate].
    destruct (j - List.length t)%nat as [|m] eqn:Ej; simpl in Hj; [|destruct m; discriminate].
    lia.
Qed.

Lemma row_of_app_data_id now ad i row : row_of_app_data now ad i = Some row -> r_id row = i.
Proof.
  unfold row_of_app_data.
  repeat match goal with
         | |- context [match lookup "created_at" ?d with _ => _ end] =>
             destruct (lookup "created_at" d)
         | |- context [match bind ?v with _ => _ end] => destruct (bind v)
         end; try discriminate;
    intros H; inversion H; reflexivity.
Qed.

(** One call of [insert_app] adds at most one row, at the end, under an id
    above every id of the table, and keeps URLs and ids unique. *)
Lemma insert_app_keeps now ad c s :
  (exists added, apps_after now ad (c, s) = apps (stored c) ++ added /\
                 (List.length added <= 1)%nat) /\
  (urls_unique (apps (stored c)) -> urls_unique (apps_after now ad (c, s))) /\
  (NoDup (map r_id (apps (stored c))) -> NoDup (map r_id (apps_after now ad (c, s)))).
Proof.
  destruct (insert_app_apps now ad c s) as [-> | (row & Hr & Hv & ->)].
  - split; [exists []; rewrite app_nil_r; simpl; auto|]. auto.
  - split; [exists [row]; simpl; auto|]. split.
    + intros Hu. apply urls_unique_snoc; [exact Hu|].
      intros r Hin. unfold violates_unique in Hv. apply orb_false_elim in Hv as [Hv _].
      exact (existsb_false _ _ r Hv Hin).
    + intros Hnd. rewrite map_app. simpl. apply NoDup_snoc; [exact Hnd|].
      apply row_of_app_data_id in Hr. rewrite Hr. unfold autoincrement.
      intros Hin. pose proof (fold_max_ge_in (apps_seq (stored c)) _ _ Hin). lia.
Qed.

Context (to_app_data : dict -> dict) (count : stats -> stats).

Lemma insert_steps_keep now projects : forall st,
  (exists added,
     apps_of (fold_left (insert_step to_app_data count now) projects st) = apps_of st ++ added /\
     (List.length added <= List.length projects)%nat) /\
  (urls_unique (apps_of st) ->
   urls_unique (apps_of (fold_left (insert_step to_app_data count now) projects st))) /\
  (NoDup (map r_id (apps_of st)) ->
   NoDup (map r_id (apps_of (fold_left (insert_step to_app_data count now) projects st)))).
Proof.
  induction projects as [|p projects IH]; intros st; cbn [fold_left List.length].
  - split; [exists []; rewrite app_nil_r; simpl; auto|]. auto.
  - destruct (IH (insert_step to_app_data count now st p)) as ((added2 & E2 & L2) & U2 & N2).
    rewrite insert_step_apps in E2, U2, N2. destruct st as [c s].
    destruct (insert_app_keeps now (to_app_data p) c s) as ((added1 & E1 & L1) & U1 & N1).
    split; [|split].
    + exists (added1 ++ added2). rewrite E2, E1, app_assoc, length_app.
      split; [reflexivity | lia].
    + intros Hu. apply U2, U1, Hu.
    + intros Hn. apply N2, N1, Hn.
Qed.

End AppsTable.

Section AppsRuns.

Import DataIntegration.

(** X9. A run of [process_bolt_projects] or [process_lovable_projects]
    only appends to [apps]: the rows of before the run are kept as they
    are, at most one row per project of the file follows them, and when no
    URL other than NULL and no id was held by two rows before the run,
    none is after it. *)
Theorem integration_only_appends :
  (forall now projects c s,
     let t' := apps (stored (fst (process_bolt_projects now projects (c, s)))) in
     (exists added, t' = apps (stored c) ++ added /\
                    (List.length added <= List.length projects)%nat) /\
     (urls_unique (apps (stored c)) -> urls_unique t') /\
     (NoDup (map r_id (apps (stored c))) -> NoDup (map r_id t'))) /\
  (forall now projects c s,
     let t' := apps (stored (fst (process_lovable_projects now projects (c, s)))) in
     (exists added, t' = apps (stored c) ++ added /\
                    (List.length added <= List.length projects)%nat) /\
     (urls_unique (apps (stored c)) -> urls_unique t') /\
     (NoDup (map r_id (apps (stored c))) -> NoDup (map r_id t'))).
Proof.
  split; intros now projects c s t'; subst t'.
  - rewrite process_bolt_projects_fold.
    apply (insert_steps_keep bolt_app_data incr_bolt_projects now projects
             (snd (insert_platform now "Bolt" "Bolt.new Supabase gallery projects"
                                   "https://bolt.new" "supabase_api" c), s)).
  - rewrite process_lovable_projects_fold.
    apply (insert_steps_keep lovable_app_data incr_lovable_projects now projects
             (snd (insert_platform now "Lovable" "Lovable.dev community projects"
                                   "https://lovable.dev" "api" c), s)).
Qed.

Lemma integration_only_appends_witness :
  let t' := apps (stored (fst (process_lovable_projects "t1" lovable_projects_file
                                 (connect empty_database, initial_stats)))) in
  urls_unique t' /\ NoDup (map r_id t').
Proof.
  destruct (proj2 integration_only_appends "t1" lovable_projects_file
              (connect empty_database) initial_stats) as (_ & Hu & Hn).
  split.
  - apply Hu. intros i j r1 r2 Hi. destruct i; discriminate.
  - apply Hn. constructor.
Defined.

End AppsRuns.

Section StaleRowid.

Import DataIntegration.

Lemma autoincrement_positive seq ids : 0 <= seq -> 0 < autoincrement seq ids.
Proof. unfold autoincrement. pose proof (fold_max_ge_seq seq ids). lia. Qed.

(** On a connection that has inserted a row before, a record without a
    truthy url whose values can be bound is counted as processed, whether
    its row is inserted or ignored. *)
Lemma insert_app_without_url now ad c s :
  truthy (get1 ad "url") = false -> bindable ad = true ->
  last_insert_rowid c <> 0 -> 0 <= apps_seq (stored c) ->
  exists i c',
    insert_app now ad (c, s) = (Some i, (c', incr_total_processed s)) /\
    last_insert_rowid c' <> 0 /\ 0 <= apps_seq (stored c').
Proof.
  intros Ht Hb Hl Hs. unfold insert_app. rewrite Ht.
  destruct (bindable_row now ad (autoincrement (apps_seq (stored c)) (map r_id (apps (stored c)))) Hb)
    as (row & Hr).
  rewrite Hr.
  pose proof (row_of_app_data_id _ _ _ _ Hr) as Hid.
  pose proof (autoincrement_positive (apps_seq (stored c)) (map r_id (apps (stored c))) Hs) as Hpos.
  assert (Hc : last_insert_rowid (insert_or_ignore row c) <> 0 /\
               0 <= apps_seq (stored (insert_or_ignore row c))).
  { unfold insert_or_ignore. destruct (violates_unique row (apps (stored c))); simpl; lia. }
  destruct Hc as [Hc1 Hc2]. apply Z.eqb_neq in Hc1. rewrite Hc1.
  eexists _, _. split; [reflexivity|]. apply Z.eqb_neq in Hc1. auto.
Qed.

Lemma url_present_of_empty ad t :
  url_value ad = JStr "" ->
  url_present ad t = existsb (fun r => sql_eq (r_url r) (SText "")) t.
Proof. unfold url_present. intros ->. reflexivity. Qed.

Context (to_app_data : dict -> dict) (count : stats -> stats).

Lemma insert_steps_same_url now projects : forall st,
  (forall p, In p projects ->
             url_value (to_app_data p) = JStr "" /\ bindable (to_app_data p) = true) ->
  (existsb (fun r => sql_eq (r_url r) (SText "")) (apps_of st) = true ->
   apps_of (fold_left (insert_step to_app_data count now) projects st) = apps_of st) /\
  (List.length (apps_of (fold_left (insert_step to_app_data count now) projects st))
   <= List.length (apps_of st) + 1)%nat.
Proof.
  induction projects as [|p projects IH]; intros st Hall; cbn [fold_left].
  - split; [reflexivity | lia].
  - destruct (Hall p (or_introl eq_refl)) as [Hu Hb].
    assert (Hrest : forall q, In q projects ->
              url_value (to_app_data q) = JStr "" /\ bindable (to_app_data q) = true)
      by (intros q Hq; apply Hall; right; exact Hq).
    destruct (IH (insert_step to_app_data count now st p) Hrest) as [IH1 IH2].
    rewrite insert_step_apps in IH1, IH2. destruct st as [c s].
    assert (Hnn : stored_as_null (url_value (to_app_data p)) = false)
      by (rewrite Hu; reflexivity).
    split.
    + intros He.
      assert (Hsame : apps_after now (to_app_data p) (c, s) = apps_of (c, s)).
      { apply insert_app_settled; [exact Hnn|]. intros _.
        rewrite url_present_of_empty by exact Hu. exact He. }
      rewrite IH1; rewrite Hsame; auto.
    + destruct (existsb (fun r => sql_eq (r_url r) (SText "")) (apps_of (c, s))) eqn:He.
      * assert (Hsame : apps_after now (to_app_data p) (c, s) = apps_of (c, s)).
        { apply insert_app_settled; [exact Hnn|]. intros _.
          rewrite url_present_of_empty by exact Hu. exact He. }
        rewrite Hsame in IH2. exact IH2.
      * pose proof (insert_app_establishes now (to_app_data p) c s Hnn Hb) as Hp.
        rewrite url_present_of_empty in Hp by exact Hu.
        rewrite (IH1 Hp).
        destruct (insert_app_keeps now (to_app_data p) c s) as ((added & -> & Hl) & _).
        rewrite length_app. unfold apps_of. simpl. lia.
Qed.

Hypothesis count_keeps : forall s,
  total_processed (count s) = total_processed s /\
  duplicates_skipped (count s) = duplicates_skipped s /\ errors (count s) = errors s.

Lemma insert_steps_without_url now projects : forall c s,
  (forall p, In p projects ->
             truthy (get1 (to_app_data p) "url") = false /\ bindable (to_app_data p) = true) ->
  last_insert_rowid c <> 0 -> 0 <= apps_seq (stored c) ->
  let st' := fold_left (insert_step to_app_data count now) projects (c, s) in
  total_processed (snd st') = total_processed s + Z.of_nat (List.length projects) /\
  duplicates_skipped (snd st') = duplicates_skipped s /\ errors (snd st') = errors s /\
  exists k, snd st' = Nat.iter k (fun x => count (incr_total_processed x)) s /\
            k = List.length projects.
Proof.
  induction projects as [|p projects IH]; intros c s Hall Hl Hs; cbn [fold_left List.length].
  - simpl. split; [lia|]. split; [reflexivity|]. split; [reflexivity|].
    exists 0%nat. auto.
  - destruct (Hall p (or_introl eq_refl)) as [Ht Hb].
    destruct (insert_app_without_url now (to_app_data p) c s Ht Hb Hl Hs)
      as (i & c' & E & Hl' & Hs').
    assert (Hstep : insert_step to_app_data count now (c, s) p
                    = (c', count (incr_total_processed s)))
      by (unfold insert_step; rewrite E; reflexivity).
    cbv zeta. rewrite Hstep.
    destruct (IH c' (count (incr_total_processed s))
                (fun q Hq => Hall q (or_intror Hq)) Hl' Hs') as (A & B & C & k & Hk & Hlen).
    destruct (count_keeps (incr_total_processed s)) as (K1 & K2 & K3).
    cbv zeta in *. cbn [List.length]. rewrite Nat2Z.inj_succ.
    assert (K0 : total_processed (incr_total_processed s) = total_processed s + 1)
      by reflexivity.
    assert (K4 : duplicates_skipped (incr_total_processed s) = duplicates_skipped s)
      by reflexivity.
    assert (K5 : errors (incr_total_processed s) = errors s) by reflexivity.
    split; [lia|]. split; [congruence|]. split; [congruence|].
    exists (S k). split; [|lia]. rewrite Hk. rewrite Nat.iter_succ_r. reflexivity.
Qed.

End StaleRowid.

Section StaleRowidBolt.

Import DataIntegration.

Lemma iter_bolt k : forall s,
  bolt_projects (Nat.iter k (fun x => incr_bolt_projects (incr_total_processed x)) s)
  = bolt_projects s + Z.of_nat k.
Proof.
  induction k as [|k IH]; intros s; [simpl; lia|].
  rewrite Nat.iter_succ_r, IH. simpl. lia.
Qed.

(** X10. Projects without a url in [process_bolt_projects]: when no
    project of the file has a ['url'] key and every value can be bound,
    at most one row is added to [apps] (all projects share the empty url,
    which is UNIQUE), yet every project is counted in [total_processed] and
    in [bolt_projects] and none in [duplicates_skipped]: after an ignored
    INSERT, [cursor.lastrowid] still holds the id of the platform row or of
    the row inserted last. *)
Theorem url_less_projects_counted_not_stored :
  forall now projects d,
    0 <= platforms_seq d -> 0 <= apps_seq d ->
    (forall p, In p projects ->
               lookup "url" p = None /\ bindable (bolt_app_data p) = true) ->
    let st' := process_bolt_projects now projects (connect d, initial_stats) in
    total_processed (snd st') = Z.of_nat (List.length projects) /\
    bolt_projects (snd st') = Z.of_nat (List.length projects) /\
    duplicates_skipped (snd st') = 0 /\
    errors (snd st') = 0 /\
    (List.length (apps (stored (fst st'))) <= List.length (apps d) + 1)%nat.
Proof.
  intros now projects d Hp Ha Hall st'. subst st'.
  rewrite process_bolt_projects_fold.
  assert (Hurl : forall p, In p projects ->
             url_value (bolt_app_data p) = JStr "" /\ bindable (bolt_app_data p) = true).
  { intros p Hin. destruct (Hall p Hin) as [Hk Hb]. split; [|exact Hb].
    rewrite url_value_bolt. unfold get. rewrite Hk. reflexivity. }
  assert (Hfalsy : forall p, In p projects ->
             truthy (get1 (bolt_app_data p) "url") = false /\ bindable (bolt_app_data p) = true).
  { intros p Hin. destruct (Hall p Hin) as [Hk Hb]. split; [|exact Hb].
    change (get1 (bolt_app_data p) "url") with (get p "url" (JStr "")).
    unfold get. rewrite Hk. reflexivity. }
  pose proof (autoincrement_positive (platforms_seq d) (map pl_id (platforms d)) Hp) as Hpos.
  destruct (insert_steps_without_url bolt_app_data incr_bolt_projects
              (fun s => conj eq_refl (conj eq_refl eq_refl)) now projects
              (snd (insert_platform now "Bolt" "Bolt.new Supabase gallery projects"
                                    "https://bolt.new" "supabase_api" (connect d)))
              initial_stats Hfalsy)
    as (A & B & C & k & Hk & Hlen).
  { simpl. lia. }
  { exact Ha. }
  destruct (insert_steps_same_url bolt_app_data incr_bolt_projects now projects
              (snd (insert_platform now "Bolt" "Bolt.new Supabase gallery projects"
                                    "https://bolt.new" "supabase_api" (connect d)),
               initial_stats) Hurl) as [_ Hlenapps].
  split; [exact A|]. split; [|split; [exact B | split; [exact C | exact Hlenapps]]].
  rewrite Hk, iter_bolt, Hlen. reflexivity.
Qed.

Lemma url_less_projects_counted_not_stored_witness :
  let st' := process_bolt_projects "t1" url_less_projects (connect empty_database, initial_stats) in
  total_processed (snd st') = 3 /\ bolt_projects (snd st') = 3 /\
  duplicates_skipped (snd st') = 0 /\ errors (snd st') = 0 /\
  (List.length (apps (stored (fst st'))) <= 0 + 1)%nat.
Proof.
  apply (url_less_projects_counted_not_stored "t1" url_less_projects empty_database).
  - simpl. lia.
  - simpl. lia.
  - intros p [<- | [<- | [<- | []]]]; split; reflexivity.
Defined.

End StaleRowidBolt.

Section PlatformsTable.

Import DataIntegration.

Lemma NoDup_map_filter {A B} (f : A -> B) (g : A -> bool) l :
  NoDup (map f l) -> NoDup (map f (filter g l)).
Proof.
  induction l as [|x l IH]; simpl; intros Hn; [constructor|].
  inversion Hn as [|y l' Hx Hl]. subst.
  destruct (g x); simpl; [|auto].
  constructor; [|auto]. intros Hin. apply Hx.
  apply in_map_iff in Hin as (z & Hz & Hin). apply filter_In in Hin as [Hin _].
  rewrite <- Hz. apply in_map. exact Hin.
Qed.

(** X11. Frame of [insert_platform]: the rows of [platforms] that hold
    another name are neither removed nor changed and no row of another name
    appears; the id of the new row is above every id the table held, so
    ids that were unique stay unique. *)
Theorem insert_platform_touches_one_name :
  forall now name description base_url method c,
    let r := insert_platform now name description base_url method c in
    (forall row, pl_name row <> name ->
                 (In row (platforms (stored (snd r))) <-> In row (platforms (stored c)))) /\
    (forall row, In row (platforms (stored c)) -> pl_id row < fst r) /\
    (NoDup (map pl_id (platforms (stored c))) ->
     NoDup (map pl_id (platforms (stored (snd r))))).
Proof.
  intros now name description base_url method c r. subst r.
  unfold insert_platform. cbn [fst snd stored platforms].
  assert (Hlt : forall row, In row (platforms (stored c)) ->
            pl_id row < autoincrement (platforms_seq (stored c))
                                      (map pl_id (platforms (stored c)))).
  { intros row Hin. unfold autoincrement.
    pose proof (fold_max_ge_in (platforms_seq (stored c)) _ _ (in_map pl_id _ _ Hin)). lia. }
  split; [|split].
  - intros row Hne. rewrite in_app_iff, filter_In. split.
    + intros [[Hin _] | [<- | []]]; [exact Hin|]. simpl in Hne. congruence.
    + intros Hin. left. split; [exact Hin|].
      apply negb_true_iff, String.eqb_neq. exact Hne.
  - exact Hlt.
  - intros Hn. rewrite map_app. simpl. apply NoDup_snoc.
    + apply NoDup_map_filter. exact Hn.
    + intros Hin. apply in_map_iff in Hin as (row & Hid & Hin).
      apply filter_In in Hin as [Hin _]. specialize (Hlt row Hin). lia.
Qed.

Lemma insert_platform_touches_one_name_witness :
  NoDup (map pl_id (platforms (stored (snd (insert_platform "t2" "Lovable"
           "Lovable.dev community projects" "https://lovable.dev" "api"
           (snd (insert_platform "t1" "Bolt" "Bolt.new Supabase gallery projects"
                                 "https://bolt.new" "supabase_api"
                                 (connect empty_database)))))))).
Proof.
  apply (insert_platform_touches_one_name "t2" "Lovable" "Lovable.dev community projects"
           "https://lovable.dev" "api").
  simpl. constructor; [intros []|constructor].
Defined.

End PlatformsTable.

Section PlatformStats.

Import DataIntegration.

Lemma count_apps_of_app name t added :
  count_apps_of name (t ++ added) = count_apps_of name t + count_apps_of name added.
Proof. unfold count_apps_of. rewrite filter_app, length_app. lia. Qed.

Lemma count_apps_of_source src name added :
  nocase_eqb src name = true ->
  Forall (fun row => r_source_platform row = SText src) added ->
  count_apps_of name added = Z.of_nat (List.length added).
Proof.
  intros Hn Hall. unfold count_apps_of. f_equal.
  induction Hall as [|row added Hrow Hall IH]; simpl; [reflexivity|].
  rewrite Hrow, Hn. simpl. rewrite IH. reflexivity.
Qed.

Context (to_app_data : dict -> dict) (count : stats -> stats) (src : string).

Hypothesis source_of_row : forall now p i row,
  row_of_app_data now (to_app_data p) i = Some row -> r_source_platform row = SText src.

Lemma insert_steps_source now projects : forall st,
  exists added,
    apps_of (fold_left (insert_step to_app_data count now) projects st) = apps_of st ++ added /\
    Forall (fun row => r_source_platform row = SText src) added.
Proof.
  induction projects as [|p projects IH]; intros st; cbn [fold_left].
  - exists []. rewrite app_nil_r. auto.
  - destruct (IH (insert_step to_app_data count now st p)) as (added2 & E2 & F2).
    rewrite insert_step_apps in E2. destruct st as [c s].
    destruct (insert_app_apps now (to_app_data p) c s) as [E1 | (row & Hr & _ & E1)].
    + exists added2. rewrite E2. unfold apps_after in E1. unfold apps_after.
      rewrite E1. auto.
    + exists (row :: added2). rewrite E2. unfold apps_after in E1. unfold apps_after.
      rewrite E1, <- app_assoc. split; [reflexivity|].
      constructor; [eapply source_of_row; exact Hr | exact F2].
Qed.

End PlatformStats.

Section PlatformStatsRuns.

Import DataIntegration.

Lemma bolt_row_source now p i row :
  row_of_app_data now (bolt_app_data p) i = Some row -> r_source_platform row = SText "bolt".
Proof.
  unfold row_of_app_data.
  change (get (bolt_app_data p) "source_platform" (JStr "")) with (JStr "bolt").
  cbn [bind text_affinity].
  repeat match goal with
         | |- context [match lookup "created_at" ?d with _ => _ end] =>
             destruct (lookup "created_at" d)
         | |- context [match bind ?v with _ => _ end] => destruct (bind v)
         end; try discriminate;
    intros H; inversion H; reflexivity.
Qed.

Lemma lovable_row_source now p i row :
  row_of_app_data now (lovable_app_data p) i = Some row ->
  r_source_platform row = SText "lovable".
Proof.
  unfold row_of_app_data.
  change (get (lovable_app_data p) "source_platform" (JStr "")) with (JStr "lovable").
  cbn [bind text_affinity].
  repeat match goal with
         | |- context [match lookup "created_at" ?d with _ => _ end] =>
             destruct (lookup "created_at" d)
         | |- context [match bind ?v with _ => _ end] => destruct (bind v)
         end; try discriminate;
    intros H; inversion H; reflexivity.
Qed.

Lemma update_platform_stats_row c p :
  In p (platforms (stored c)) ->
  In {| pl_id := pl_id p; pl_name := pl_name p; pl_description := pl_description p;
        pl_base_url := pl_base_url p; pl_scraping_method := pl_scraping_method p;
        pl_last_scraped := pl_last_scraped p;
        pl_total_apps := count_apps_of (pl_name p) (apps (stored c)) |}
     (platforms (stored (update_platform_stats c))).
Proof.
  intros Hin. unfold update_platform_stats. cbn [stored platforms].
  apply in_map_iff. exists p. auto.
Qed.

(** X12. [update_platform_stats] after a run: the rows of a run are stored
    under the lower-case source ("bolt", "lovable") while the platform row
    is named "Bolt" or "Lovable"; the NOCASE comparison of the UPDATE
    matches them, so the platform row that [process_bolt_projects] wrote
    ends with [total_apps] equal to the number of rows of that source the
    table held before the run plus the number of rows the run added, and
    [apps] is left as the run wrote it. The same holds of
    [process_lovable_projects]. *)
Theorem platform_total_after_run :
  (forall now projects c s,
     let c1 := fst (process_bolt_projects now projects (c, s)) in
     let c2 := update_platform_stats c1 in
     apps (stored c2) = apps (stored c1) /\
     exists added,
       apps (stored c1) = apps (stored c) ++ added /\
       In {| pl_id := autoincrement (platforms_seq (stored c)) (map pl_id (platforms (stored c)));
             pl_name := "Bolt"; pl_description := "Bolt.new Supabase gallery projects";
             pl_base_url := "https://bolt.new"; pl_scraping_method := "supabase_api";
             pl_last_scraped := now;
             pl_total_apps := count_apps_of "Bolt" (apps (stored c))
                              + Z.of_nat (List.length added) |}
          (platforms (stored c2))) /\
  (forall now projects c s,
     let c1 := fst (process_lovable_projects now projects (c, s)) in
     let c2 := update_platform_stats c1 in
     apps (stored c2) = apps (stored c1) /\
     exists added,
       apps (stored c1) = apps (stored c) ++ added /\
       In {| pl_id := autoincrement (platforms_seq (stored c)) (map pl_id (platforms (stored c)));
             pl_name := "Lovable"; pl_description := "Lovable.dev community projects";
             pl_base_url := "https://lovable.dev"; pl_scraping_method := "api";
             pl_last_scraped := now;
             pl_total_apps := count_apps_of "Lovable" (apps (stored c))
                              + Z.of_nat (List.length added) |}
          (platforms (stored c2))).
Proof.
  split; intros now projects c s c1 c2; subst c1 c2; (split; [reflexivity|]).
  - pose proof (insert_steps_counts bolt_app_data incr_bolt_projects bolt_projects
                  (fun _ => eq_refl) (fun _ => eq_refl) (fun _ => eq_refl)
                  (fun now' ad c' s' =>
                     proj1 (proj2 (proj2 (insert_app_counts now' ad c' s'))))
                  now projects
                  (snd (insert_platform now "Bolt" "Bolt.new Supabase gallery projects"
                                        "https://bolt.new" "supabase_api" c)) s)
      as (_ & _ & Hpl).
    destruct (insert_steps_source bolt_app_data incr_bolt_projects "bolt" bolt_row_source
                now projects
                (snd (insert_platform now "Bolt" "Bolt.new Supabase gallery projects"
                                      "https://bolt.new" "supabase_api" c), s))
      as (added & E & F).
    rewrite process_bolt_projects_fold. exists added. split; [exact E|].
    unfold apps_of in E. cbn [fst] in E.
    match goal with
    | |- In ?row _ =>
        replace row with
          {| pl_id := autoincrement (platforms_seq (stored c)) (map pl_id (platforms (stored c)));
             pl_name := "Bolt"; pl_description := "Bolt.new Supabase gallery projects";
             pl_base_url := "https://bolt.new"; pl_scraping_method := "supabase_api";
             pl_last_scraped := now;
             pl_total_apps := count_apps_of "Bolt"
               (apps (stored (fst (fold_left (insert_step bolt_app_data incr_bolt_projects now)
                  projects
                  (snd (insert_platform now "Bolt" "Bolt.new Supabase gallery projects"
                                        "https://bolt.new" "supabase_api" c), s))))) |}
    end.
    + apply (update_platform_stats_row _
               {| pl_id := autoincrement (platforms_seq (stored c))
                                         (map pl_id (platforms (stored c)));
                  pl_name := "Bolt"; pl_description := "Bolt.new Supabase gallery projects";
                  pl_base_url := "https://bolt.new"; pl_scraping_method := "supabase_api";
                  pl_last_scraped := now; pl_total_apps := 0 |}).
      rewrite Hpl. unfold insert_platform. cbn [snd stored platforms].
      apply in_or_app. right. left. reflexivity.
    + f_equal. rewrite E, count_apps_of_app.
      rewrite (count_apps_of_source "bolt" "Bolt" added eq_refl F). reflexivity.
  - pose proof (insert_steps_counts lovable_app_data incr_lovable_projects lovable_projects
                  (fun _ => eq_refl) (fun _ => eq_refl) (fun _ => eq_refl)
                  (fun now' ad c' s' =>
                     proj1 (proj2 (proj2 (proj2 (insert_app_counts now' ad c' s')))))
                  now projects
                  (snd (insert_platform now "Lovable" "Lovable.dev community projects"
                                        "https://lovable.dev" "api" c)) s)
      as (_ & _ & Hpl).
    destruct (insert_steps_source lovable_app_data incr_lovable_projects "lovable"
                lovable_row_source now projects
                (snd (insert_platform now "Lovable" "Lovable.dev community projects"
                                      "https://lovable.dev" "api" c), s))
      as (added & E & F).
    rewrite process_lovable_projects_fold. exists added. split; [exact E|].
    unfold apps_of in E. cbn [fst] in E.
    match goal with
    | |- In ?row _ =>
        replace row with
          {| pl_id := autoincrement (platforms_seq (stored c)) (map pl_id (platforms (stored c)));
             pl_name := "Lovable"; pl_description := "Lovable.dev community projects";
             pl_base_url := "https://lovable.dev"; pl_scraping_method := "api";
             pl_last_scraped := now;
             pl_total_apps := count_apps_of "Lovable"
               (apps (stored (fst (fold_left
                  (insert_step lovable_app_data incr_lovable_projects now)
                  projects
                  (snd (insert_platform now "Lovable" "Lovable.dev community projects"
                                        "https://lovable.dev" "api" c), s))))) |}
    end.
    + apply (update_platform_stats_row _
               {| pl_id := autoincrement (platforms_seq (stored c))
                                         (map pl_id (platforms (stored c)));
                  pl_name := "Lovable"; pl_description := "Lovable.dev community projects";
                  pl_base_url := "https://lovable.dev"; pl_scraping_method := "api";
                  pl_last_scraped := now; pl_total_apps := 0 |}).
      rewrite Hpl. unfold insert_platform. cbn [snd stored platforms].
      apply in_or_app. right. left. reflexivity.
    + f_equal. rewrite E, count_apps_of_app.
      rewrite (count_apps_of_source "lovable" "Lovable" added eq_refl F). reflexivity.
Qed.

End PlatformStatsRuns.

Section MergeRuns.

Import CleanupPlatformDuplicates.

Lemma target_none ds k : among (merge_ids ds) k = false -> target ds k = None.
Proof.
  unfold target, among, merge_ids.
  induction ds as [|d ds IH]; simpl; [reflexivity|].
  intros H. apply orb_false_elim in H as [H1 H2]. rewrite H1. exact (IH H2).
Qed.

Lemma keeps_survive_tail d ds :
  keeps_survive (d :: ds) -> among (merge_ids ds) (keep_id d) = false /\ keeps_survive ds.
Proof.
  intros H. split.
  - specialize (H d (or_introl eq_refl)). unfold among, merge_ids in H. simpl in H.
    apply orb_false_elim in H as [_ H]. exact H.
  - intros d' Hin. specialize (H d' (or_intror Hin)). unfold among, merge_ids in H.
    simpl in H. apply orb_false_elim in H as [_ H]. exact H.
Qed.

Lemma cleaned_nil now db : cleaned now [] db = db.
Proof.
  destruct db as [ps t]. unfold cleaned. simpl. f_equal.
  - induction ps as [|p ps IH]; simpl; [reflexivity | rewrite IH; reflexivity].
  - induction t as [|a t IH]; simpl; [reflexivity | rewrite IH; reflexivity].
Qed.

Lemma cleaned_cons now d ds db :
  among (merge_ids ds) (keep_id d) = false ->
  cleaned now ds (merge_effect now d db) = cleaned now (d :: ds) db.
Proof.
  intros Hk. rewrite merge_effect_eq.
  unfold cleaned, delete_platform, move_applications, with_applications.
  cbn [platforms applications]. f_equal.
  - induction (platforms db) as [|p ps IH]; simpl; [reflexivity|].
    unfold among, merge_ids in *. simpl.
    destruct (p_id p =? merge_id d); simpl; [exact IH|].
    destruct (existsb (Z.eqb (p_id p)) (map merge_id ds)); simpl; [exact IH|].
    rewrite IH. reflexivity.
  - rewrite map_map. apply map_ext. intros a.
    assert (Ht : target (d :: ds) (a_platform_id a)
                 = if a_platform_id a =? merge_id d then Some (keep_id d)
                   else target ds (a_platform_id a)).
    { unfold target. cbn [find]. destruct (a_platform_id a =? merge_id d); reflexivity. }
    unfold relocated at 2. rewrite Ht.
    destruct (a_platform_id a =? merge_id d) eqn:E.
    + unfold relocated. cbn [a_platform_id].
      rewrite (target_none ds (keep_id d) Hk). reflexivity.
    + reflexivity.
Qed.

(** With no kept platform merged away, the loop of the script comes to
    the database in which every application is on its target. *)
Lemma merge_fold_cleaned now ds : forall db,
  keeps_survive ds ->
  fold_left (fun db d => merge_effect now d db) ds db = cleaned now ds db.
Proof.
  induction ds as [|d ds IH]; intros db H; cbn [fold_left].
  - symmetry. apply cleaned_nil.
  - destruct (keeps_survive_tail d ds H) as [Hk Hs].
    rewrite (IH _ Hs). apply cleaned_cons, Hk.
Qed.

Lemma on_merged_cons now d ds db :
  among (merge_ids ds) (keep_id d) = false ->
  on_merged (d :: ds) db
  = (owned (merge_id d) db + on_merged ds (merge_effect now d db))%nat.
Proof.
  intros Hk. rewrite merge_effect_eq.
  unfold on_merged, owned, delete_platform, move_applications, with_applications.
  cbn [applications].
  induction (applications db) as [|a t IH]; simpl; [reflexivity|].
  unfold among at 1, merge_ids at 1. cbn [map existsb].
  destruct (a_platform_id a =? merge_id d) eqn:E; cbn [orb a_platform_id List.length].
  - rewrite Hk. simpl in IH. rewrite IH. reflexivity.
  - fold (merge_ids ds). fold (among (merge_ids ds) (a_platform_id a)).
    destruct (among (merge_ids ds) (a_platform_id a)); cbn [List.length];
      simpl in IH; rewrite IH; lia.
Qed.

Lemma merge_all_total fails now ds : forall c m c' m',
  keeps_survive ds ->
  merge_all fails now ds (c, m) = Some (c', m') ->
  m' = m + Z.of_nat (on_merged ds (work c)).
Proof.
  induction ds as [|d ds IH]; intros c m c' m' Hs H; cbn [merge_all] in H.
  - inversion H. unfold on_merged, among, merge_ids. simpl.
    assert (E : filter (fun _ : application => false) (applications (work c')) = []).
    { induction (applications (work c')) as [|a t IHt]; simpl; auto. }
    rewrite E. simpl. lia.
  - destruct (merge_duplicate fails now d (c, m)) as [[c1 m1]|] eqn:Hd; [|discriminate].
    destruct (keeps_survive_tail d ds Hs) as [Hk Hs'].
    rewrite (IH _ _ _ _ Hs' H).
    rewrite (merge_duplicate_moved _ _ _ _ _ _ _ Hd).
    rewrite (merge_duplicate_work _ _ _ _ _ _ _ Hd).
    rewrite (on_merged_cons now d ds (work c) Hk). lia.
Qed.

Lemma cleanup_on_no_fault_closed now ds db :
  keeps_survive ds ->
  cleanup_on no_fault now ds db
  = (Completed (Z.of_nat (on_merged ds db)) (List.length ds), cleaned now ds db).
Proof.
  intros Hs. unfold cleanup_on.
  change (query no_fault {| executed := 0; work := db |})
    with (Some {| executed := 1; work := db |}).
  destruct (merge_all_no_fault now ds {| executed := 1; work := db |} 0) as (c' & m' & H).
  rewrite H.
  pose proof (merge_all_total _ _ _ _ _ _ _ Hs H) as Hm.
  pose proof (merge_all_work _ _ _ _ _ _ _ H) as Hw.
  cbn [work] in Hm, Hw. rewrite (merge_fold_cleaned now ds db Hs) in Hw.
  unfold query, execute, no_fault. cbn [executed work]. rewrite Hw, Hm. reflexivity.
Qed.

Lemma hard_coded_keeps_survive : keeps_survive duplicates_to_merge.
Proof. intros d [<- | [<- | [<- | []]]]; reflexivity. Qed.

Lemma relocated_settled now1 now2 ds a :
  keeps_survive ds -> relocated now2 ds (relocated now1 ds a) = relocated now1 ds a.
Proof.
  intros Hs. destruct (target ds (a_platform_id a)) as [k|] eqn:Ht.
  - assert (R : relocated now1 ds a
                = {| a_id := a_id a; a_platform_id := k; a_external_id := a_external_id a;
                     a_name := a_name a; a_url := a_url a;
                     a_description := a_description a;
                     a_created_at := a_created_at a; a_updated_at := SText now1 |})
      by (unfold relocated; rewrite Ht; reflexivity).
    rewrite R. unfold relocated. cbn [a_platform_id].
    assert (Hk : target ds k = None).
    { unfold target in Ht.
      destruct (find (fun d => a_platform_id a =? merge_id d) ds) as [d|] eqn:Hf;
        [|discriminate].
      simpl in Ht. inversion Ht. subst k. apply find_some in Hf as [Hin _].
      apply target_none, Hs, Hin. }
    rewrite Hk. reflexivity.
  - assert (R : relocated now1 ds a = a) by (unfold relocated; rewrite Ht; reflexivity).
    rewrite R. unfold relocated. rewrite Ht. reflexivity.
Qed.

Lemma cleaned_settled now1 now2 ds db :
  keeps_survive ds ->
  cleaned now2 ds (cleaned now1 ds db) = cleaned now1 ds db /\
  on_merged ds (cleaned now1 ds db) = 0%nat.
Proof.
  intros Hs. split.
  - unfold cleaned. cbn [platforms applications]. f_equal.
    + induction (platforms db) as [|p ps IH]; simpl; [reflexivity|].
      destruct (among (merge_ids ds) (p_id p)) eqn:E; simpl; [exact IH|].
      rewrite E. simpl. rewrite IH. reflexivity.
    + rewrite map_map. apply map_ext. intros a. apply relocated_settled, Hs.
  - unfold on_merged, cleaned. cbn [applications].
    induction (applications db) as [|a t IH]; simpl; [reflexivity|].
    assert (Ha : among (merge_ids ds) (a_platform_id (relocated now1 ds a)) = false).
    { unfold relocated. destruct (target ds (a_platform_id a)) as [k|] eqn:Ht.
      - cbn [a_platform_id]. unfold target in Ht.
        destruct (find (fun d => a_platform_id a =? merge_id d) ds) as [d|] eqn:Hf;
          [|discriminate].
        simpl in Ht. inversion Ht. subst k. apply find_some in Hf as [Hin _].
        apply Hs, Hin.
      - unfold target in Ht.
        destruct (find (fun d => a_platform_id a =? merge_id d) ds) as [d|] eqn:Hf;
          [discriminate|].
        destruct (among (merge_ids ds) (a_platform_id a)) eqn:E; [|reflexivity].
        unfold among, merge_ids in E. apply existsb_exists in E as (x & Hx & Ex).
        apply in_map_iff in Hx as (d & <- & Hd).
        pose proof (find_none _ _ Hf d Hd) as Hn. simpl in Hn. congruence. }
    rewrite Ha. exact IH.
Qed.

Lemma merge_effect_frame now d db :
  map fixed_columns (applications (merge_effect now d db))
  = map fixed_columns (applications db) /\
  incl (platforms (merge_effect now d db)) (platforms db).
Proof.
  rewrite merge_effect_eq. unfold delete_platform, move_applications, with_applications.
  cbn [platforms applications]. split.
  - rewrite map_map. apply map_ext. intros a.
    destruct (a_platform_id a =? merge_id d); reflexivity.
  - intros p Hp. apply filter_In in Hp as [Hp _]. exact Hp.
Qed.

Lemma merge_fold_frame now ds : forall db,
  map fixed_columns (applications (fold_left (fun db d => merge_effect now d db) ds db))
  = map fixed_columns (applications db) /\
  incl (platforms (fold_left (fun db d => merge_effect now d db) ds db)) (platforms db).
Proof.
  induction ds as [|d ds IH]; intros db; cbn [fold_left].
  - split; [reflexivity | apply incl_refl].
  - destruct (IH (merge_effect now d db)) as [A B].
    destruct (merge_effect_frame now d db) as [A1 B1].
    split; [congruence | eapply incl_tran; eauto].
Qed.

(** X13. The whole merge run in closed form: when no statement raises,
    [cleanup_platform_duplicates] completes, reports as moved the number
    of applications that were on one of the three merged platforms and
    three platforms as removed, and stores the database in which exactly
    the platforms 6, 3 and 2 are gone and each of their applications is on
    the platform kept for it with a new [updated_at], every other
    application being as it was. The same closed form holds for any list
    of pairs in which no kept platform is also merged away. *)
Theorem cleanup_closed_form :
  (forall now db,
     cleanup_platform_duplicates no_fault now db
     = (Completed (Z.of_nat (on_merged duplicates_to_merge db)) 3,
        cleaned now duplicates_to_merge db)) /\
  (forall now ds db,
     keeps_survive ds ->
     cleanup_on no_fault now ds db
     = (Completed (Z.of_nat (on_merged ds db)) (List.length ds), cleaned now ds db)).
Proof.
  split.
  - intros now db. unfold cleanup_platform_duplicates.
    apply (cleanup_on_no_fault_closed now duplicates_to_merge db hard_coded_keeps_survive).
  - intros now ds db Hs. apply cleanup_on_no_fault_closed, Hs.
Qed.

Lemma cleanup_closed_form_witness :
  cleanup_on no_fault "t1" duplicates_to_merge merge_db
  = (Completed 3 3, cleaned "t1" duplicates_to_merge merge_db).
Proof.
  apply (proj2 cleanup_closed_form "t1" duplicates_to_merge merge_db).
  intros d [<- | [<- | [<- | []]]]; reflexivity.
Defined.

(** X14. A second run of the merge script is harmless: after a run in
    which no statement raised, another run finds no application to move,
    leaves the stored database as it is, and still reports one platform
    removed per pair of the list. *)
Theorem cleanup_second_run :
  forall now1 now2 ds db,
    keeps_survive ds ->
    let db1 := snd (cleanup_on no_fault now1 ds db) in
    cleanup_on no_fault now2 ds db1 = (Completed 0 (List.length ds), db1).
Proof.
  intros now1 now2 ds db Hs db1. subst db1.
  rewrite (cleanup_on_no_fault_closed now1 ds db Hs). cbn [snd].
  rewrite (cleanup_on_no_fault_closed now2 ds _ Hs).
  destruct (cleaned_settled now1 now2 ds db Hs) as [-> ->]. reflexivity.
Qed.

Lemma cleanup_second_run_witness :
  let db1 := snd (cleanup_platform_duplicates no_fault "t1" merge_db) in
  cleanup_platform_duplicates no_fault "t2" db1 = (Completed 0 3, db1).
Proof.
  apply (cleanup_second_run "t1" "t2" duplicates_to_merge merge_db).
  intros d [<- | [<- | [<- | []]]]; reflexivity.
Defined.

(** X15. What the merge script never does, whatever statement raises and
    whatever the list of pairs: it adds or removes no application, writes
    no column of an application other than [platform_id] and
    [updated_at], and adds no platform. *)
Theorem cleanup_frame :
  forall fails now ds db,
    let db' := snd (cleanup_on fails now ds db) in
    map fixed_columns (applications db') = map fixed_columns (applications db) /\
    List.length (applications db') = List.length (applications db) /\
    incl (platforms db') (platforms db).
Proof.
  intros fails now ds db db'. subst db'.
  assert (H : map fixed_columns (applications (snd (cleanup_on fails now ds db)))
              = map fixed_columns (applications db) /\
              incl (platforms (snd (cleanup_on fails now ds db))) (platforms db)).
  { destruct (cleanup_on_all_or_nothing fails now ds db) as [[_ ->] | [_ ->]].
    - split; [reflexivity | apply incl_refl].
    - apply merge_fold_frame. }
  destruct H as [A B]. split; [exact A|]. split; [|exact B].
  rewrite <- (length_map fixed_columns (applications (snd (cleanup_on fails now ds db)))).
  rewrite A. apply length_map.
Qed.

End MergeRuns.

Section Runs_of_scrapers.

Import Scrapers.
Local Open Scope nat_scope.

Lemma bolt_run_log n : forall fuel server k limit offset all_projects log,
  (forall j, j < n ->
     limit <= List.length (BoltSupabaseScraper.fetch_gallery_projects (server (k + j)))) ->
  0 < limit ->
  List.length (BoltSupabaseScraper.fetch_gallery_projects (server (k + n))) < limit ->
  BoltSupabaseScraper.fetch_all_projects_loop (S n + fuel) server k limit offset all_projects log
  = Some (all_projects ++ batches server k (S n), log ++ bolt_log limit offset n).
Proof.
  induction n as [|n IH]; intros fuel server k limit offset all_projects log Hfull Hpos Hshort.
  - rewrite Nat.add_0_r in Hshort.
    cbn [Nat.add BoltSupabaseScraper.fetch_all_projects_loop batches bolt_log].
    rewrite app_nil_r.
    destruct (is_empty _) eqn:He.
    + apply is_empty_length in He. apply length_zero_iff_nil in He.
      rewrite He, app_nil_r. reflexivity.
    + apply Nat.ltb_lt in Hshort. rewrite Hshort. reflexivity.
  - pose proof (Hfull 0 ltac:(lia)) as H0. rewrite Nat.add_0_r in H0.
    change (S (S n) + fuel) with (S (S n + fuel)).
    remember (S n + fuel) as f eqn:Hf.
    remember (batches server k (S (S n))) as bs eqn:Hbs.
    cbn [BoltSupabaseScraper.fetch_all_projects_loop bolt_log].
    destruct (is_empty _) eqn:He; [apply is_empty_length in He; lia|].
    destruct (_ <? limit) eqn:Hlt; [apply Nat.ltb_lt in Hlt; lia|].
    subst f bs. rewrite IH.
    + cbn [batches]. rewrite <- !app_assoc. reflexivity.
    + intros j Hj. rewrite Nat.add_succ_l, <- Nat.add_succ_r. apply Hfull. lia.
    + exact Hpos.
    + rewrite Nat.add_succ_l, <- Nat.add_succ_r. exact Hshort.
Qed.

Lemma requests_bolt_log limit n : forall offset, requests (bolt_log limit offset n) = S n.
Proof.
  induction n as [|n IH]; intros offset; [reflexivity|].
  cbn [bolt_log]. unfold requests in *. cbn [filter List.length]. rewrite IH. reflexivity.
Qed.

(** X16. The requests of a Bolt run: when the first [n] batches are full
    and the next one is not, [fetch_all_projects] makes exactly [n + 1]
    requests, for the offsets 0, 1000, ..., 1000 n in this order, sleeps
    one second between two requests and not after the last, asks for no
    offset twice, and returns the records of these batches in order. *)
Theorem bolt_run_requests :
  forall n fuel server,
    (forall j, j < n ->
       1000 <= List.length (BoltSupabaseScraper.fetch_gallery_projects (server j))) ->
    List.length (BoltSupabaseScraper.fetch_gallery_projects (server n)) < 1000 ->
    BoltSupabaseScraper.fetch_all_projects (S n + fuel) server
    = Some (batches server 0 (S n), bolt_log 1000 0 n) /\
    requests (bolt_log 1000 0 n) = S n.
Proof.
  intros n fuel server Hfull Hshort. split; [|apply requests_bolt_log].
  unfold BoltSupabaseScraper.fetch_all_projects.
  rewrite (bolt_run_log n fuel server 0 1000 0 [] []); auto; lia.
Qed.

Lemma bolt_run_requests_witness :
  BoltSupabaseScraper.fetch_all_projects (2 + 0) two_pages
  = Some (batches two_pages 0 2, [Get 0; Sleep 1; Get 1000]) /\
  requests (bolt_log 1000 0 1) = 2.
Proof.
  apply (bolt_run_requests 1 0 two_pages).
  - intros j Hj. assert (j = 0) as -> by lia.
    change (1000 <= List.length full_page). rewrite full_page_length. apply le_n.
  - change (1 < 1000). lia.
Defined.

Lemma goes_on_inv r :
  goes_on r = true ->
  exists projects has_more next_cursor,
    LovableScraper.fetch_community_projects r = (projects, has_more, next_cursor) /\
    is_empty projects = false /\ truthy has_more = true /\ truthy next_cursor = true.
Proof.
  unfold goes_on, projects_of, cursor_of.
  destruct (LovableScraper.fetch_community_projects r) as [[projects has_more] next_cursor].
  cbn [fst snd]. intros H. apply andb_true_iff in H as [H H3].
  apply andb_true_iff in H as [H1 H2]. apply negb_true_iff in H1.
  exists projects, has_more, next_cursor. auto.
Qed.

Lemma lovable_run n : forall fuel server k cursor all_projects log,
  (forall j, j < n -> goes_on (server (k + j)) = true) ->
  goes_on (server (k + n)) = false ->
  LovableScraper.fetch_all_projects_loop (S n + fuel) server k cursor all_projects log
  = Some (all_projects ++ lovable_pages server k (S n), log ++ lovable_log server k cursor n).
Proof.
  induction n as [|n IH]; intros fuel server k cursor all_projects log Hon Hoff.
  - rewrite Nat.add_0_r in Hoff.
    cbn [Nat.add LovableScraper.fetch_all_projects_loop lovable_pages lovable_log].
    unfold goes_on, projects_of, cursor_of in *.
    destruct (LovableScraper.fetch_community_projects (server k))
      as [[projects has_more] next_cursor].
    cbn [fst snd] in *. rewrite app_nil_r.
    destruct projects as [|p projects]; cbn [is_empty negb andb] in *.
    + rewrite app_nil_r. reflexivity.
    + destruct (truthy has_more); cbn [negb andb] in *; [|reflexivity].
      rewrite Hoff. reflexivity.
  - pose proof (Hon 0 ltac:(lia)) as H0. rewrite Nat.add_0_r in H0.
    change (S (S n) + fuel) with (S (S n + fuel)).
    remember (S n + fuel) as f eqn:Hf.
    cbn [LovableScraper.fetch_all_projects_loop lovable_pages lovable_log].
    unfold projects_of at 1, cursor_of at 1.
    destruct (goes_on_inv _ H0) as (projects & has_more & next_cursor & E & He & Hm & Hc).
    rewrite E. cbn [fst snd]. rewrite He, Hm, Hc. cbn [negb].
    subst f. rewrite IH.
    + rewrite <- !app_assoc. reflexivity.
    + intros j Hj. rewrite Nat.add_succ_l, <- Nat.add_succ_r. apply Hon. lia.
    + rewrite Nat.add_succ_l, <- Nat.add_succ_r. exact Hoff.
Qed.

Lemma lovable_never_stops fuel : forall server k cursor all_projects log,
  (forall j, goes_on (server j) = true) ->
  LovableScraper.fetch_all_projects_loop fuel server k cursor all_projects log = None.
Proof.
  induction fuel as [|fuel IH]; intros server k cursor all_projects log Hon;
    cbn [LovableScraper.fetch_all_projects_loop]; [reflexivity|].
  destruct (goes_on_inv _ (Hon k)) as (projects & has_more & next_cursor & E & He & Hm & Hc).
  rewrite E, He, Hm, Hc. cbn [negb]. apply IH, Hon.
Qed.

(** X17. The cursor loop of the Lovable scraper: the first request carries
    no cursor and each later one the ['nextCursor'] of the reply before
    it, with a pause of two seconds between; the run ends at the first
    reply that has no projects, a falsy ['hasMore'] or a falsy
    ['nextCursor'] -- a failed request being such a reply -- and returns
    the projects of every reply up to that one. There is no ceiling:
    while every reply has projects, a true ['hasMore'] and a cursor, the
    loop goes on. *)
Theorem lovable_cursor_loop :
  (forall n fuel server,
     (forall j, j < n -> goes_on (server j) = true) ->
     goes_on (server n) = false ->
     LovableScraper.fetch_all_projects (S n + fuel) server
     = Some (lovable_pages server 0 (S n), lovable_log server 0 JNull n)) /\
  (forall fuel server,
     (forall j, goes_on (server j) = true) ->
     LovableScraper.fetch_all_projects fuel server = None).
Proof.
  split.
  - intros n fuel server Hon Hoff. unfold LovableScraper.fetch_all_projects.
    rewrite (lovable_run n fuel server 0 JNull [] []); auto.
  - intros fuel server Hon. apply lovable_never_stops, Hon.
Qed.

End Runs_of_scrapers.

Section Runs_of_searches.

Import Scrapers.
Local Open Scope nat_scope.

Lemma lovable_cursor_loop_witness :
  LovableScraper.fetch_all_projects (2 + 0) two_replies
  = Some ([[("name", JStr "todo")]; [("name", JStr "shop")]],
          [LovableScraper.Ask JNull; LovableScraper.Wait 2; LovableScraper.Ask (JStr "c1")]).
Proof.
  apply (proj1 lovable_cursor_loop 1 0 two_replies).
  - intros j Hj. assert (j = 0) as -> by lia. reflexivity.
  - reflexivity.
Defined.

Lemma requests_app l1 l2 : requests (l1 ++ l2) = requests l1 + requests l2.
Proof. unfold requests. rewrite filter_app, length_app. reflexivity. Qed.

Lemma jules_bound fuel : forall server k page all_prs log prs log',
  (exists q, List.length all_prs = 100 * q) ->
  List.length all_prs < 1000 ->
  JulesPRScraper.fetch_all_prs_api_loop fuel server k 100 page all_prs log = Some (prs, log') ->
  requests log' <= requests log + fuel /\
  ((forall j, List.length (fst (JulesPRScraper.fetch_jules_prs_api 100 (server j))) <= 100) ->
   List.length prs <= 1000).
Proof.
  induction fuel as [|fuel IH]; intros server k page all_prs log prs log' [q Hq] Hlt H;
    cbn [JulesPRScraper.fetch_all_prs_api_loop] in H; [discriminate|].
  assert (Hreq : requests (log ++ [Get page]) = requests log + 1)
    by (rewrite requests_app; reflexivity).
  assert (Hreq2 : requests ((log ++ [Get page]) ++ [Sleep 1]) = requests log + 1)
    by (rewrite requests_app, Hreq; unfold requests; simpl; lia).
  destruct (JulesPRScraper.fetch_jules_prs_api 100 (server k)) as [items has_more] eqn:E.
  destruct (is_empty items).
  { inversion H. subst. split; [lia|]. intros _. lia. }
  destruct has_more; cbn [negb] in H.
  - pose proof (fetch_has_more _ _ _ E) as Hlen.
    destruct (1000 <=? List.length (all_prs ++ items)) eqn:L.
    + inversion H. subst. split; [lia|]. intros _. rewrite length_app. lia.
    + apply Nat.leb_gt in L.
      assert (Hq' : exists q', List.length (all_prs ++ items) = 100 * q')
        by (exists (S q); rewrite length_app; lia).
      destruct (IH _ _ _ _ _ _ _ Hq' L H) as [A B].
      split; [lia | exact B].
  - inversion H. subst. split; [lia|]. intros Hall. specialize (Hall k).
    rewrite E in Hall. cbn [fst] in Hall. rewrite length_app. lia.
Qed.

(** X18. The ceiling of [fetch_all_prs_api]: whatever the peer answers,
    the run ends after at most 10 requests; when no page holds more than
    the 100 pull requests asked for, it returns at most 1000 of them. *)
Theorem jules_run_bounded :
  forall server,
    exists prs log,
      JulesPRScraper.fetch_all_prs_api 10 server = Some (prs, log) /\
      requests log <= 10 /\
      ((forall j, List.length (fst (JulesPRScraper.fetch_jules_prs_api 100 (server j))) <= 100) ->
       List.length prs <= 1000).
Proof.
  intros server.
  destruct (jules_loop_terminates 9 server 0 100 1 [] []) as ([prs log] & H);
    [simpl; lia|].
  exists prs, log. split; [exact H|].
  apply (jules_bound 10 server 0 1 [] [] prs log); [exists 0; reflexivity | simpl; lia | exact H].
Qed.

Lemma jules_run_bounded_witness :
  exists prs log,
    JulesPRScraper.fetch_all_prs_api 10 one_result = Some (prs, log) /\
    requests log <= 10 /\ List.length prs <= 1000.
Proof.
  destruct (jules_run_bounded one_result) as (prs & log & H & R & B).
  exists prs, log. split; [exact H|]. split; [exact R|].
  apply B. intros j. simpl. lia.
Defined.

Lemma reached_inv m n r :
  GitHubCodeSearchProcessor.reached (Some m) n = r ->
  0 < m ->
  (r = Some m /\ m <= n) \/ (r = None /\ n < m).
Proof.
  unfold GitHubCodeSearchProcessor.reached. intros <- Hm.
  destruct (m =? 0) eqn:E0; [apply Nat.eqb_eq in E0; lia|]. cbn [negb andb].
  destruct (m <=? n) eqn:E; [apply Nat.leb_le in E | apply Nat.leb_gt in E]; auto.
Qed.

Lemma search_bound fuel : forall server k per_page m page all_files log files log',
  0 < m -> List.length all_files < m ->
  GitHubCodeSearchProcessor.search_code_files_loop
    fuel server k per_page (Some m) page all_files log = Some (files, log') ->
  List.length files <= m.
Proof.
  induction fuel as [|fuel IH]; intros server k per_page m page all_files log files log' Hm Hlt H;
    cbn [GitHubCodeSearchProcessor.search_code_files_loop] in H; [discriminate|].
  destruct (server k) as [st items|]; [|inversion H; subst; lia].
  destruct (st =? 403)%Z; [eapply IH; eauto|].
  destruct (negb (st =? 200)%Z); [inversion H; subst; lia|].
  destruct (is_empty items); [inversion H; subst; lia|].
  destruct (reached_inv m (List.length (all_files ++ items)) _ eq_refl Hm)
    as [[Hx Hr] | [Hx Hr]]; rewrite Hx in H.
  - inversion H. subst. rewrite length_firstn. lia.
  - destruct (List.length items <? per_page); [inversion H; subst; lia|].
    destruct (1000 <=? List.length (all_files ++ items)); [inversion H; subst; lia|].
    eapply IH; eauto.
Qed.

(** X19. [max_results] of [search_code_files]: with a positive limit and
    a peer that never answers HTTP 403, the search ends within 1001
    requests and returns at most [max_results] files. *)
Theorem search_respects_max_results :
  forall server per_page m,
    (forall j, rate_limited (server j) = false) ->
    0 < m ->
    exists files log,
      GitHubCodeSearchProcessor.search_code_files 1001 server per_page (Some m)
      = Some (files, log) /\
      List.length files <= m.
Proof.
  intros server per_page m Hno Hm.
  destruct (search_loop_terminates 1000 server 0 per_page (Some m) 1 [] [] Hno) as ([files log] & H);
    [simpl; lia|].
  exists files, log. split; [exact H|].
  apply (search_bound 1001 server 0 per_page m 1 [] [] files log Hm); [exact Hm | exact H].
Qed.

Lemma search_respects_max_results_witness :
  exists files log,
    GitHubCodeSearchProcessor.search_code_files 1001 one_result 1 (Some 2) = Some (files, log) /\
    List.length files <= 2.
Proof.
  apply (search_respects_max_results one_result 1 2).
  - intros j. reflexivity.
  - lia.
Defined.

Lemma search_repositories_run remaining : forall server k page all_items log,
  exists n,
    n <= remaining /\
    UpdateData.search_repositories_loop remaining server k page all_items log
    = (all_items ++ pages server k n, log ++ page_log page n) /\
    (forall j, S j < n -> 100 <= List.length (delivered (server (k + j)))) /\
    (n < remaining -> 0 < n /\ List.length (delivered (server (k + (n - 1)))) < 100).
Proof.
  induction remaining as [|remaining IH]; intros server k page all_items log;
    cbn [UpdateData.search_repositories_loop].
  - exists 0. cbn [pages page_log]. rewrite !app_nil_r.
    split; [lia|]. split; [reflexivity|]. split; intros; lia.
  - assert (Hstop : forall items,
              delivered (server k) = items -> List.length items < 100 ->
              exists n,
                n <= S remaining /\
                (all_items ++ items, log ++ [Get page])
                = (all_items ++ pages server k n, log ++ page_log page n) /\
                (forall j, S j < n -> 100 <= List.length (delivered (server (k + j)))) /\
                (n < S remaining ->
                 0 < n /\ List.length (delivered (server (k + (n - 1)))) < 100)).
    { intros items Hd Hl. exists 1. cbn [pages page_log]. rewrite Hd, app_nil_r.
      split; [lia|]. split; [reflexivity|]. split; [intros; lia|].
      intros _. split; [lia|]. replace (k + (1 - 1)) with k by lia. rewrite Hd. exact Hl. }
    destruct (server k) as [st items|] eqn:Hk.
    + destruct (raise_for_status st) eqn:Hst.
      * destruct (Hstop []) as (n & H); [cbn [delivered]; rewrite Hst; reflexivity | simpl; lia|].
        rewrite app_nil_r in H. exists n. exact H.
      * destruct (is_empty items) eqn:He.
        { apply is_empty_length in He. apply length_zero_iff_nil in He. subst items.
          destruct (Hstop []) as (n & H);
            [cbn [delivered]; rewrite Hst; reflexivity | simpl; lia|].
          rewrite app_nil_r in H. exists n. exact H. }
        destruct (List.length items <? 100) eqn:Hl.
        { apply Nat.ltb_lt in Hl. apply Hstop; [cbn [delivered]; rewrite Hst; reflexivity|].
          exact Hl. }
        apply Nat.ltb_ge in Hl.
        destruct (IH server (S k) (page + 1) (all_items ++ items) (log ++ [Get page]))
          as (n & Hn & Hrun & Hfull & Hlast).
        assert (Hd : delivered (server k) = items)
          by (rewrite Hk; cbn [delivered]; rewrite Hst; reflexivity).
        exists (S n). split; [lia|]. split; [|split].
        { rewrite Hrun. cbn [pages page_log]. rewrite Hd, <- !app_assoc. reflexivity. }
        { intros j Hj. destruct j as [|j].
          - rewrite Nat.add_0_r, Hd. exact Hl.
          - rewrite <- Nat.add_succ_comm. apply Hfull. lia. }
        { intros Hlt. split; [lia|]. destruct (Hlast ltac:(lia)) as [Hpos Hshort].
          replace (k + (S n - 1)) with (S k + (n - 1)) by lia. exact Hshort. }
    + destruct (Hstop []) as (n & H); [reflexivity | simpl; lia|].
      rewrite app_nil_r in H. exists n. exact H.
Qed.

(** X20. [search_repositories] of update_data.py: the search asks for the
    pages 1, 2, ... in order, each once and never more than [max_pages]
    of them, and returns the records of the pages it asked for; every
    page before the last one asked for held at least 100 records, and
    when it stops before [max_pages] the last page held fewer than 100 --
    a failed request counting as a page with none. *)
Theorem search_repositories_pages :
  forall server max_pages,
    exists n,
      n <= max_pages /\
      UpdateData.search_repositories server max_pages = (pages server 0 n, page_log 1 n) /\
      requests (page_log 1 n) = n /\
      (forall j, S j < n -> 100 <= List.length (delivered (server j))) /\
      (n < max_pages -> 0 < n /\ List.length (delivered (server (n - 1))) < 100).
Proof.
  intros server max_pages. unfold UpdateData.search_repositories.
  destruct (search_repositories_run max_pages server 0 1 [] [])
    as (n & Hn & Hrun & Hfull & Hlast).
  exists n. split; [exact Hn|]. split; [exact Hrun|]. split; [|split; [exact Hfull | exact Hlast]].
  clear. generalize 1. induction n as [|n IH]; intros page; [reflexivity|].
  cbn [page_log]. unfold requests in *. cbn [filter List.length]. rewrite IH. reflexivity.
Qed.

End Runs_of_searches.

Section Runs_of_searches_witnesses.

Import Scrapers.
Local Open Scope nat_scope.

Lemma search_repositories_pages_witness :
  exists n,
    n <= 2 /\
    UpdateData.search_repositories one_result 2 = (pages one_result 0 n, page_log 1 n) /\
    (n < 2 -> 0 < n /\ List.length (delivered (one_result (n - 1))) < 100).
Proof.
  destruct (search_repositories_pages one_result 2) as (n & Hn & Hrun & _ & _ & Hlast).
  exists n. split; [exact Hn|]. split; [exact Hrun | exact Hlast].
Defined.

End Runs_of_searches_witnesses.

(** ** Values that cannot be bound *)

Section Unbindable.

Import DataIntegration.

(** X21. A record that cannot be written: when one of the values that
    [insert_app] binds is a list or a dict, an [int] outside 64 bits or a
    [str] with a lone surrogate, no row is written, no id is returned and
    connection and tables are left as they are; the record is counted as
    an error, unless its url is truthy and already held by a row, in which
    case the check before the INSERT counts it as a duplicate. *)
Theorem unbindable_record_is_an_error :
  forall now app_data c s,
    bindable app_data = false ->
    insert_app now app_data (c, s) = (None, (c, incr_errors s)) \/
    (truthy (get1 app_data "url") = true /\
     url_present app_data (apps (stored c)) = true /\
     insert_app now app_data (c, s) = (None, (c, incr_duplicates_skipped s))).
Proof.
  intros now app_data c s Hb.
  assert (Hr : row_of_app_data now app_data
                 (autoincrement (apps_seq (stored c)) (map r_id (apps (stored c)))) = None).
  { destruct (row_of_app_data now app_data _) as [row|] eqn:E; [|reflexivity].
    rewrite (row_bindable _ _ _ _ E) in Hb. discriminate. }
  unfold insert_app. rewrite Hr.
  destruct (truthy (get1 app_data "url")) eqn:Ht; [|left; reflexivity].
  destruct (bind (get1 app_data "url")) as [u|] eqn:Hu; [|left; reflexivity].
  destruct (select_by_url u (apps (stored c))) as [row|] eqn:Hs; [|left; reflexivity].
  right. split; [reflexivity|]. split; [|reflexivity].
  unfold url_present. rewrite <- (truthy_get1_url _ Ht), Hu.
  unfold select_by_url in Hs. rewrite existsb_find, Hs. reflexivity.
Qed.

Lemma unbindable_record_is_an_error_witness :
  insert_app "t1" (bolt_app_data overflowing_project) (url_less_connection, initial_stats)
  = (None, (url_less_connection, incr_errors initial_stats)) /\
  insert_app "t1" (bolt_app_data surrogate_project) (url_less_connection, initial_stats)
  = (None, (url_less_connection, incr_errors initial_stats)).
Proof.
  split.
  - destruct (unbindable_record_is_an_error "t1" (bolt_app_data overflowing_project)
                url_less_connection initial_stats eq_refl) as [E | (Ht & _)];
      [exact E | discriminate].
  - destruct (unbindable_record_is_an_error "t1" (bolt_app_data surrogate_project)
                url_less_connection initial_stats eq_refl) as [E | (_ & Hp & _)];
      [exact E | discriminate].
Defined.

End Unbindable.

(** ** The response parser of the Figma Make scraper *)

Section FigmaMake.

Import Scrapers Scrapers.FigmaMakeScraper.

Variable str : json -> string.




End FigmaMake.

Section FigmaMakeDropRule.

Import Scrapers Scrapers.FigmaMakeScraper.



End FigmaMakeDropRule.
